(** * Q/A session viewer: correlation, answer recovery, timeline, aggregation

    A shallow embedding of the core of [visualize-qa.js]: the Correlator
    ([extractQAPairs]), the fallback Answer Normalizer
    ([parseAnswersFromContent]), the Timeline Builder
    ([buildSessionTimeline], [summarizeToolInput], [stripTags]) and the
    Session Aggregator ([buildViewModel]); and of the functions around
    them: the reader of a session file ([parseJSONLFile]), the session
    metadata ([extractSessionMeta], [extractProjectName]), the body of the
    loop of [main] over the files, and the escaping of what is written into
    the page ([escapeHTML], and the session data in [generateHTML]).

    The program is JavaScript working on the output of [JSON.parse], so the
    embedding keeps JavaScript's dynamic values ([value]) and makes a thrown
    [TypeError] explicit ([result]).  Every function below follows the
    statement order of its source function.  The repository holds a second,
    older copy of the script, whose timeline also lists tool results and
    does not filter narrative text; the embedding follows [visualize-qa.js]. *)

From stdpp Require Import gmap strings list sorting.
From Stdlib Require Import ZArith Lia Ascii.

#[local] Set Warnings "-register-all".
#[local] Open Scope string_scope.
#[local] Open Scope list_scope.
#[local] Open Scope nat_scope.

(** ** JavaScript values *)

(** The values [JSON.parse] can return, plus [undefined], which a missing
    property reads as.  A number is kept as the text [Number::toString] gives
    for it: that text decides everything the program does with a number
    (truthiness, template interpolation, use as a [Map] key), and it is the
    same for [0] and [-0].  A string is a sequence of code units, one
    [ascii] each.  An object is its finite map of own properties. *)
Inductive value :=
| VUndef
| VNull
| VBool (b : bool)
| VNum (repr : string)
| VStr (s : string)
| VArr (elems : list value)
| VObj (fields : gmap string value).

(** The only exception the embedded functions can raise. *)
Inductive exn := TypeError.

Inductive result (A : Type) :=
| Ok (a : A)
| Throw (e : exn).
Arguments Ok {A} a.
Arguments Throw {A} e.

#[global] Instance result_ret : MRet result := fun A a => Ok a.
#[global] Instance result_bind : MBind result := fun A B k r =>
  match r with Ok a => k a | Throw e => Throw e end.
#[global] Instance result_fmap : FMap result := fun A B f r =>
  match r with Ok a => Ok (f a) | Throw e => Throw e end.

(** [for (const x of xs) { s = body(s, x) }] *)
Fixpoint for_of {A St : Type} (body : St → A → result St) (xs : list A) (s : St) : result St :=
  match xs with
  | [] => Ok s
  | x :: xs' => s' ← body s x; for_of body xs' s'
  end.

(** [for (let i = i0; i < i0 + xs.length; i++) { s = body(i, xs[i - i0], s) }] *)
Fixpoint for_index {A St : Type} (body : nat → A → St → result St) (i : nat) (xs : list A) (s : St)
  : result St :=
  match xs with
  | [] => Ok s
  | x :: xs' => s' ← body i x s; for_index body (S i) xs' s'
  end.

(** ToBoolean *)
Definition truthy (v : value) : bool :=
  match v with
  | VUndef | VNull => false
  | VBool b => b
  | VNum r => negb (String.eqb r "0" || String.eqb r "NaN")
  | VStr s => negb (String.eqb s "")
  | VArr _ | VObj _ => true
  end.

(** [v.p] for the property names the program reads ([type], [message],
    [content], [timestamp], [name], [id], [input], [questions], [question],
    [tool_use_id], [is_error], [toolUseResult], [answers], [text], [command],
    [file_path], [pattern], [query], [url]).  None of them is an index,
    [length] or a built-in method, so on a string, number, boolean or array
    the read gives [undefined]; on [null] and [undefined] it throws. *)
Definition get (v : value) (p : string) : result value :=
  match v with
  | VUndef | VNull => Throw TypeError
  | VObj fields => Ok (default VUndef (fields !! p))
  | _ => Ok VUndef
  end.

(** [v?.p] *)
Definition get_opt (v : value) (p : string) : result value :=
  match v with
  | VUndef | VNull => Ok VUndef
  | _ => get v p
  end.

(** [v === 'lit'] *)
Definition is_str (v : value) (lit : string) : bool :=
  match v with
  | VStr s => String.eqb s lit
  | _ => false
  end.

(** [a || b] *)
Definition or_else (a b : value) : value := if truthy a then a else b.

Fixpoint join_comma (l : list string) : string :=
  match l with
  | [] => ""
  | [s] => s
  | s :: l' => s +:+ "," +:+ join_comma l'
  end.

(** ToString, as a template literal, a property key and [String()] apply it.
    An object is converted by calling its [toString]: the inherited one gives
    [[object Object]], but an object that owns a property of that name holds
    there a value of [JSON.parse], which cannot be called; [valueOf] then
    gives back the object, or cannot be called either, and the conversion
    throws a [TypeError].  An array is converted by joining the conversions
    of its elements, [null] and [undefined] counting as the empty string. *)
Fixpoint ToString (v : value) : result string :=
  match v with
  | VUndef => Ok "undefined"
  | VNull => Ok "null"
  | VBool true => Ok "true"
  | VBool false => Ok "false"
  | VNum r => Ok r
  | VStr s => Ok s
  | VArr l =>
      join_comma <$>
        ((fix elems (l : list value) : result (list string) :=
            match l with
            | [] => Ok []
            | x :: l' =>
                s ← match x with VUndef | VNull => Ok "" | _ => ToString x end;
                rest ← elems l';
                Ok (s :: rest)
            end) l)
  | VObj fields =>
      match fields !! "toString" with
      | Some _ => Throw TypeError
      | None => Ok "[object Object]"
      end
  end.

(** The values a [for ... of] loop visits: the elements of an array, the
    characters of a string; anything else [JSON.parse] gives is not iterable. *)
Definition iterate (v : value) : result (list value) :=
  match v with
  | VArr l => Ok l
  | VStr s => Ok ((λ c, VStr (String c "")) <$> String.list_ascii_of_string s)
  | _ => Throw TypeError
  end.

(** [o[k] = v] on an object created by [{}]: the key [__proto__] reaches the
    inherited setter, which creates no own property. *)
Definition obj_set (k : string) (v : value) (o : gmap string value) : gmap string value :=
  if String.eqb k "__proto__" then o else <[k := v]> o.

(** ** Strings *)

Definition dquote : string := String "034"%char "".

Definition len (s : string) : Z := Z.of_nat (String.length s).

Fixpoint drop_str (n : nat) (s : string) : string :=
  match n, s with
  | O, _ => s
  | S n', String _ s' => drop_str n' s'
  | S _, "" => ""
  end.

(** Position of the first occurrence of [p] in [s]. *)
Fixpoint find_first (p s : string) : option nat :=
  if String.prefix p s then Some 0
  else match s with
       | "" => None
       | String _ s' => S <$> find_first p s'
       end.

(** Position of the last occurrence of [p] in [s]. *)
Fixpoint find_last (p s : string) : option nat :=
  match s with
  | "" => if String.prefix p "" then Some 0 else None
  | String _ s' =>
      match find_last p s' with
      | Some k => Some (S k)
      | None => if String.prefix p s then Some 0 else None
      end
  end.

Definition clamp (i : Z) (s : string) : Z := Z.max 0 (Z.min i (len s)).

(** [s.indexOf(p, from)] *)
Definition indexOf (s p : string) (from : Z) : Z :=
  let k := Z.to_nat (clamp from s) in
  match find_first p (drop_str k s) with
  | Some i => Z.of_nat (k + i)
  | None => (-1)%Z
  end.

(** [s.lastIndexOf(p)] *)
Definition lastIndexOf (s p : string) : Z :=
  match find_last p s with
  | Some i => Z.of_nat i
  | None => (-1)%Z
  end.

(** [s.substring(a, b)]: both ends clamped to the string, swapped when out of
    order. *)
Definition substring (s : string) (a b : Z) : string :=
  let a' := clamp a s in
  let b' := clamp b s in
  let lo := Z.min a' b' in
  let hi := Z.max a' b' in
  String.substring (Z.to_nat lo) (Z.to_nat (hi - lo)) s.

(** [s.slice(0, n)] *)
Definition slice0 (s : string) (n : nat) : string := String.substring 0 n s.

(** ** Answer Normalizer: [parseAnswersFromContent] *)

(** A quotation mark, the text, a quotation mark, an equals sign, a
    quotation mark. *)
Definition pattern_text (t : string) : string :=
  dquote +:+ t +:+ dquote +:+ "=" +:+ dquote.

(** The template literal of the source, which converts the question text to
    a string. *)
Definition answer_pattern (qText : value) : result string :=
  pattern_text <$> ToString qText.

(** The delimiter literal: quotation mark, comma, space, quotation mark. *)
Definition answer_delim : string := dquote +:+ ", " +:+ dquote.

(** Where the answer that starts at [start] ends. *)
Definition answer_end (contentStr : string) (start : Z) : Z :=
  let end_ := indexOf contentStr answer_delim start in
  if (end_ =? -1)%Z then
    let end_ := lastIndexOf contentStr dquote in
    if (end_ <=? start)%Z then len contentStr else end_
  else end_.

(** The body of the loop over [questions]. *)
Definition parse_question (contentStr : string) (answers : gmap string value) (q : value)
  : result (gmap string value) :=
  qText ← get q "question";
  pattern ← answer_pattern qText;
  let idx := indexOf contentStr pattern 0 in
  if (idx =? -1)%Z then Ok answers
  else
    let start := (idx + len pattern)%Z in
    let end_ := answer_end contentStr start in
    key ← ToString qText;
    Ok (obj_set key (VStr (substring contentStr start end_)) answers).

Definition parseAnswersFromContent (contentStr questions : value) : result value :=
  let answers : gmap string value := ∅ in
  match contentStr with
  | VStr s =>
      qs ← iterate questions;
      answers ← for_of (parse_question s) qs answers;
      Ok (VObj answers)
  | _ => Ok (VObj answers)
  end.

(** A question of the question list, reduced to the field the core reads. *)
Definition question (text : string) : value := VObj {[ "question" := VStr text ]}.

Definition quoted (s : string) : string := dquote +:+ s +:+ dquote.

(** ** Correlator: [extractQAPairs] *)

(** The keys under which [toolUseMap] can be read back.  A [Map] compares
    keys by SameValueZero: primitives by value, arrays and objects by
    identity. *)
Inductive key :=
| KUndef
| KNull
| KBool (b : bool)
| KNum (repr : string)
| KStr (s : string).

#[global] Instance key_eq_dec : EqDecision key.
Proof. solve_decision. Defined.

#[global] Instance key_countable : Countable key.
Proof.
  refine (inj_countable'
    (λ k, match k with
          | KUndef => inl (inl false)
          | KNull => inl (inl true)
          | KBool b => inl (inr b)
          | KNum r => inr (inl r)
          | KStr s => inr (inr s)
          end)
    (λ x, match x with
          | inl (inl false) => KUndef
          | inl (inl true) => KNull
          | inl (inr b) => KBool b
          | inr (inl r) => KNum r
          | inr (inr s) => KStr s
          end) _).
  by intros [].
Defined.

Definition map_key (v : value) : option key :=
  match v with
  | VUndef => Some KUndef
  | VNull => Some KNull
  | VBool b => Some (KBool b)
  | VNum r => Some (KNum r)
  | VStr s => Some (KStr s)
  | VArr _ | VObj _ => None
  end.

Module Ask.
(** The object stored in [toolUseMap] for one request block. *)
Record t := mk {
  questions : value;
  lineIndex : nat;
  timestamp : value;
  toolUseId : value;
}.
End Ask.

Module Pair.
(** One element of the array [extractQAPairs] returns. *)
Record t := mk {
  questions : value;
  answers : value;
  askTimestamp : value;
  answerTimestamp : value;
  askLineIndex : nat;
  answerLineIndex : nat;
  toolUseId : value;
}.
End Pair.

(** [toolUseMap.set(k, d)].  An array or object used as a key is a node of
    the parsed text that no other property read can give again, so the entry
    made for it is never read back and is left out of the map. *)
Definition Map_set (k : value) (d : Ask.t) (m : gmap key Ask.t) : gmap key Ask.t :=
  match map_key k with
  | Some k' => <[k' := d]> m
  | None => m
  end.

(** [toolUseMap.get(k)], [None] where [toolUseMap.has(k)] is false. *)
Definition Map_get (k : value) (m : gmap key Ask.t) : option Ask.t :=
  k' ← map_key k; m !! k'.

(** Pass 1, the body of the loop over the blocks of one record. *)
Definition index_block (i : nat) (entry : value) (toolUseMap : gmap key Ask.t) (block : value)
  : result (gmap key Ask.t) :=
  type ← get block "type";
  if is_str type "tool_use" then
    name ← get block "name";
    if is_str name "AskUserQuestion" then
      id ← get block "id";
      input ← get block "input";
      questions ← get_opt input "questions";
      timestamp ← get entry "timestamp";
      Ok (Map_set id
            {| Ask.questions := or_else questions (VArr []);
               Ask.lineIndex := i;
               Ask.timestamp := timestamp;
               Ask.toolUseId := id |}
            toolUseMap)
    else Ok toolUseMap
  else Ok toolUseMap.

(** Pass 1, the body of the loop over the records. *)
Definition index_entry (i : nat) (entry : value) (toolUseMap : gmap key Ask.t)
  : result (gmap key Ask.t) :=
  type ← get entry "type";
  if negb (is_str type "assistant") then Ok toolUseMap
  else
    message ← get entry "message";
    content ← get_opt message "content";
    if negb (truthy content) then Ok toolUseMap
    else
      match content with
      | VArr blocks => for_of (index_block i entry) blocks toolUseMap
      | _ => Ok toolUseMap
      end.

(** The answers of a response: the record's structured side channel when it
    has one, the fallback parse of the block's text otherwise. *)
Definition resolve_answers (entry block : value) (askData : Ask.t) : result value :=
  toolUseResult ← get entry "toolUseResult";
  structured ← get_opt toolUseResult "answers";
  if truthy structured then Ok structured
  else
    content ← get block "content";
    parseAnswersFromContent content (Ask.questions askData).

(** Pass 2, the body of the loop over the blocks of one record. *)
Definition match_block (toolUseMap : gmap key Ask.t) (i : nat) (entry : value)
    (pairs : list Pair.t) (block : value) : result (list Pair.t) :=
  type ← get block "type";
  if negb (is_str type "tool_result") then Ok pairs
  else
    tool_use_id ← get block "tool_use_id";
    match Map_get tool_use_id toolUseMap with
    | None => Ok pairs
    | Some askData =>
        is_error ← get block "is_error";
        if truthy is_error then Ok pairs
        else
          answers ← resolve_answers entry block askData;
          answerTimestamp ← get entry "timestamp";
          Ok (pairs ++
              [ {| Pair.questions := Ask.questions askData;
                   Pair.answers := answers;
                   Pair.askTimestamp := Ask.timestamp askData;
                   Pair.answerTimestamp := answerTimestamp;
                   Pair.askLineIndex := Ask.lineIndex askData;
                   Pair.answerLineIndex := i;
                   Pair.toolUseId := Ask.toolUseId askData |} ])%list
    end.

(** Pass 2, the body of the loop over the records. *)
Definition match_entry (toolUseMap : gmap key Ask.t) (i : nat) (entry : value)
    (pairs : list Pair.t) : result (list Pair.t) :=
  type ← get entry "type";
  if negb (is_str type "user") then Ok pairs
  else
    message ← get entry "message";
    content ← get_opt message "content";
    if negb (truthy content) then Ok pairs
    else
      match content with
      | VArr blocks => for_of (match_block toolUseMap i entry) blocks pairs
      | _ => Ok pairs
      end.

Definition build_toolUseMap (parsedLines : list value) : result (gmap key Ask.t) :=
  for_index index_entry 0 parsedLines ∅.

Definition extractQAPairs (parsedLines : list value) : result (list Pair.t) :=
  toolUseMap ← build_toolUseMap parsedLines;
  for_index (match_entry toolUseMap) 0 parsedLines [].

(** *** Sample records *)

Definition obj (fields : list (string * value)) : value := VObj (list_to_map fields).

Definition record (type : string) (timestamp : value) (content : value) (rest : list (string * value))
  : value :=
  obj ([("type", VStr type); ("timestamp", timestamp);
        ("message", obj [("content", content)])] ++ rest)%list.

Definition ask_block (id : string) (questions : list value) : value :=
  obj [("type", VStr "tool_use"); ("name", VStr "AskUserQuestion"); ("id", VStr id);
       ("input", obj [("questions", VArr questions)])].

Definition result_block (id : string) (content : value) (rest : list (string * value)) : value :=
  obj ([("type", VStr "tool_result"); ("tool_use_id", VStr id); ("content", content)] ++ rest)%list.

Definition sample_ask_X : value :=
  record "assistant" (VStr "2025-01-01T10:00:00.000Z") (VArr [ask_block "X" [question "Proceed?"]]) [].

Definition sample_ask_Y : value :=
  record "assistant" (VStr "2025-01-01T10:00:05.000Z") (VArr [ask_block "Y" [question "Color?"]]) [].

Definition sample_answer_Y : value :=
  record "user" (VStr "2025-01-01T10:01:00.000Z")
    (VArr [result_block "Y" (VStr (quoted "Color?" +:+ "=" +:+ quoted "blue")) []]) [].

Definition sample_answer_X : value :=
  record "user" (VStr "2025-01-01T10:02:00.000Z")
    (VArr [result_block "X" (VStr "ignored") []])
    [("toolUseResult", obj [("answers", obj [("Proceed?", VStr "Yes")])])].

Definition sample_lines : list value :=
  [sample_ask_X; sample_ask_Y; sample_answer_Y; sample_answer_X].

(** ** Timeline Builder: [stripTags], [summarizeToolInput], [buildSessionTimeline] *)

(** White space and line terminators of the language, among the code units
    an [ascii] can hold: TAB, LF, VT, FF, CR, SP, NBSP. *)
Definition is_white (c : ascii) : bool :=
  match nat_of_ascii c with
  | 9 | 10 | 11 | 12 | 13 | 32 | 160 => true
  | _ => false
  end.

Fixpoint trimStart (s : string) : string :=
  match s with
  | "" => ""
  | String c s' => if is_white c then trimStart s' else s
  end.

Fixpoint trimEnd (s : string) : string :=
  match s with
  | "" => ""
  | String c s' =>
      match trimEnd s' with
      | "" => if is_white c then "" else String c ""
      | t => String c t
      end
  end.

(** [s.trim()] *)
Definition trim (s : string) : string := trimEnd (trimStart s).

Definition is_gt (c : ascii) : bool := Ascii.eqb c ">".
Definition is_lt (c : ascii) : bool := Ascii.eqb c "<".

Fixpoint has_gt (s : string) : bool :=
  match s with
  | "" => false
  | String c s' => is_gt c || has_gt s'
  end.

(** [s.replace(/<[^>]+>/g, '')].  A match starts at a [<] that is followed by
    a character other than [>] and, later, by some [>]; it ends at the first
    such [>].  [inside] says that the scan is within a match. *)
Fixpoint remove_tags (inside : bool) (s : string) : string :=
  match s with
  | "" => ""
  | String c s' =>
      if inside then
        if is_gt c then remove_tags false s' else remove_tags true s'
      else
        let opens :=
          is_lt c &&
          match s' with
          | "" => false
          | String d s'' => negb (is_gt d) && has_gt s''
          end in
        if opens then remove_tags true s' else String c (remove_tags false s')
  end.

(** [stripTags(str)]: [replace] exists on strings only. *)
Definition stripTags (str : value) : result string :=
  if negb (truthy str) then Ok ""
  else
    match str with
    | VStr s => Ok (trim (remove_tags false s))
    | _ => Throw TypeError
    end.

(** Upper-case form of a code unit, for the letters a to z; a regular
    expression with the [i] flag never equates a code unit beyond 127 with
    one below. *)
Definition upcase (c : ascii) : ascii :=
  let n := nat_of_ascii c in
  if (97 <=? n)%nat && (n <=? 122)%nat then ascii_of_nat (n - 32) else c.

(** [p] matches at the start of [s], letter case ignored. *)
Fixpoint prefix_ci (p s : string) : bool :=
  match p, s with
  | "", _ => true
  | String a p', String b s' => Ascii.eqb (upcase a) (upcase b) && prefix_ci p' s'
  | String _ _, "" => false
  end.

(** [/^(SessionStart|currentDate|Today|The following|As you answer)/i.test(s)] *)
Definition is_boilerplate (s : string) : bool :=
  existsb (λ p, prefix_ci p s)
    ["SessionStart"; "currentDate"; "Today"; "The following"; "As you answer"].

Inductive timelineEntry :=
| assistant_text (timestamp : value) (content : string) (lineIndex : nat)
| ask_user_question (timestamp toolUseId questions : value) (lineIndex : nat)
| tool_use (timestamp toolName content : value) (lineIndex : nat)
| user_text (timestamp : value) (content : string) (lineIndex : nat)
| user_answer (timestamp toolUseId answers : value) (lineIndex : nat).

Definition lineIndex (e : timelineEntry) : nat :=
  match e with
  | assistant_text _ _ i | ask_user_question _ _ _ i | tool_use _ _ _ i
  | user_text _ _ i | user_answer _ _ _ i => i
  end.

Definition timestamp (e : timelineEntry) : value :=
  match e with
  | assistant_text t _ _ | ask_user_question t _ _ _ | tool_use t _ _ _
  | user_text t _ _ | user_answer t _ _ _ => t
  end.

(** [v.slice(0, 120)]: strings and arrays have [slice], nothing else does. *)
Definition slice120 (v : value) : result value :=
  match v with
  | VStr s => Ok (VStr (slice0 s 120))
  | VArr l => Ok (VArr (take 120 l))
  | _ => Throw TypeError
  end.

(** [v?.trim()] *)
Definition trim_opt (v : value) : result value :=
  match v with
  | VUndef | VNull => Ok VUndef
  | VStr s => Ok (VStr (trim s))
  | _ => Throw TypeError
  end.

Section Timeline.

(** [JSON.stringify], a built-in of the language. *)
Variable JSON_stringify : value → string.

Definition summarizeToolInput (block : value) : result value :=
  input ← get block "input";
  if negb (truthy input) then Ok (VStr "")
  else
    command ← get input "command";
    if truthy command then slice120 command
    else
      file_path ← get input "file_path";
      if truthy file_path then Ok file_path
      else
        pattern ← get input "pattern";
        if truthy pattern then text ← ToString pattern; Ok (VStr ("pattern: " +:+ text))
        else
          query ← get input "query";
          if truthy query then slice120 query
          else
            url ← get input "url";
            if truthy url then Ok url
            else
              content ← get input "content";
              if truthy content then slice120 content
              else Ok (VStr (slice0 (JSON_stringify input) 120)).

(** The body of the loop over the blocks of an assistant record. *)
Definition assistant_block (i : nat) (entry : value) (timeline : list timelineEntry)
    (block : value) : result (list timelineEntry) :=
  type ← get block "type";
  if is_str type "thinking" then Ok timeline
  else
    has_text ←
      ((if is_str type "text"
        then text ← get block "text"; trimmed ← trim_opt text; Ok (truthy trimmed)
        else Ok false) : result bool);
    if (has_text : bool) then
      text ← get block "text";
      cleaned ← stripTags text;
      if (String.length cleaned <? 3)%nat then Ok timeline
      else
        timestamp ← get entry "timestamp";
        Ok (timeline ++ [assistant_text timestamp cleaned i])%list
    else if is_str type "tool_use" then
      name ← get block "name";
      if is_str name "AskUserQuestion" then
        timestamp ← get entry "timestamp";
        id ← get block "id";
        input ← get block "input";
        questions ← get_opt input "questions";
        Ok (timeline ++ [ask_user_question timestamp id (or_else questions (VArr [])) i])%list
      else
        snippet ← summarizeToolInput block;
        timestamp ← get entry "timestamp";
        Ok (timeline ++ [tool_use timestamp name snippet i])%list
    else Ok timeline.

(** The body of the loop over the blocks of a user record. *)
Definition user_block (i : nat) (entry : value) (timeline : list timelineEntry)
    (block : value) : result (list timelineEntry) :=
  type ← get block "type";
  if is_str type "text" then
    text ← get block "text";
    cleaned ← stripTags (or_else text (VStr ""));
    if (String.length cleaned <? 3)%nat then Ok timeline
    else if is_boilerplate cleaned then Ok timeline
    else
      timestamp ← get entry "timestamp";
      Ok (timeline ++ [user_text timestamp cleaned i])%list
  else if is_str type "tool_result" then
    toolUseResult ← get entry "toolUseResult";
    if truthy toolUseResult then
      timestamp ← get entry "timestamp";
      tool_use_id ← get block "tool_use_id";
      answers ← get toolUseResult "answers";
      Ok (timeline ++ [user_answer timestamp tool_use_id (or_else answers (VObj ∅)) i])%list
    else Ok timeline
  else Ok timeline.

(** The body of the loop over the records. *)
Definition timeline_entry (i : nat) (entry : value) (timeline : list timelineEntry)
  : result (list timelineEntry) :=
  message ← get entry "message";
  timestamp ← get entry "timestamp";
  if negb (truthy message) || negb (truthy timestamp) then Ok timeline
  else
    role ← get entry "type";
    if is_str role "file-history-snapshot" then Ok timeline
    else
      content ← get message "content";
      if is_str role "assistant" then
        match content with
        | VArr blocks => for_of (assistant_block i entry) blocks timeline
        | _ => Ok timeline
        end
      else if is_str role "user" then
        match content with
        | VStr _ =>
            cleaned ← stripTags content;
            if (3 <=? String.length cleaned)%nat
            then Ok (timeline ++ [user_text timestamp cleaned i])%list
            else Ok timeline
        | VArr blocks => for_of (user_block i entry) blocks timeline
        | _ => Ok timeline
        end
      else Ok timeline.

Definition buildSessionTimeline (parsedLines : list value) : result (list timelineEntry) :=
  for_index timeline_entry 0 parsedLines [].

End Timeline.

(** ** Session Aggregator: [buildViewModel] *)

Module Meta.
(** The object [extractSessionMeta] returns. *)
Record t := mk {
  sessionId : string;
  projectDir : string;
  projectName : string;
  slug : value;
  cwd : value;
  startTime : value;
  firstUserMessage : string;
}.
End Meta.

Module Session.
(** One element of [allSessions], as [main] builds it. *)
Record t := mk {
  meta : Meta.t;
  qaPairs : list Pair.t;
  timeline : list timelineEntry;
}.
End Session.

Module View.
(** The object [buildViewModel] returns. *)
Record t := mk {
  totalSessions : nat;
  totalProjects : nat;
  qaSessionCount : nat;
  totalQA : nat;
  grouped : gmap string (list Session.t);
  sessions : list Session.t;
}.
End View.

(** The properties every object inherits.  Reading [grouped[proj]] for one of
    these names gives the inherited value, which is truthy and has no
    [push]. *)
Definition inherited_names : list string :=
  ["constructor"; "__defineGetter__"; "__defineSetter__"; "hasOwnProperty";
   "__lookupGetter__"; "__lookupSetter__"; "isPrototypeOf"; "propertyIsEnumerable";
   "toString"; "valueOf"; "__proto__"; "toLocaleString"].

Definition is_inherited (name : string) : bool :=
  existsb (String.eqb name) inherited_names.

Section Aggregator.

(** The time value of the date a primitive value denotes, a built-in of the
    language; [None] is the [NaN] of an invalid date. *)
Variable Date_getTime : value → option Z.

(** [new Date(v).getTime()]: an array or an object is first converted to a
    primitive, which for the values of [JSON.parse] is the string [ToString]
    gives, and throws where [ToString] throws. *)
Definition new_Date (v : value) : result (option Z) :=
  match v with
  | VArr _ | VObj _ => text ← ToString v; Ok (Date_getTime (VStr text))
  | _ => Ok (Date_getTime v)
  end.

Definition start_ms (s : Session.t) : result (option Z) :=
  new_Date (Meta.startTime (Session.meta s)).

(** The comparator [(a, b) => new Date(b.meta.startTime) - new Date(a.meta.startTime)],
    as [sort] reads it: a [NaN] result counts as [0]. *)
Definition compare_start (a b : Session.t) : result Z :=
  tb ← start_ms b;
  ta ← start_ms a;
  Ok match tb, ta with
     | Some tb, Some ta => (tb - ta)%Z
     | _, _ => 0%Z
     end.

Fixpoint insert_by {A : Type} (cmp : A → A → result Z) (x : A) (l : list A)
  : result (list A) :=
  match l with
  | [] => Ok [x]
  | y :: l' =>
      c ← cmp x y;
      if (c <=? 0)%Z then Ok (x :: l) else (λ rest, y :: rest) <$> insert_by cmp x l'
  end.

(** [Array.prototype.sort(cmp)]: a stable sort, which throws what [cmp]
    throws.  Whenever [cmp] is a consistent ordering of the elements every
    stable sort returns this list; for any other [cmp] the language leaves
    the order to the implementation, and this is the order insertion gives.
    An array of fewer than two elements is returned without a call of
    [cmp]; in a longer one every element takes part in a call. *)
Definition Array_sort {A : Type} (cmp : A → A → result Z) (l : list A) : result (list A) :=
  foldr (λ x sorted, sorted ← sorted; insert_by cmp x sorted) (Ok []) l.

(** The body of the grouping loop. *)
Definition group_session (grouped : gmap string (list Session.t)) (session : Session.t)
  : result (gmap string (list Session.t)) :=
  let proj := Meta.projectName (Session.meta session) in
  match grouped !! proj with
  | Some group => Ok (<[proj := (group ++ [session])%list]> grouped)
  | None =>
      if is_inherited proj then Throw TypeError
      else Ok (<[proj := [session]]> grouped)
  end.

Definition has_pairs (s : Session.t) : bool :=
  (0 <? length (Session.qaPairs s))%nat.

Definition buildViewModel (allSessions : list Session.t) : result View.t :=
  let withQA := filter (λ s, has_pairs s = true) allSessions in
  let totalSessions := length allSessions in
  let projectSet : gset string :=
    list_to_set ((λ s, Meta.projectName (Session.meta s)) <$> allSessions) in
  let qaSessionCount := length withQA in
  let totalQA := foldl (λ sum s, sum + length (Session.qaPairs s))%nat 0%nat withQA in
  withQA ← Array_sort compare_start withQA;
  grouped ← for_of group_session withQA ∅;
  Ok {| View.totalSessions := totalSessions;
        View.totalProjects := size projectSet;
        View.qaSessionCount := qaSessionCount;
        View.totalQA := totalQA;
        View.grouped := grouped;
        View.sessions := withQA |}.

End Aggregator.

(** ** Further functions of the script *)

(** *** [escapeHTML] *)

(** [s.replace(/c/g, by)] for a pattern of one character. *)
Fixpoint replace_char (c : ascii) (by_ : string) (s : string) : string :=
  match s with
  | "" => ""
  | String d s' =>
      if Ascii.eqb d c then by_ +:+ replace_char c by_ s'
      else String d (replace_char c by_ s')
  end.

(** [String(str)] is [ToString] on the values at hand. *)
Definition escapeHTML (str : value) : result string :=
  if negb (truthy str) then Ok ""
  else
    text ← ToString str;
    Ok (replace_char "'" "&#039;"
          (replace_char "034" "&quot;"
             (replace_char ">" "&gt;"
                (replace_char "<" "&lt;"
                   (replace_char "&" "&amp;" text))))).

(** *** [extractProjectName] *)

(** [s.split(c)] for a separator of one character. *)
Fixpoint split_char (c : ascii) (s : string) : list string :=
  match s with
  | "" => [""]
  | String d s' =>
      if Ascii.eqb d c then "" :: split_char c s'
      else
        match split_char c s' with
        | h :: t => String d h :: t
        | [] => [String d ""]
        end
  end.

(** [l.join(sep)] on strings. *)
Fixpoint join_with (sep : string) (l : list string) : string :=
  match l with
  | [] => ""
  | [s] => s
  | s :: l' => s +:+ sep +:+ join_with sep l'
  end.

(** Lower-case form of a code unit below 256: the letters A to Z and the
    capital letters of the Latin-1 range (192 to 222, the sign 215 apart). *)
Definition lowcase (c : ascii) : ascii :=
  let n := nat_of_ascii c in
  if (65 <=? n) && (n <=? 90) then ascii_of_nat (n + 32)
  else if (192 <=? n) && (n <=? 222) && negb (n =? 215) then ascii_of_nat (n + 32)
  else c.

(** [s.toLowerCase()] *)
Fixpoint toLowerCase (s : string) : string :=
  match s with
  | "" => ""
  | String c s' => String (lowcase c) (toLowerCase s')
  end.

(** [l.findIndex(p)] *)
Fixpoint findIndex {A : Type} (p : A → bool) (l : list A) : Z :=
  match l with
  | [] => (-1)%Z
  | x :: l' =>
      if p x then 0%Z
      else let i := findIndex p l' in if (i =? -1)%Z then (-1)%Z else (i + 1)%Z
  end.

Section ProjectName.

(** The upper-case forms of the two code units below 256 (181 and 255) whose
    upper case is no code unit below 256. *)
Variable upper_beyond : ascii → string.

(** [c.toUpperCase()] for a string of one code unit: the letters a to z, the
    small letters of the Latin-1 range (224 to 254, the sign 247 apart) and
    the sharp s (223), which becomes two letters. *)
Definition toUpperCase1 (c : ascii) : string :=
  let n := nat_of_ascii c in
  if (97 <=? n) && (n <=? 122) then String (ascii_of_nat (n - 32)) ""
  else if n =? 223 then "SS"
  else if (224 <=? n) && (n <=? 254) && negb (n =? 247) then String (ascii_of_nat (n - 32)) ""
  else if (n =? 181) || (n =? 255) then upper_beyond c
  else String c "".

(** [w.charAt(0).toUpperCase() + w.slice(1)] *)
Definition capitalize (w : string) : string :=
  match w with
  | "" => ""
  | String c w' => toUpperCase1 c +:+ w'
  end.

Definition extractProjectName (dirName : string) : string :=
  let parts := filter (λ p, p ≠ "") (split_char "-" dirName) in
  let desktopIdx := findIndex (λ p, String.eqb (toLowerCase p) "desktop") parts in
  let meaningful :=
    if (0 <=? desktopIdx)%Z then drop (Z.to_nat (desktopIdx + 1)) parts else parts in
  if length meaningful =? 0 then dirName
  else join_with " " (capitalize <$> meaningful).

End ProjectName.

(** *** [parseJSONLFile] *)

Section Reader.

(** [JSON.parse], a built-in of the language; [None] where it throws. *)
Variable JSON_parse : string → option value.

(** The body of [parseJSONLFile], from the content read from the file on. *)
Definition parseJSONLFile (content : string) : list value :=
  let lines := filter (λ l, trim l ≠ "") (split_char "010" content) in
  foldl (λ parsed line,
           match JSON_parse line with
           | Some v => parsed ++ [v]
           | None => parsed
           end) [] lines.

End Reader.

(** *** [extractSessionMeta] *)

Module FileInfo.
(** One element of the array [discoverSessionFiles] returns. *)
Record t := mk {
  filePath : string;
  projectDir : string;
  sessionId : string;
}.
End FileInfo.

Module Scan.
(** The four variables of the loop of [extractSessionMeta]. *)
Record t := mk {
  slug : value;
  cwd : value;
  startTime : value;
  firstUserMessage : value;
}.
End Scan.

(** [for (const x of xs) { ...; if (...) break; }]: the body gives the new
    state and whether the loop is left. *)
Fixpoint for_of_break {A St : Type} (body : St → A → result (St * bool)) (xs : list A) (s : St)
  : result St :=
  match xs with
  | [] => Ok s
  | x :: xs' =>
      '(s', stop) ← body s x;
      if (stop : bool) then Ok s' else for_of_break body xs' s'
  end.

(** [if (!current && entry.p) current = entry.p]: the property is read only
    while [current] is falsy. *)
Definition first_truthy (current entry : value) (p : string) : result value :=
  if truthy current then Ok current
  else v ← get entry p; Ok (if truthy v then v else current).

(** [blocks.find(b => b.type === 'text')] *)
Fixpoint find_text (blocks : list value) : result value :=
  match blocks with
  | [] => Ok VUndef
  | b :: blocks' =>
      type ← get b "type";
      if is_str type "text" then Ok b else find_text blocks'
  end.

(** [s.includes(p)] *)
Definition includes (s p : string) : bool :=
  match find_first p s with Some _ => true | None => false end.

(** The candidate for the first user message that a user record gives. *)
Definition candidate_of (entry : value) : result value :=
  msg ← get entry "message";
  content ← get_opt msg "content";
  match content with
  | VStr _ => Ok content
  | VArr blocks =>
      textBlock ← find_text blocks;
      if truthy textBlock then text ← get textBlock "text"; Ok (or_else text (VStr ""))
      else Ok (VStr "")
  | _ => Ok (VStr "")
  end.

(** The test on the candidate; [startsWith] exists on strings only. *)
Definition acceptable (candidate : value) : result bool :=
  if negb (truthy candidate) then Ok false
  else
    match candidate with
    | VStr s =>
        Ok (negb (String.prefix "<command-" s) && negb (String.prefix "<system-" s)
            && negb (includes s "tool_result"))
    | _ => Throw TypeError
    end.

(** The body of the loop over the records. *)
Definition scan_entry (st : Scan.t) (entry : value) : result (Scan.t * bool) :=
  startTime ← first_truthy (Scan.startTime st) entry "timestamp";
  slug ← first_truthy (Scan.slug st) entry "slug";
  cwd ← first_truthy (Scan.cwd st) entry "cwd";
  firstUserMessage ←
    (if truthy (Scan.firstUserMessage st) then Ok (Scan.firstUserMessage st)
     else
       type ← get entry "type";
       if is_str type "user" then
         candidate ← candidate_of entry;
         ok ← acceptable candidate;
         Ok (if (ok : bool) then candidate else Scan.firstUserMessage st)
       else Ok (Scan.firstUserMessage st));
  Ok ({| Scan.slug := slug; Scan.cwd := cwd; Scan.startTime := startTime;
         Scan.firstUserMessage := firstUserMessage |},
      truthy slug && truthy cwd && truthy startTime && truthy firstUserMessage).

Section SessionMeta.

Variable upper_beyond : ascii → string.

Definition extractSessionMeta (parsedLines : list value) (fileInfo : FileInfo.t)
  : result Meta.t :=
  st ← for_of_break scan_entry parsedLines
         {| Scan.slug := VStr ""; Scan.cwd := VStr ""; Scan.startTime := VStr "";
            Scan.firstUserMessage := VStr "" |};
  cleaned ← stripTags (Scan.firstUserMessage st);
  Ok {| Meta.sessionId := FileInfo.sessionId fileInfo;
        Meta.projectDir := FileInfo.projectDir fileInfo;
        Meta.projectName := extractProjectName upper_beyond (FileInfo.projectDir fileInfo);
        Meta.slug := or_else (Scan.slug st) (VStr (slice0 (FileInfo.sessionId fileInfo) 8));
        Meta.cwd := Scan.cwd st;
        Meta.startTime := Scan.startTime st;
        Meta.firstUserMessage := slice0 cleaned 300 |}.

(** *** [main]: one file's session, and the totals it logs *)

(** The body of the [try] block of [main] for one file whose records are
    [parsed]: [None] for a file without records, which is passed over. *)
Definition session_of_file (JSON_stringify : value → string) (parsed : list value)
    (fileInfo : FileInfo.t) : result (option Session.t) :=
  if length parsed =? 0 then Ok None
  else
    meta ← extractSessionMeta parsed fileInfo;
    qaPairs ← extractQAPairs parsed;
    timeline ← buildSessionTimeline JSON_stringify parsed;
    Ok (Some {| Session.meta := meta; Session.qaPairs := qaPairs; Session.timeline := timeline |}).

End SessionMeta.

(** [allSessions.filter(s => s.qaPairs.length > 0).length] *)
Definition main_qaCount (allSessions : list Session.t) : nat :=
  length (filter (λ s, has_pairs s = true) allSessions).

(** [allSessions.reduce((sum, s) => sum + s.qaPairs.length, 0)] *)
Definition main_totalQA (allSessions : list Session.t) : nat :=
  foldl (λ sum s, sum + length (Session.qaPairs s)) 0 allSessions.

(** *** [generateHTML]: the session data written into the page *)

(** [json.replace(/<\//g, '<\\/')], which [generateHTML] applies to the
    serialisation of the sessions before it is written into the [script]
    element. *)
Fixpoint escape_closing (s : string) : string :=
  match s with
  | "" => ""
  | String c s' =>
      match s' with
      | String d s'' =>
          if Ascii.eqb c "<" && Ascii.eqb d "/" then "<\/" +:+ escape_closing s''
          else String c (escape_closing s')
      | "" => String c ""
      end
  end.

(** * Vocabulary of the properties *)

(** ** Reading properties *)

Definition nullish (v : value) : bool :=
  match v with VUndef | VNull => true | _ => false end.

(** [v.p] read as a value: [undefined] where the read would throw. *)
Definition field (v : value) (p : string) : value :=
  match get v p with Ok x => x | Throw _ => VUndef end.

(** A value that the conversion to a string returns on. *)
Definition convertible (v : value) : bool :=
  match ToString v with Ok _ => true | Throw _ => false end.

(** ** Answer Normalizer *)

(** What the fallback text says about the question text [t]. *)
Definition answer_for (contentStr t : string) : option value :=
  let pattern := pattern_text t in
  let idx := indexOf contentStr pattern 0 in
  if (idx =? -1)%Z then None
  else
    let start := (idx + len pattern)%Z in
    Some (VStr (substring contentStr start (answer_end contentStr start))).

(** The answer in the claim's words: what follows the pattern up to the next
    delimiter, else up to the last quotation mark of the text, else to the
    end of the text.  A quotation mark ends the answer only if it does not
    lie before the answer's start. *)
Definition answer_as_claimed (contentStr t : string) : option value :=
  let pattern := pattern_text t in
  let idx := indexOf contentStr pattern 0 in
  if (idx =? -1)%Z then None
  else
    let start := (idx + len pattern)%Z in
    let delim := indexOf contentStr answer_delim start in
    let last_quote := lastIndexOf contentStr dquote in
    Some (VStr (if negb (delim =? -1)%Z then substring contentStr start delim
                else if (start <=? last_quote)%Z then substring contentStr start last_quote
                else substring contentStr start (len contentStr))).

(** [q] is a question whose text, read as a property key, is [k]. *)
Definition asks (q : value) (k : string) : Prop :=
  ∃ qText, get q "question" = Ok qText ∧ ToString qText = Ok k.

(** ** Correlator *)

(** The blocks a pass visits in a record whose [type] is [role]: those of an
    array [message.content]. *)
Definition blocks_of (role : string) (entry : value) : list value :=
  if is_str (field entry "type") role then
    match field (field entry "message") "content" with
    | VArr blocks => blocks
    | _ => []
    end
  else [].

(** A structured-question-request block. *)
Definition is_request (block : value) : bool :=
  is_str (field block "type") "tool_use" && is_str (field block "name") "AskUserQuestion".

(** What pass 1 stores for the request block [block] of record [i]. *)
Definition request_of (i : nat) (entry block : value) : Ask.t :=
  {| Ask.questions := or_else (field (field block "input") "questions") (VArr []);
     Ask.lineIndex := i;
     Ask.timestamp := field entry "timestamp";
     Ask.toolUseId := field block "id" |}.

Definition register (i : nat) (entry : value) (m : gmap key Ask.t) (block : value) : gmap key Ask.t :=
  if is_request block then Map_set (field block "id") (request_of i entry block) m else m.

(** The request a response block answers: the block is a [tool_result], it
    is not flagged as an error and its [tool_use_id] is registered. *)
Definition responds (m : gmap key Ask.t) (block : value) : option Ask.t :=
  if is_str (field block "type") "tool_result" && negb (truthy (field block "is_error"))
  then Map_get (field block "tool_use_id") m
  else None.

Definition make_pair (i : nat) (entry : value) (askData : Ask.t) (answers : value) : Pair.t :=
  {| Pair.questions := Ask.questions askData;
     Pair.answers := answers;
     Pair.askTimestamp := Ask.timestamp askData;
     Pair.answerTimestamp := field entry "timestamp";
     Pair.askLineIndex := Ask.lineIndex askData;
     Pair.answerLineIndex := i;
     Pair.toolUseId := Ask.toolUseId askData |}.

(** [ask] is what pass 1 stores under [k] for some request block of [lines]. *)
Definition registered_from (lines : list value) (k : key) (ask : Ask.t) : Prop :=
  ∃ i entry block,
    lines !! i = Some entry ∧ block ∈ blocks_of "assistant" entry ∧
    is_request block = true ∧ map_key (field block "id") = Some k ∧
    ask = request_of i entry block.

(** The request block [block] of record [i] is the only one with key [k]. *)
Definition only_request (lines : list value) (k : key) (i : nat) (block : value) : Prop :=
  ∀ i' entry' block',
    lines !! i' = Some entry' → block' ∈ blocks_of "assistant" entry' →
    is_request block' = true → map_key (field block' "id") = Some k →
    i' = i ∧ block' = block.

(** [p] is the pair pass 2 builds for the block [block] of record [i]. *)
Definition pair_of (m : gmap key Ask.t) (i : nat) (entry block : value) (p : Pair.t) : Prop :=
  ∃ askData answers,
    responds m block = Some askData ∧
    resolve_answers entry block askData = Ok answers ∧
    p = make_pair i entry askData answers.

(** The response blocks of [lines] that answer a registered request and are
    not flagged as errors, each with its record and the record's position,
    in the order of the input. *)
Fixpoint responses (m : gmap key Ask.t) (i : nat) (lines : list value)
  : list (nat * value * value) :=
  match lines with
  | [] => []
  | entry :: rest =>
      ((λ block, (i, entry, block)) <$>
         filter (λ block, is_Some (responds m block)) (blocks_of "user" entry))
      ++ responses m (S i) rest
  end%list.

Definition pair_of_response (m : gmap key Ask.t) (r : nat * value * value) (p : Pair.t) : Prop :=
  pair_of m r.1.1 r.1.2 r.2 p.

(** A question list the fallback parser can walk: an array without [null],
    each question with a text that converts to a string. *)
Definition questions_ok (questions : value) : bool :=
  match questions with
  | VArr qs => forallb (λ q, negb (nullish q) && convertible (field q "question")) qs
  | _ => false
  end.

(** A record as the Correlator expects it: it is not [null], the blocks of
    its content array are not [null], and a request block carries a question
    list that the fallback parser can walk (or none). *)
Definition correlator_shaped (entry : value) : bool :=
  negb (nullish entry)
  && forallb (λ block,
       negb (nullish block)
       && (negb (is_request block) || questions_ok (Ask.questions (request_of 0 entry block))))
       (blocks_of "assistant" entry)
  && forallb (λ block, negb (nullish block)) (blocks_of "user" entry).

(** A response block for the request key [k] that is not flagged as an error. *)
Definition answers_key (k : key) (block : value) : bool :=
  is_str (field block "type") "tool_result"
  && negb (truthy (field block "is_error"))
  && bool_decide (map_key (field block "tool_use_id") = Some k).

(** The record [entry] without its [timestamp]. *)
Definition without_timestamp (entry : value) : value :=
  match entry with
  | VObj fields => VObj (delete "timestamp" fields)
  | _ => entry
  end.

(** A stored request, and a pair, with the timestamps left undefined. *)
Definition untimed_ask (ask : Ask.t) : Ask.t :=
  {| Ask.questions := Ask.questions ask;
     Ask.lineIndex := Ask.lineIndex ask;
     Ask.timestamp := VUndef;
     Ask.toolUseId := Ask.toolUseId ask |}.

Definition untimed (p : Pair.t) : Pair.t :=
  {| Pair.questions := Pair.questions p;
     Pair.answers := Pair.answers p;
     Pair.askTimestamp := VUndef;
     Pair.answerTimestamp := VUndef;
     Pair.askLineIndex := Pair.askLineIndex p;
     Pair.answerLineIndex := Pair.answerLineIndex p;
     Pair.toolUseId := Pair.toolUseId p |}.

Definition untimed_map (m : gmap key Ask.t) : gmap key Ask.t := untimed_ask <$> m.
Definition untimed_pairs (pairs : list Pair.t) : list Pair.t := untimed <$> pairs.

(** ** Timeline Builder *)

Fixpoint all_white (s : string) : bool :=
  match s with
  | "" => true
  | String c s' => is_white c && all_white s'
  end.

(** What the entries a record contributes have in common. *)
Definition from_record (i : nat) (entry : value) (e : timelineEntry) : Prop :=
  lineIndex e = i ∧ timestamp e = field entry "timestamp".

(** A record the Timeline Builder looks into. *)
Definition eligible (entry : value) : bool :=
  truthy (field entry "message") && truthy (field entry "timestamp")
  && negb (is_str (field entry "type") "file-history-snapshot").

(** The text of a string, tags removed and trimmed. *)
Definition cleaned_of (s : string) : string := trim (remove_tags false s).

(** What a user record whose content is one string contributes. *)
Definition user_string (i : nat) (entry : value) : list timelineEntry :=
  if is_str (field entry "type") "user" then
    match field (field entry "message") "content" with
    | VStr s =>
        if 3 <=? String.length (cleaned_of s)
        then [user_text (field entry "timestamp") (cleaned_of s) i]
        else []
    | _ => []
    end
  else [].

(** A block the Timeline Builder passes over in the record [entry], as its
    tests have it: internal reasoning, or a tool result of a record that
    carries no [toolUseResult]. *)
Definition is_noise (entry block : value) : bool :=
  is_str (field block "type") "thinking"
  || (is_str (field block "type") "tool_result" && negb (truthy (field entry "toolUseResult"))).

(** The text a field holds, when it is a string that is not empty. *)
Definition text_of (v : value) : option string :=
  match v with
  | VStr s => if String.eqb s "" then None else Some s
  | _ => None
  end.

(** A field that holds a string or nothing to show. *)
Definition textual (v : value) : bool :=
  match v with
  | VStr _ => true
  | _ => negb (truthy v)
  end.

(** The argument fields a summary is taken from, in the order they are
    tried, each with what is shown for its text. *)
Definition summary_fields : list (string * (string → string)) :=
  [ ("command", λ s, slice0 s 120);
    ("file_path", λ s, s);
    ("pattern", λ s, "pattern: " +:+ s);
    ("query", λ s, slice0 s 120);
    ("url", λ s, s);
    ("content", λ s, slice0 s 120) ].

Fixpoint first_nonempty (input : value) (fields : list (string * (string → string)))
  : option string :=
  match fields with
  | [] => None
  | (name, shown) :: rest =>
      match text_of (field input name) with
      | Some s => Some (shown s)
      | None => first_nonempty input rest
      end
  end.

(** A narrative-turn entry, and a tool-call entry. *)
Definition is_narrative (e : timelineEntry) : bool :=
  match e with
  | assistant_text _ _ _ | user_text _ _ _ => true
  | _ => false
  end.

Definition is_tool_entry (e : timelineEntry) : bool :=
  match e with
  | tool_use _ _ _ _ => true
  | _ => false
  end.

(** A tool-invocation block other than the structured-question kind. *)
Definition is_tool_call (block : value) : bool :=
  is_str (field block "type") "tool_use" && negb (is_str (field block "name") "AskUserQuestion").

(** The narrative turn of a block of record [i]: a text block whose text is
    a string gives one entry with the cleaned text, unless that is shorter
    than 3 or [skip] holds of it; any other block gives none. *)
Definition text_entry (make : value → string → nat → timelineEntry) (skip : string → bool)
    (i : nat) (entry block : value) : list timelineEntry :=
  if is_str (field block "type") "text" then
    match field block "text" with
    | VStr s =>
        if (3 <=? String.length (cleaned_of s)) && negb (skip (cleaned_of s))
        then [make (field entry "timestamp") (cleaned_of s) i]
        else []
    | _ => []
    end
  else [].

(** In an assistant record no text is taken for boilerplate; in a user
    record a text that starts with a boilerplate prefix is. *)
Definition assistant_narrative : nat → value → value → list timelineEntry :=
  text_entry assistant_text (λ _, false).

Definition user_narrative : nat → value → value → list timelineEntry :=
  text_entry user_text is_boilerplate.

Section TimelineVocabulary.

Variable JSON_stringify : value → string.

(** Where the entry [e] of record [i] comes from: one block of an assistant
    record, one block of a user record, or a user record's string content. *)
Definition derived_from (i : nat) (entry : value) (e : timelineEntry) : Prop :=
  (∃ block, block ∈ blocks_of "assistant" entry ∧
            assistant_block JSON_stringify i entry [] block = Ok [e])
  ∨ (∃ block, block ∈ blocks_of "user" entry ∧ user_block i entry [] block = Ok [e])
  ∨ e ∈ user_string i entry.

(** The summary in the specification's words: the first field that is not
    empty wins, else the serialization of the arguments, cut to 120. *)
Definition summary_by_priority (input : value) : string :=
  default (slice0 (JSON_stringify input) 120) (first_nonempty input summary_fields).

End TimelineVocabulary.

(** ** Session Aggregator *)

Definition project_of (s : Session.t) : string := Meta.projectName (Session.meta s).

(** The sessions of a project, in the order of [l]; no group when there is
    none. *)
Definition group_of (proj : string) (l : list Session.t) : option (list Session.t) :=
  match filter (λ s, project_of s = proj) l with
  | [] => None
  | group => Some group
  end.

(** [new Date] accepts the start time of [s]: it converts to a primitive. *)
Definition start_ok (s : Session.t) : bool := convertible (Meta.startTime (Session.meta s)).

Section AggregatorVocabulary.

Variable Date_getTime : value → option Z.

(** The start time of [s] is a valid date. *)
Definition dated (s : Session.t) : Prop := ∃ t, start_ms Date_getTime s = Ok (Some t).

(** [a] starts no earlier than [b], both start times being valid dates. *)
Definition starts_no_earlier (a b : Session.t) : Prop :=
  ∃ ta tb, start_ms Date_getTime a = Ok (Some ta) ∧ start_ms Date_getTime b = Ok (Some tb)
           ∧ (tb ≤ ta)%Z.

End AggregatorVocabulary.

(** ** Sample inputs *)

(** The two fallback texts of the specification's examples. *)
Definition color_size_text : string :=
  quoted "Color?" +:+ "=" +:+ quoted "blue" +:+ ", " +:+ quoted "Size?" +:+ "=" +:+ quoted "large".

Definition color_text : string := quoted "Color?" +:+ "=" +:+ quoted "blue and green".

(** A fallback text whose only answer is empty, alone and in the sentence a
    response block holds. *)
Definition empty_answer_text : string := quoted "Color?" +:+ "=" +:+ quoted "".

Definition empty_answer_sentence : string :=
  "User has answered your questions: " +:+ empty_answer_text +:+ ". You can now continue.".

(** Records with a response to an unknown id and an error-flagged response
    to a known one. *)
Definition unanswered_lines : list value :=
  [ record "assistant" (VStr "2025-01-01T10:00:00.000Z")
      (VArr [ask_block "X" [question "Proceed?"]]) [];
    record "user" (VStr "2025-01-01T10:01:00.000Z")
      (VArr [result_block "Z" (VStr "stray") []]) [];
    record "user" (VStr "2025-01-01T10:02:00.000Z")
      (VArr [result_block "X" (VStr "declined") [("is_error", VBool true)]]) [] ].

(** Any function can stand for [JSON.stringify] on inputs that never reach it. *)
Definition no_serializer : value → string := λ _, "".

Definition text_block (text : string) : value :=
  obj [("type", VStr "text"); ("text", VStr text)].

(** A request and its answer in records that carry no timestamp. *)
Definition undated_lines : list value :=
  [ obj [("type", VStr "assistant");
         ("message", obj [("content", VArr [ask_block "X" [question "Proceed?"]])])];
    obj [("type", VStr "user");
         ("message", obj [("content", VArr [result_block "X" (VStr "ignored") []])]);
         ("toolUseResult", obj [("answers", obj [("Proceed?", VStr "Yes")])])] ].

(** Records with noise around one narrative turn. *)
Definition noisy_lines : list value :=
  [ record "assistant" (VStr "2025-01-01T10:00:00.000Z")
      (VArr [obj [("type", VStr "thinking"); ("thinking", VStr "Let me see.")];
             text_block "Hello there"]) [];
    record "user" (VStr "2025-01-01T10:00:09.000Z")
      (VArr [result_block "bash-1" (VStr "total 0") []]) [];
    obj [("type", VStr "user"); ("message", obj [("content", VStr "An undated remark")])] ].

(** A shell command and its result, as a transcript records them: the
    record of the result carries the output in [toolUseResult]. *)
Definition bash_lines : list value :=
  [ record "assistant" (VStr "2025-01-01T10:00:00.000Z")
      (VArr [obj [("type", VStr "tool_use"); ("name", VStr "Bash"); ("id", VStr "bash-1");
                  ("input", obj [("command", VStr "ls")])]]) [];
    record "user" (VStr "2025-01-01T10:00:02.000Z")
      (VArr [result_block "bash-1" (VStr "total 0") []])
      [("toolUseResult", obj [("stdout", VStr "total 0"); ("stderr", VStr "")])] ].

Definition long_path : string :=
  "/Users/dev/Desktop/ticket-summarizer/packages/backend/src/services/notifications/templates/email/weekly-digest-with-a-long-name.handlebars".

Definition read_block : value :=
  obj [("type", VStr "tool_use"); ("name", VStr "Read"); ("id", VStr "toolu_01");
       ("input", obj [("file_path", VStr long_path)])].

Definition read_record : value :=
  record "assistant" (VStr "2025-01-01T10:00:00.000Z") (VArr [read_block]) [].

Definition today_record (role : string) : value :=
  record role (VStr "2025-01-01T10:00:00.000Z") (VArr [text_block "Today I fixed the parser."]) [].

(** The time values of the dates used below; [new Date('')] is invalid. *)
Definition sample_time (v : value) : option Z :=
  match v with
  | VStr s =>
      if String.eqb s "2025-01-01T00:00:00.000Z" then Some 1735689600000%Z
      else if String.eqb s "2025-01-02T00:00:00.000Z" then Some 1735776000000%Z
      else None
  | _ => None
  end.

Definition sample_session (id project : string) (startTime : string) (qaPairs : list Pair.t)
  : Session.t :=
  {| Session.meta :=
       {| Meta.sessionId := id; Meta.projectDir := "-Users-dev-Desktop-" +:+ project;
          Meta.projectName := project; Meta.slug := VStr id; Meta.cwd := VStr "";
          Meta.startTime := VStr startTime; Meta.firstUserMessage := "" |};
     Session.qaPairs := qaPairs;
     Session.timeline := [] |}.

Definition one_pair : list Pair.t :=
  [ Pair.mk (VArr [question "Proceed?"]) (obj [("Proceed?", VStr "Yes")])
      VUndef VUndef 0 1 (VStr "X") ].

Definition older : Session.t := sample_session "a" "Viewer" "2025-01-01T00:00:00.000Z" one_pair.
Definition undated : Session.t := sample_session "b" "Viewer" "" one_pair.
Definition newer : Session.t := sample_session "c" "Viewer" "2025-01-02T00:00:00.000Z" one_pair.
Definition silent : Session.t := sample_session "d" "Notes" "2025-01-02T00:00:00.000Z" [].

(** A session of a project directory named [__proto__]. *)
Definition proto_session : Session.t :=
  sample_session "e" "__proto__" "2025-01-02T00:00:00.000Z" one_pair.

(** ** Escaping and cleaning *)

(** What one character becomes in escaped text. *)
Definition escape_char (c : ascii) : string :=
  if Ascii.eqb c "&" then "&amp;"
  else if Ascii.eqb c "<" then "&lt;"
  else if Ascii.eqb c ">" then "&gt;"
  else if Ascii.eqb c "034" then "&quot;"
  else if Ascii.eqb c "'" then "&#039;"
  else String c "".

(** Every character replaced on its own, in one pass. *)
Fixpoint escape_each (s : string) : string :=
  match s with
  | "" => ""
  | String c s' => escape_char c +:+ escape_each s'
  end.

(** The characters that open or close markup or an attribute value. *)
Definition is_markup (c : ascii) : bool :=
  Ascii.eqb c "<" || Ascii.eqb c ">" || Ascii.eqb c "034" || Ascii.eqb c "'".

Fixpoint has_char (p : ascii → bool) (s : string) : bool :=
  match s with
  | "" => false
  | String c s' => p c || has_char p s'
  end.

(** The code units of a string. *)
Definition chars (s : string) : list ascii := String.list_ascii_of_string s.

(** No place of [s] starts a match of the tag pattern. *)
Fixpoint tagless (s : string) : bool :=
  match s with
  | "" => true
  | String c s' =>
      negb (is_lt c &&
            match s' with
            | "" => false
            | String d s'' => negb (is_gt d) && has_gt s''
            end)
      && tagless s'
  end.

(** ** Project labels and record files *)

(** The non-empty segments of a directory name. *)
Definition segments (s : string) : list string :=
  filter (λ p, p ≠ "") (split_char "-" s).

Definition is_dash (c : ascii) : bool := Ascii.eqb c "-".
Definition is_newline (c : ascii) : bool := Ascii.eqb c "010".

(** A stand-in for the upper-case forms beyond the code units below 256; the
    examples hold no letter that asks for one. *)
Definition no_upper_beyond (c : ascii) : string := String c "".

(** A stand-in for [JSON.parse] on the three texts of the examples: an empty
    object, the number 1, and a text that is no JSON. *)
Definition sample_parse (line : string) : option value :=
  if String.eqb line "{}" then Some (VObj ∅)
  else if String.eqb line "1" then Some (VNum "1")
  else None.

(** ** Session metadata *)

(** The first truthy value that [pick] finds among the records, in their
    order; the empty string when there is none. *)
Fixpoint first_by (pick : value → value) (lines : list value) : value :=
  match lines with
  | [] => VStr ""
  | entry :: lines' => if truthy (pick entry) then pick entry else first_by pick lines'
  end.

(** One step of a variable that takes the first truthy value offered. *)
Definition keep_first (cur offered : value) : value :=
  if truthy cur then cur else if truthy offered then offered else cur.

(** The message that a record offers as the first user message: the
    candidate of a user record when the test accepts it, else nothing. *)
Definition message_of (entry : value) : value :=
  if is_str (field entry "type") "user" then
    match candidate_of entry with
    | Ok candidate =>
        match acceptable candidate with
        | Ok true => candidate
        | _ => VStr ""
        end
    | Throw _ => VStr ""
    end
  else VStr "".

Definition sample_file : FileInfo.t :=
  {| FileInfo.filePath := "/home/u/.claude/projects/-Users-u-Desktop-viewer/0123456789ab.jsonl";
     FileInfo.projectDir := "-Users-u-Desktop-viewer";
     FileInfo.sessionId := "0123456789ab" |}.

(** A session that opens with a record without timestamp and a command
    message, before the first message of the user. *)
Definition meta_lines : list value :=
  [ obj [("type", VStr "summary"); ("cwd", VStr "/home/u/viewer")];
    record "user" (VStr "2025-01-01T10:00:00.000Z") (VStr "<command-name>/clear</command-name>") [];
    record "user" (VStr "2025-01-01T10:00:07.000Z") (VStr "Fix the <b>build</b>") [] ].

(** ** Requests that share an id *)

(** The requests of one record, each with the key of its id, in the order of
    the blocks; a request whose id is an array or an object has no key. *)
Definition requests_of (i : nat) (entry : value) : list (key * Ask.t) :=
  omap (λ block,
          if is_request block
          then (λ k, (k, request_of i entry block)) <$> map_key (field block "id")
          else None)
       (blocks_of "assistant" entry).

(** The requests of the records, in the order of the file. *)
Fixpoint requests (i : nat) (lines : list value) : list (key * Ask.t) :=
  match lines with
  | [] => []
  | entry :: rest => requests_of i entry ++ requests (S i) rest
  end.

(** The last request made under the key [k]. *)
Definition last_request (k : key) (reqs : list (key * Ask.t)) : option Ask.t :=
  snd <$> last (filter (λ r, r.1 = k) reqs).

(** The request side of a pair. *)
Definition ask_of (p : Pair.t) : Ask.t :=
  {| Ask.questions := Pair.questions p;
     Ask.lineIndex := Pair.askLineIndex p;
     Ask.timestamp := Pair.askTimestamp p;
     Ask.toolUseId := Pair.toolUseId p |}.

(** An id used twice: the answer comes between the two requests. *)
Definition reused_id_lines : list value :=
  [ record "assistant" (VStr "2025-01-01T10:00:00.000Z")
      (VArr [ask_block "X" [question "Proceed?"]]) [];
    record "user" (VStr "2025-01-01T10:01:00.000Z")
      (VArr [result_block "X" (VStr "ignored") []])
      [("toolUseResult", obj [("answers", obj [("Proceed?", VStr "Yes")])])];
    record "assistant" (VStr "2025-01-01T10:02:00.000Z")
      (VArr [ask_block "X" [question "Color?"]]) [] ].

(** ** Records of the expected shape *)

(** A [text] property the Timeline Builder can trim: a string, or nothing. *)
Definition text_ok (v : value) : bool :=
  match v with VUndef | VNull | VStr _ => true | _ => false end.

(** A value the tool summary can cut: a string or an array, or a falsy value,
    which is passed over. *)
Definition sliceable (v : value) : bool :=
  match v with VStr _ | VArr _ => true | _ => negb (truthy v) end.

(** Arguments the tool summary can show: none, or a command, a query and a
    content that can be cut and a search pattern that converts to a string. *)
Definition summary_ok (block : value) : bool :=
  let input := field block "input" in
  negb (truthy input)
  || (sliceable (field input "command") && convertible (field input "pattern")
      && sliceable (field input "query") && sliceable (field input "content")).

Definition assistant_ok (block : value) : bool :=
  negb (nullish block)
  && (negb (is_str (field block "type") "text") || text_ok (field block "text"))
  && (negb (is_str (field block "type") "tool_use")
      || is_str (field block "name") "AskUserQuestion" || summary_ok block).

Definition user_ok (block : value) : bool :=
  negb (nullish block)
  && (negb (is_str (field block "type") "text") || text_ok (field block "text")).

(** A record as the Timeline Builder and the metadata scan expect it. *)
Definition timeline_shaped (entry : value) : bool :=
  negb (nullish entry)
  && forallb assistant_ok (blocks_of "assistant" entry)
  && forallb user_ok (blocks_of "user" entry).

(** A record that none of the three extraction functions fails on. *)
Definition record_shaped (entry : value) : bool :=
  correlator_shaped entry && timeline_shaped entry.

(** ** Directory names that give ordinary labels *)

(** A segment that does not start with an underscore, nor with one of the
    two letters whose upper case lies beyond the code units below 256. *)
Definition plain_segment (w : string) : bool :=
  match w with
  | "" => true
  | String c _ =>
      negb (Ascii.eqb c "_") && negb (nat_of_ascii c =? 181) && negb (nat_of_ascii c =? 255)
  end.

Definition plain_name (dirName : string) : bool := forallb plain_segment (segments dirName).

Definition is_space (c : ascii) : bool := Ascii.eqb c " ".

(** * Properties *)

(** An empty last answer: its closing quotation mark is the last one of the
    text and sits at the start of the answer, so the end-of-text tier applies
    and the answer is that quotation mark. *)
Example empty_last_answer :
  parseAnswersFromContent (VStr (quoted "Color?" +:+ "=" +:+ quoted "")) (VArr [question "Color?"])
  = Ok (VObj {[ "Color?" := VStr dquote ]}).
Proof. vm_compute. reflexivity. Qed.

Example sample_pairs :
  extractQAPairs sample_lines =
  Ok [ Pair.mk (VArr [question "Color?"]) (obj [("Color?", VStr "blue")])
         (VStr "2025-01-01T10:00:05.000Z") (VStr "2025-01-01T10:01:00.000Z") 1 2 (VStr "Y");
       Pair.mk (VArr [question "Proceed?"]) (obj [("Proceed?", VStr "Yes")])
         (VStr "2025-01-01T10:00:00.000Z") (VStr "2025-01-01T10:02:00.000Z") 0 3 (VStr "X") ].
Proof. vm_compute. reflexivity. Qed.

(** ** The error monad and the loops *)

Lemma bind_Ok {A B} (r : result A) (k : A → result B) (b : B) :
  r ≫= k = Ok b ↔ ∃ a, r = Ok a ∧ k a = Ok b.
Proof.
  destruct r as [a|e]; simpl; split.
  - eauto.
  - by intros (a' & [= <-] & ?).
  - done.
  - by intros (? & ? & ?).
Qed.

Lemma for_of_app {A St} (body : St → A → result St) (xs ys : list A) (s : St) :
  for_of body (xs ++ ys)%list s = for_of body xs s ≫= for_of body ys.
Proof.
  revert s. induction xs as [|x xs IH]; intros s; simpl; [done|].
  destruct (body s x) as [s'|e]; simpl; [apply IH | done].
Qed.

Lemma for_index_app {A St} (body : nat → A → St → result St) (i : nat) (xs ys : list A) (s : St) :
  for_index body i (xs ++ ys)%list s
  = for_index body i xs s ≫= for_index body (i + length xs) ys.
Proof.
  revert i s. induction xs as [|x xs IH]; intros i s; simpl.
  - by rewrite Nat.add_0_r.
  - destruct (body i x s) as [s'|e]; simpl; [|done].
    rewrite IH. by replace (S i + length xs) with (i + S (length xs)) by lia.
Qed.

(** A loop whose body keeps an invariant keeps it. *)
Lemma for_of_invariant {A St} (P : St → Prop) (body : St → A → result St) (xs : list A) :
  (∀ s x s', x ∈ xs → P s → body s x = Ok s' → P s') →
  ∀ s s', P s → for_of body xs s = Ok s' → P s'.
Proof.
  induction xs as [|x xs IH]; intros Hbody s s' Hs; simpl.
  - by intros [= <-].
  - intros (s1 & H1 & H2)%bind_Ok.
    eapply IH; [| |exact H2].
    + intros ???? ; apply Hbody. by right.
    + eapply Hbody; [by left|exact Hs|exact H1].
Qed.

Lemma for_index_invariant {A St} (P : St → Prop) (body : nat → A → St → result St)
    (xs : list A) (i0 : nat) :
  (∀ k x s s', xs !! k = Some x → P s → body (i0 + k) x s = Ok s' → P s') →
  ∀ s s', P s → for_index body i0 xs s = Ok s' → P s'.
Proof.
  revert i0. induction xs as [|x xs IH]; intros i0 Hbody s s' Hs; simpl.
  - by intros [= <-].
  - intros (s1 & H1 & H2)%bind_Ok.
    eapply (IH (S i0)); [| |exact H2].
    + intros k y t t' Hk Ht. replace (S i0 + k) with (i0 + S k) by lia.
      by apply Hbody.
    + eapply (Hbody 0); [done|exact Hs|]. by rewrite Nat.add_0_r.
Qed.

(** A loop whose body cannot throw does not throw. *)
Lemma for_of_total {A St} (body : St → A → result St) (xs : list A) :
  (∀ s x, x ∈ xs → ∃ s', body s x = Ok s') →
  ∀ s, ∃ s', for_of body xs s = Ok s'.
Proof.
  induction xs as [|x xs IH]; intros Hbody s; simpl; [eauto|].
  destruct (Hbody s x) as [s1 ->]; [by left|]. simpl.
  apply IH. intros ???; apply Hbody. by right.
Qed.

Lemma for_index_total {A St} (body : nat → A → St → result St) (xs : list A) :
  (∀ i x s, x ∈ xs → ∃ s', body i x s = Ok s') →
  ∀ i s, ∃ s', for_index body i xs s = Ok s'.
Proof.
  induction xs as [|x xs IH]; intros Hbody i s; simpl; [eauto|].
  destruct (Hbody i x s) as [s1 ->]; [by left|]. simpl.
  apply IH. intros ????; apply Hbody. by right.
Qed.

(** ** Reading properties *)

Lemma get_total v p : nullish v = false → ∃ x, get v p = Ok x.
Proof. destruct v; simpl; eauto; done. Qed.

Lemma truthy_not_nullish v : truthy v = true → nullish v = false.
Proof. by destruct v. Qed.

Lemma get_field v p : nullish v = false → get v p = Ok (field v p).
Proof. unfold field. destruct v; simpl; congruence. Qed.

Lemma get_Ok_field v p x : get v p = Ok x → nullish v = false ∧ x = field v p.
Proof. unfold field. intros H. rewrite H. split; [|done]. by destruct v. Qed.

Lemma get_opt_field v p : get_opt v p = Ok (field v p).
Proof. unfold field. by destruct v. Qed.

(** Replace the property reads of receivers known not to be nullish. *)
Ltac read_fields :=
  simpl;
  repeat (first
            [ rewrite get_opt_field
            | match goal with
              | H : nullish ?v = false |- _ => rewrite (get_field v) by exact H
              end ];
          simpl).

Lemma convertible_Ok v : convertible v = true → ∃ t, ToString v = Ok t.
Proof. unfold convertible. destruct (ToString v); [eauto|done]. Qed.

Lemma ToString_convertible v t : ToString v = Ok t → convertible v = true.
Proof. unfold convertible. by intros ->. Qed.

(** ** Answer Normalizer *)

Lemma parse_question_answer_for contentStr answers q qText t :
  get q "question" = Ok qText → ToString qText = Ok t →
  parse_question contentStr answers q =
  Ok (match answer_for contentStr t with
      | Some v => obj_set t v answers
      | None => answers
      end).
Proof.
  intros Hq Ht. unfold parse_question, answer_for, answer_pattern. rewrite Hq. simpl.
  rewrite Ht. simpl. by destruct (_ =? _)%Z.
Qed.

(** The loop body returns only on a question whose text converts. *)
Lemma parse_question_Ok contentStr answers q answers' :
  parse_question contentStr answers q = Ok answers' →
  ∃ qText t, get q "question" = Ok qText ∧ ToString qText = Ok t.
Proof.
  unfold parse_question, answer_pattern. intros (qText & Hq & H)%bind_Ok.
  apply bind_Ok in H as (pattern & Hp & _).
  destruct (ToString qText) as [t|] eqn:Ht; [|done]. by exists qText, t.
Qed.

Lemma parse_question_total contentStr answers q :
  nullish q = false → convertible (field q "question") = true →
  ∃ answers', parse_question contentStr answers q = Ok answers'.
Proof.
  intros Hq [t Ht]%convertible_Ok.
  rewrite (parse_question_answer_for _ _ _ _ t (get_field _ _ Hq) Ht). eauto.
Qed.

(** After the loop a key holds what it held before, or the answer the text
    gives for a question of the list. *)
Lemma parse_loop_lookup contentStr qs : ∀ answers answers' k,
  for_of (parse_question contentStr) qs answers = Ok answers' →
  answers' !! k = answers !! k ∨
  (k ≠ "__proto__" ∧ (∃ q, q ∈ qs ∧ asks q k) ∧
   is_Some (answers' !! k) ∧ answers' !! k = answer_for contentStr k).
Proof.
  induction qs as [|q qs IH]; intros answers answers' k; simpl.
  - intros [= <-]. by left.
  - intros (a1 & Hq & Hrest)%bind_Ok.
    destruct (IH _ _ k Hrest) as [Hsame|(Hk & (q' & Hin & Hq') & Hsome & Hans)].
    2: { right. split_and!; [done| |done|done]. exists q'. split; [by right|done]. }
    rewrite Hsame. clear Hrest Hsame IH.
    destruct (parse_question_Ok _ _ _ _ Hq) as (qText & t & HqText & Ht).
    rewrite (parse_question_answer_for _ _ _ _ _ HqText Ht) in Hq. injection Hq as <-.
    destruct (answer_for contentStr t) as [v|] eqn:Hv; [|by left].
    unfold obj_set.
    destruct (String.eqb_spec t "__proto__") as [Hp|Hp]; [by left|].
    destruct (decide (t = k)) as [<-|Hne].
    + right. rewrite lookup_insert_eq. split_and!; [done| |done|done].
      exists q. split; [by left|]. by exists qText.
    + left. by rewrite lookup_insert_ne.
Qed.

Lemma parse_loop_total contentStr qs :
  Forall (λ q, nullish q = false ∧ convertible (field q "question") = true) qs →
  ∀ answers, ∃ answers', for_of (parse_question contentStr) qs answers = Ok answers'.
Proof.
  intros Hqs. apply for_of_total. intros s q Hq.
  eapply Forall_forall in Hqs as [? ?]; [|exact Hq]. by apply parse_question_total.
Qed.

(** A question of the list gets the answer the text gives for it. *)
Lemma parse_loop_asked contentStr qs q k answers' :
  q ∈ qs → asks q k → k ≠ "__proto__" →
  for_of (parse_question contentStr) qs ∅ = Ok answers' →
  answers' !! k = answer_for contentStr k.
Proof.
  intros Hin [qText [HqText Hk]] Hproto Hloop.
  destruct (answer_for contentStr k) as [v|] eqn:Hv.
  - apply list_elem_of_split in Hin as (l1 & l2 & ->).
    rewrite for_of_app in Hloop. apply bind_Ok in Hloop as (a1 & _ & Hloop).
    simpl in Hloop. apply bind_Ok in Hloop as (a2 & Hq & Hloop).
    rewrite (parse_question_answer_for _ _ _ _ _ HqText Hk), Hv in Hq.
    injection Hq as <-.
    destruct (parse_loop_lookup _ _ _ _ k Hloop) as [->|(_ & _ & _ & ->)]; [|done].
    unfold obj_set.
    destruct (String.eqb_spec k "__proto__"); [done|]. by rewrite lookup_insert_eq.
  - destruct (parse_loop_lookup _ _ _ _ k Hloop) as [->|(_ & _ & [x Hx] & Heq)]; [done|].
    congruence.
Qed.

Lemma parse_loop_size contentStr qs : ∀ answers answers',
  for_of (parse_question contentStr) qs answers = Ok answers' →
  (size answers' ≤ size answers + length qs)%nat.
Proof.
  induction qs as [|q qs IH]; intros answers answers'; simpl.
  - intros [= <-]. lia.
  - intros (a1 & Hq & Hrest)%bind_Ok. apply IH in Hrest.
    enough (size a1 ≤ S (size answers))%nat by lia. clear Hrest IH.
    destruct (parse_question_Ok _ _ _ _ Hq) as (qText & t & HqText & Ht).
    rewrite (parse_question_answer_for _ _ _ _ _ HqText Ht) in Hq. injection Hq as <-.
    destruct (answer_for contentStr t); [|lia]. unfold obj_set.
    destruct (String.eqb _ _); [lia|].
    rewrite map_size_insert. destruct (answers !! _); simpl; lia.
Qed.

Lemma parseAnswersFromContent_string contentStr qs :
  Forall (λ q, nullish q = false ∧ convertible (field q "question") = true) qs →
  ∃ answers,
    parseAnswersFromContent (VStr contentStr) (VArr qs) = Ok (VObj answers) ∧
    for_of (parse_question contentStr) qs ∅ = Ok answers.
Proof.
  intros Hqs. destruct (parse_loop_total contentStr qs Hqs ∅) as [answers Hloop].
  exists answers. split; [|done]. unfold parseAnswersFromContent. simpl.
  by rewrite Hloop.
Qed.

(** What a returned fallback parse of a string was computed from. *)
Lemma parseAnswersFromContent_Ok contentStr questions result :
  parseAnswersFromContent (VStr contentStr) questions = Ok result →
  ∃ qs answers,
    iterate questions = Ok qs ∧ result = VObj answers ∧
    for_of (parse_question contentStr) qs ∅ = Ok answers.
Proof.
  unfold parseAnswersFromContent. intros (qs & Hqs & H)%bind_Ok.
  apply bind_Ok in H as (answers & Hloop & [= <-]). by exists qs, answers.
Qed.

(** The two rules give the same answer unless the answer is empty and closed
    by the last quotation mark of the text. *)
Lemma answer_for_as_claimed contentStr t :
  let start := (indexOf contentStr (pattern_text t) 0 + len (pattern_text t))%Z in
  indexOf contentStr answer_delim start ≠ (-1)%Z ∨ lastIndexOf contentStr dquote ≠ start →
  answer_for contentStr t = answer_as_claimed contentStr t.
Proof.
  simpl. unfold answer_for, answer_as_claimed, answer_end. intros Hcase.
  destruct (indexOf contentStr (pattern_text t) 0 =? -1)%Z; [done|]. do 2 f_equal.
  destruct (Z.eqb_spec (indexOf contentStr answer_delim
                          (indexOf contentStr (pattern_text t) 0 + len (pattern_text t))) (-1))
    as [Hd|Hd]; simpl; [|done].
  destruct Hcase as [?|Hlast]; [done|].
  destruct (Z.leb_spec (lastIndexOf contentStr dquote)
              (indexOf contentStr (pattern_text t) 0 + len (pattern_text t)));
    destruct (Z.leb_spec (indexOf contentStr (pattern_text t) 0 + len (pattern_text t))
                (lastIndexOf contentStr dquote)); try done; lia.
Qed.

(** C3.  The code follows the three tiers of the claim (the next delimiter,
    else the last quotation mark, else the end of the text) except where its
    test [end <= start] takes an answer that is empty and closed by the last
    quotation mark of the text for an answer without closing mark: whenever
    the parser returns, a question of the list whose text is a string other
    than [__proto__] has the answer of the code's rule, which is that of the
    claim unless the answer starts at the last quotation mark with no
    delimiter after it.  Both examples of the claim evaluate as stated.  On
    a text whose only answer is empty ([empty_answer_text]) the claim gives
    the empty answer and the code gives a quotation mark; in the sentence of
    a response block, with that empty answer the last one, the code gives
    the closing mark and the rest of the sentence. *)
Theorem parseAnswersFromContent_three_tiers :
  (∀ (contentStr : string) (questions : list value) (q : value) (text : string)
     (answers : gmap string value),
     parseAnswersFromContent (VStr contentStr) (VArr questions) = Ok (VObj answers) →
     q ∈ questions →
     get q "question" = Ok (VStr text) →
     text ≠ "__proto__" →
     let pattern := pattern_text text in
     let idx := indexOf contentStr pattern 0 in
     let start := (idx + len pattern)%Z in
     let delim := indexOf contentStr answer_delim start in
     let last_quote := lastIndexOf contentStr dquote in
     answers !! text =
       (if (idx =? -1)%Z then None
        else if negb (delim =? -1)%Z then Some (VStr (substring contentStr start delim))
        else if (start <? last_quote)%Z
             then Some (VStr (substring contentStr start last_quote))
             else Some (VStr (substring contentStr start (len contentStr))))
     ∧ (delim ≠ (-1)%Z ∨ last_quote ≠ start →
        answers !! text = answer_as_claimed contentStr text))
  ∧ parseAnswersFromContent (VStr color_size_text) (VArr [question "Color?"; question "Size?"])
    = Ok (VObj {[ "Color?" := VStr "blue"; "Size?" := VStr "large" ]})
  ∧ parseAnswersFromContent (VStr color_text) (VArr [question "Color?"])
    = Ok (VObj {[ "Color?" := VStr "blue and green" ]})
  ∧ (parseAnswersFromContent (VStr empty_answer_text) (VArr [question "Color?"])
     = Ok (VObj {[ "Color?" := VStr dquote ]})
     ∧ answer_as_claimed empty_answer_text "Color?" = Some (VStr ""))
  ∧ (parseAnswersFromContent (VStr empty_answer_sentence) (VArr [question "Color?"])
     = Ok (VObj {[ "Color?" := VStr (dquote +:+ ". You can now continue.") ]})
     ∧ answer_as_claimed empty_answer_sentence "Color?" = Some (VStr "")).
Proof.
  split; [|split_and!; vm_compute; reflexivity].
  intros contentStr questions q text answers Hparse Hin Hq Hproto.
  destruct (parseAnswersFromContent_Ok _ _ _ Hparse) as (qs & answers' & [= <-] & [= <-] & Hloop).
  simpl.
  rewrite (parse_loop_asked contentStr questions q text answers); try done.
  2: { by exists (VStr text). }
  split; [|apply answer_for_as_claimed].
  unfold answer_for, answer_end.
  destruct (indexOf contentStr (pattern_text text) 0 =? -1)%Z; [done|].
  destruct (indexOf contentStr answer_delim _ =? -1)%Z; simpl; [|done].
  rewrite Z.ltb_antisym. by destruct (_ <=? _)%Z.
Qed.

(** C10.  The fallback answer parser returns the empty mapping, without
    failing, whenever the content is not a string, whatever the question
    list; for a string content, whenever it returns, the result is a mapping
    each of whose keys is the question text of an element of the list, with
    at most one entry per question; and it returns on every list of
    questions none of which is [null] and whose texts convert to strings. *)
Theorem parseAnswersFromContent_total_domain :
  (∀ contentStr questions,
     (∀ s, contentStr ≠ VStr s) →
     parseAnswersFromContent contentStr questions = Ok (VObj ∅))
  ∧
  (∀ (contentStr : string) (questions result : value),
     parseAnswersFromContent (VStr contentStr) questions = Ok result →
     ∃ elements answers,
       iterate questions = Ok elements ∧ result = VObj answers ∧
       (∀ k, is_Some (answers !! k) → ∃ q, q ∈ elements ∧ asks q k) ∧
       (size answers ≤ length elements)%nat)
  ∧
  (∀ (contentStr : string) (questions : list value),
     Forall (λ q, nullish q = false ∧ convertible (field q "question") = true) questions →
     ∃ answers, parseAnswersFromContent (VStr contentStr) (VArr questions) = Ok (VObj answers)).
Proof.
  split_and!.
  - intros contentStr questions Hstr. destruct contentStr; try done. by destruct (Hstr s).
  - intros contentStr questions result Hparse.
    destruct (parseAnswersFromContent_Ok _ _ _ Hparse) as (qs & answers & Hqs & -> & Hloop).
    exists qs, answers. split_and!; [done..| |].
    + intros k Hk.
      destruct (parse_loop_lookup _ _ _ _ k Hloop) as [Hsame|(_ & Hq & _)]; [|done].
      rewrite Hsame, lookup_empty in Hk. by destruct Hk.
    + apply parse_loop_size in Hloop. by rewrite map_size_empty in Hloop.
  - intros contentStr questions Hqs.
    destruct (parseAnswersFromContent_string contentStr questions Hqs) as (answers & Hparse & _).
    by exists answers.
Qed.

Lemma parseAnswersFromContent_total_domain_witness :
  (∀ s, VNum "7" ≠ VStr s) ∧
  parseAnswersFromContent (VNum "7") (VArr [question "Color?"]) = Ok (VObj ∅) ∧
  ∃ answers,
    parseAnswersFromContent (VStr color_size_text) (VArr [question "Color?"; question "Size?"])
    = Ok (VObj answers) ∧
    (∀ k, is_Some (answers !! k) → ∃ q, q ∈ [question "Color?"; question "Size?"] ∧ asks q k) ∧
    (size answers ≤ 2)%nat.
Proof.
  assert (H1 : ∀ s, VNum "7" ≠ VStr s) by discriminate.
  assert (H2 : Forall (λ q, nullish q = false ∧ convertible (field q "question") = true)
                 [question "Color?"; question "Size?"])
    by (repeat constructor).
  destruct parseAnswersFromContent_total_domain as (T1 & T2 & T3).
  split_and!; [exact H1|exact (T1 _ _ H1)|].
  destruct (T3 color_size_text _ H2) as [answers Hparse].
  destruct (T2 _ _ _ Hparse) as (elements & answers' & [= <-] & [= <-] & Hkeys & Hsize).
  by exists answers.
Defined.

(** ** Correlator *)

Lemma index_block_register i entry m block :
  nullish entry = false → nullish block = false →
  index_block i entry m block = Ok (register i entry m block).
Proof.
  intros He Hb. unfold index_block, register, is_request.
  read_fields.
  destruct (is_str (field block "type") "tool_use"); [|done]. read_fields.
  destruct (is_str (field block "name") "AskUserQuestion"); [|done]. by read_fields.
Qed.

Lemma index_block_Ok i entry m block m' :
  nullish entry = false →
  index_block i entry m block = Ok m' → nullish block = false ∧ m' = register i entry m block.
Proof.
  intros He H. assert (nullish block = false) as Hb.
  { unfold index_block in H. apply bind_Ok in H as (? & ?%get_Ok_field & _). tauto. }
  rewrite index_block_register in H by done. by injection H as <-.
Qed.

Lemma index_entry_blocks i entry m :
  nullish entry = false →
  index_entry i entry m = for_of (index_block i entry) (blocks_of "assistant" entry) m.
Proof.
  intros He. unfold index_entry, blocks_of.
  read_fields.
  destruct (is_str (field entry "type") "assistant"); [|done]. read_fields.
  destruct (field (field entry "message") "content"); simpl; try done;
    by destruct (negb _).
Qed.

Lemma index_entry_Ok i entry m m' :
  index_entry i entry m = Ok m' → nullish entry = false.
Proof.
  unfold index_entry. intros (? & ?%get_Ok_field & _)%bind_Ok. tauto.
Qed.

Lemma match_block_responds m i entry pairs block :
  nullish entry = false → nullish block = false →
  match_block m i entry pairs block =
  match responds m block with
  | None => Ok pairs
  | Some askData =>
      answers ← resolve_answers entry block askData;
      Ok (pairs ++ [make_pair i entry askData answers])%list
  end.
Proof.
  intros He Hb. unfold match_block, responds.
  read_fields.
  destruct (is_str (field block "type") "tool_result"); [|done]. read_fields.
  destruct (Map_get _ m) as [askData|]; [|by destruct (truthy _)].
  read_fields.
  destruct (truthy (field block "is_error")); [done|]. simpl.
  destruct (resolve_answers entry block askData); [|done]. by read_fields.
Qed.

Lemma match_block_Ok m i entry pairs block pairs' :
  match_block m i entry pairs block = Ok pairs' → nullish block = false.
Proof.
  unfold match_block. intros (? & ?%get_Ok_field & _)%bind_Ok. tauto.
Qed.

Lemma match_entry_blocks m i entry pairs :
  nullish entry = false →
  match_entry m i entry pairs = for_of (match_block m i entry) (blocks_of "user" entry) pairs.
Proof.
  intros He. unfold match_entry, blocks_of.
  read_fields.
  destruct (is_str (field entry "type") "user"); [|done]. read_fields.
  destruct (field (field entry "message") "content"); simpl; try done;
    by destruct (negb _).
Qed.

Lemma match_entry_Ok m i entry pairs pairs' :
  match_entry m i entry pairs = Ok pairs' → nullish entry = false.
Proof.
  unfold match_entry. intros (? & ?%get_Ok_field & _)%bind_Ok. tauto.
Qed.

(** *** Pass 1: what the map holds *)

Lemma index_entry_Ok_blocks i entry m m' :
  index_entry i entry m = Ok m' →
  nullish entry = false ∧
  for_of (index_block i entry) (blocks_of "assistant" entry) m = Ok m'.
Proof.
  intros H. pose proof (index_entry_Ok _ _ _ _ H) as He.
  by rewrite index_entry_blocks in H.
Qed.

Lemma build_toolUseMap_sound lines m :
  build_toolUseMap lines = Ok m →
  ∀ k ask, m !! k = Some ask → registered_from lines k ask.
Proof.
  unfold build_toolUseMap.
  apply (for_index_invariant (λ m, ∀ k ask, m !! k = Some ask → registered_from lines k ask));
    [|by intros ?? ?%lookup_empty_Some].
  intros i entry m0 m1 Hi Hm0 [He Hblocks]%index_entry_Ok_blocks. simpl in Hblocks.
  revert Hblocks.
  apply (for_of_invariant (λ m, ∀ k ask, m !! k = Some ask → registered_from lines k ask));
    [|done].
  intros m2 block m3 Hin Hm2 [Hb ->]%index_block_Ok; [|done].
  unfold register. destruct (is_request block) eqn:Hreq; [|done].
  unfold Map_set. destruct (map_key (field block "id")) as [k'|] eqn:Hk'; [|done].
  intros k ask. destruct (decide (k' = k)) as [->|Hne].
  - rewrite lookup_insert_eq. intros [= <-]. by exists i, entry, block.
  - rewrite lookup_insert_ne by done. apply Hm2.
Qed.

Lemma register_keeps i entry m block k :
  is_Some (m !! k) → is_Some (register i entry m block !! k).
Proof.
  intros Hk. unfold register, Map_set. destruct (is_request block); [|done].
  destruct (map_key _) as [k'|]; [|done].
  destruct (decide (k' = k)) as [->|]; [by rewrite lookup_insert_eq|].
  by rewrite lookup_insert_ne.
Qed.

Lemma index_blocks_keep i entry blocks k m m' :
  nullish entry = false →
  is_Some (m !! k) → for_of (index_block i entry) blocks m = Ok m' → is_Some (m' !! k).
Proof.
  intros He. apply (for_of_invariant (λ m, is_Some (m !! k))).
  intros m2 block m3 _ Hm2 [_ ->]%index_block_Ok; [|done]. by apply register_keeps.
Qed.

Lemma index_entries_keep i lines k m m' :
  is_Some (m !! k) → for_index index_entry i lines m = Ok m' → is_Some (m' !! k).
Proof.
  apply (for_index_invariant (λ m, is_Some (m !! k))).
  intros j entry m2 m3 _ Hm2 [He Hblocks]%index_entry_Ok_blocks.
  by eapply index_blocks_keep.
Qed.

Lemma build_toolUseMap_complete lines m i entry block k :
  build_toolUseMap lines = Ok m →
  lines !! i = Some entry → block ∈ blocks_of "assistant" entry →
  is_request block = true → map_key (field block "id") = Some k →
  is_Some (m !! k).
Proof.
  unfold build_toolUseMap. intros Hbuild Hi Hin Hreq Hk.
  rewrite <- (take_drop_middle lines i entry Hi), for_index_app in Hbuild.
  apply bind_Ok in Hbuild as (m1 & _ & Hbuild). simpl in Hbuild.
  apply bind_Ok in Hbuild as (m2 & [He Hblocks]%index_entry_Ok_blocks & Hrest).
  eapply index_entries_keep; [|exact Hrest].
  apply list_elem_of_split in Hin as (b1 & b2 & Heq). rewrite Heq in Hblocks.
  rewrite for_of_app in Hblocks. apply bind_Ok in Hblocks as (m3 & _ & Hblocks).
  simpl in Hblocks. apply bind_Ok in Hblocks as (m4 & [_ ->]%index_block_Ok & Hblocks); [|done].
  eapply index_blocks_keep; [done| |exact Hblocks].
  unfold register, Map_set. rewrite Hreq, Hk. by rewrite lookup_insert_eq.
Qed.

Lemma build_toolUseMap_registers lines m i entry block k :
  build_toolUseMap lines = Ok m →
  lines !! i = Some entry → block ∈ blocks_of "assistant" entry →
  is_request block = true → map_key (field block "id") = Some k →
  only_request lines k i block →
  m !! k = Some (request_of i entry block).
Proof.
  intros Hbuild Hi Hin Hreq Hk Honly.
  destruct (build_toolUseMap_complete _ _ _ _ _ _ Hbuild Hi Hin Hreq Hk) as [ask Hask].
  rewrite Hask. f_equal.
  destruct (build_toolUseMap_sound _ _ Hbuild _ _ Hask)
    as (i' & entry' & block' & Hi' & Hin' & Hreq' & Hk' & ->).
  destruct (Honly _ _ _ Hi' Hin' Hreq' Hk') as [-> ->]. congruence.
Qed.

(** *** Pass 2: the pairs and the blocks they come from *)

Lemma match_blocks_pairs m i entry blocks :
  nullish entry = false →
  ∀ pairs pairs',
    for_of (match_block m i entry) blocks pairs = Ok pairs' →
    ∃ new, pairs' = (pairs ++ new)%list ∧
           Forall2 (pair_of m i entry) (filter (λ block, is_Some (responds m block)) blocks) new.
Proof.
  intros He. induction blocks as [|block blocks IH]; intros pairs pairs'; simpl.
  - intros [= <-]. exists []. by rewrite app_nil_r.
  - intros (pairs1 & Hblock & Hrest)%bind_Ok.
    pose proof (match_block_Ok _ _ _ _ _ _ Hblock) as Hb.
    rewrite match_block_responds in Hblock by done.
    destruct (IH _ _ Hrest) as (new & -> & Hnew).
    rewrite filter_cons. destruct (responds m block) as [askData|] eqn:Hresp.
    + apply bind_Ok in Hblock as (answers & Hanswers & [= <-]).
      exists (make_pair i entry askData answers :: new). rewrite <- app_assoc. split; [done|].
      rewrite decide_True by done. constructor; [|done]. by exists askData, answers.
    + injection Hblock as <-. exists new. split; [done|].
      rewrite decide_False; [done|]. by intros [??].
Qed.

Lemma match_entries_pairs m lines : ∀ i pairs pairs',
  for_index (match_entry m) i lines pairs = Ok pairs' →
  ∃ new, pairs' = (pairs ++ new)%list ∧ Forall2 (pair_of_response m) (responses m i lines) new.
Proof.
  induction lines as [|entry lines IH]; intros i pairs pairs'; simpl.
  - intros [= <-]. exists []. by rewrite app_nil_r.
  - intros (pairs1 & Hentry & Hrest)%bind_Ok.
    pose proof (match_entry_Ok _ _ _ _ _ Hentry) as He.
    rewrite match_entry_blocks in Hentry by done.
    destruct (match_blocks_pairs _ _ _ _ He _ _ Hentry) as (new1 & -> & Hnew1).
    destruct (IH _ _ _ Hrest) as (new2 & -> & Hnew2).
    exists (new1 ++ new2)%list. rewrite app_assoc. split; [done|].
    apply Forall2_app; [|done]. by apply Forall2_fmap_l.
Qed.

(** The pairs are, in order, the pairs of the responses. *)
Lemma extractQAPairs_responses lines pairs :
  extractQAPairs lines = Ok pairs →
  ∃ m, build_toolUseMap lines = Ok m ∧ Forall2 (pair_of_response m) (responses m 0 lines) pairs.
Proof.
  unfold extractQAPairs. intros (m & Hm & Hpairs)%bind_Ok. exists m. split; [done|].
  by destruct (match_entries_pairs _ _ _ _ _ Hpairs) as (new & -> & Hnew).
Qed.

Lemma responses_index m lines : ∀ i r,
  r ∈ responses m i lines →
  ∃ entry, lines !! (r.1.1 - i) = Some entry ∧ i ≤ r.1.1 ∧ r.1.2 = entry ∧
           r.2 ∈ blocks_of "user" entry ∧ is_Some (responds m r.2).
Proof.
  induction lines as [|entry lines IH]; intros i r; simpl.
  - by intros ?%elem_of_nil.
  - intros [Hr|Hr]%elem_of_app.
    + apply list_elem_of_fmap in Hr as (block & -> & [Hresp Hblock]%list_elem_of_filter).
      exists entry. simpl. by rewrite Nat.sub_diag.
    + destruct (IH _ _ Hr) as (entry' & Hlook & Hle & H).
      exists entry'. split_and!; [|lia|tauto..].
      by replace (r.1.1 - i) with (S (r.1.1 - S i)) by lia.
Qed.

Lemma responses_sorted m lines : ∀ i,
  StronglySorted le ((λ r, r.1.1) <$> responses m i lines).
Proof.
  induction lines as [|entry lines IH]; intros i; simpl; [constructor|].
  rewrite fmap_app, <- list_fmap_compose.
  induction (filter _ _) as [|block blocks IHb]; simpl; [apply IH|].
  constructor; [done|]. apply Forall_forall. intros j Hj.
  clear IHb. apply elem_of_app in Hj as [Hj|Hj].
  - apply list_elem_of_fmap in Hj as (? & -> & _). simpl. lia.
  - apply list_elem_of_fmap in Hj as (r & -> & Hr).
    destruct (responses_index _ _ _ _ Hr) as (? & _ & Hle & _). simpl. lia.
Qed.

(** *** Records of the expected shape *)

Lemma correlator_shaped_inv entry :
  correlator_shaped entry = true →
  nullish entry = false ∧
  (∀ block, block ∈ blocks_of "assistant" entry →
     nullish block = false ∧
     (is_request block = true → ∀ i, questions_ok (Ask.questions (request_of i entry block)) = true)) ∧
  (∀ block, block ∈ blocks_of "user" entry → nullish block = false).
Proof.
  unfold correlator_shaped. rewrite !andb_true_iff, !forallb_forall, negb_true_iff.
  intros [[He Ha] Hu]. split_and!; [done| |].
  - intros block Hin%list_elem_of_In. specialize (Ha _ Hin).
    apply andb_true_iff in Ha as [Hb Hq]. rewrite negb_true_iff in Hb. split; [done|].
    intros Hreq i. by rewrite Hreq in Hq.
  - intros block Hin%list_elem_of_In. specialize (Hu _ Hin). by rewrite negb_true_iff in Hu.
Qed.

Lemma build_toolUseMap_total lines :
  forallb correlator_shaped lines = true → ∃ m, build_toolUseMap lines = Ok m.
Proof.
  rewrite forallb_forall. intros Hshape. apply for_index_total.
  intros i entry m Hin%list_elem_of_In.
  destruct (correlator_shaped_inv _ (Hshape _ Hin)) as (He & Ha & _).
  rewrite index_entry_blocks by done. apply for_of_total.
  intros m' block Hblock. destruct (Ha _ Hblock) as [Hb _].
  rewrite index_block_register by done. eauto.
Qed.

Lemma resolve_answers_total entry block askData :
  nullish entry = false → nullish block = false →
  questions_ok (Ask.questions askData) = true →
  ∃ answers, resolve_answers entry block askData = Ok answers.
Proof.
  intros He Hb Hq. unfold resolve_answers. read_fields.
  destruct (truthy _); [eauto|]. read_fields.
  destruct (Ask.questions askData) as [| | | | |qs|] eqn:Hqs; try done.
  destruct (field block "content") as [| | | |s| |]; try (by eexists).
  destruct (parseAnswersFromContent_string s qs) as (answers & -> & _); [|eauto].
  apply Forall_forall. intros q Hin%list_elem_of_In. simpl in Hq.
  rewrite forallb_forall in Hq. specialize (Hq _ Hin).
  apply andb_true_iff in Hq as [Hn Hc]. by apply negb_true_iff in Hn.
Qed.

(** What the answers of a pair were taken from. *)
Lemma resolve_answers_Ok entry block askData answers :
  resolve_answers entry block askData = Ok answers →
  if truthy (field (field entry "toolUseResult") "answers")
  then answers = field (field entry "toolUseResult") "answers"
  else parseAnswersFromContent (field block "content") (Ask.questions askData) = Ok answers.
Proof.
  unfold resolve_answers. intros (r & [_ ->]%get_Ok_field & H)%bind_Ok.
  rewrite get_opt_field in H. simpl in H.
  destruct (truthy _); [by injection H|].
  by apply bind_Ok in H as (content & [_ ->]%get_Ok_field & H).
Qed.

Lemma extractQAPairs_total lines :
  forallb correlator_shaped lines = true → ∃ pairs, extractQAPairs lines = Ok pairs.
Proof.
  intros Hshape. destruct (build_toolUseMap_total _ Hshape) as [m Hm].
  unfold extractQAPairs. rewrite Hm. simpl.
  rewrite forallb_forall in Hshape. apply for_index_total.
  intros i entry pairs Hin%list_elem_of_In.
  destruct (correlator_shaped_inv _ (Hshape _ Hin)) as (He & _ & Hu).
  rewrite match_entry_blocks by done. apply for_of_total.
  intros pairs' block Hblock. specialize (Hu _ Hblock).
  rewrite match_block_responds by done.
  destruct (responds m block) as [askData|] eqn:Hresp; [|eauto].
  destruct (resolve_answers_total entry block askData) as [answers ->]; [done..| |simpl; eauto].
  unfold responds in Hresp. destruct (_ && _); [|done].
  unfold Map_get in Hresp. destruct (map_key _) as [k|]; [|done]. simpl in Hresp.
  destruct (build_toolUseMap_sound _ _ Hm _ _ Hresp)
    as (i' & entry' & block' & Hi' & Hin' & Hreq' & _ & ->).
  apply list_elem_of_lookup_2, list_elem_of_In in Hi'.
  destruct (correlator_shaped_inv _ (Hshape _ Hi')) as (_ & Ha & _).
  by apply Ha.
Qed.

Lemma filter_none {A} (P : A → Prop) `{∀ x, Decision (P x)} (l : list A) :
  (∀ x, x ∈ l → ¬ P x) → filter P l = [].
Proof.
  induction l as [|x l IH]; intros Hl; [done|].
  rewrite filter_cons_False by (apply Hl; by left). apply IH.
  intros y Hy. apply Hl. by right.
Qed.

Lemma filter_tagged (Q : value → Prop) `{∀ b, Decision (Q b)} (j : nat) (entry : value)
    (l : list value) :
  filter (λ r : nat * value * value, r.1.1 = j ∧ Q r.2) ((λ block, (j, entry, block)) <$> l)
  = (λ block, (j, entry, block)) <$> filter Q l.
Proof.
  induction l as [|b l IH]; [done|]. rewrite fmap_cons, !filter_cons. simpl.
  destruct (decide (Q b)) as [HQ|HQ].
  - rewrite decide_True by done. by rewrite fmap_cons, IH.
  - rewrite decide_False by tauto. done.
Qed.

(** The responses of record [j], among all responses. *)
Lemma responses_of_record m (Q : value → Prop) `{∀ b, Decision (Q b)} lines j : ∀ i entry,
  i ≤ j → lines !! (j - i) = Some entry →
  filter (λ r : nat * value * value, r.1.1 = j ∧ Q r.2) (responses m i lines)
  = (λ block, (j, entry, block)) <$>
      filter (λ block, Q block ∧ is_Some (responds m block)) (blocks_of "user" entry).
Proof.
  induction lines as [|entry' lines IH]; intros i entry Hle Hlook; [done|]. simpl.
  rewrite filter_app. destruct (decide (i = j)) as [->|Hne].
  - rewrite Nat.sub_diag in Hlook. injection Hlook as ->.
    rewrite (filter_none _ (responses m (S j) lines)), app_nil_r.
    + by rewrite filter_tagged, list_filter_filter.
    + intros r Hr [Hj _].
      destruct (responses_index _ _ _ _ Hr) as (? & _ & ? & _). lia.
  - rewrite (filter_none _ (_ <$> _)).
    + simpl. apply IH; [lia|]. by replace (j - i) with (S (j - S i)) in Hlook by lia.
    + intros r (b & -> & _)%list_elem_of_fmap [Hj _]. simpl in Hj. done.
Qed.

(** A pair carries the position of its response record and the key of the
    request it answers. *)
Lemma pair_of_response_key lines m r p :
  build_toolUseMap lines = Ok m → pair_of_response m r p →
  Pair.answerLineIndex p = r.1.1 ∧
  map_key (Pair.toolUseId p) = map_key (field r.2 "tool_use_id") ∧
  Map_get (Pair.toolUseId p) m = responds m r.2 ∧
  is_str (field r.2 "type") "tool_result" = true ∧
  truthy (field r.2 "is_error") = false.
Proof.
  intros Hm (askData & answers & Hresp & _ & ->). simpl. split; [done|].
  pose proof Hresp as Hresp'. unfold responds in Hresp. rewrite Hresp'.
  destruct (is_str _ _) eqn:Htype; [|done].
  destruct (truthy _) eqn:Herr; [done|]. simpl in Hresp.
  unfold Map_get in *. destruct (map_key (field r.2 "tool_use_id")) as [k|] eqn:Hk; [|done].
  simpl in Hresp.
  destruct (build_toolUseMap_sound _ _ Hm _ _ Hresp) as (i' & e' & b' & _ & _ & _ & Hk' & ->).
  simpl. rewrite Hk'. simpl. by rewrite Hresp.
Qed.

(** C6.  The pairs the Correlator returns are in the order of their response
    records: the answer record index never decreases along the list.  The
    order of the requests plays no part: the sample records give pairs whose
    request indices decrease. *)
Theorem extractQAPairs_ordered_by_response :
  (∀ lines pairs,
     extractQAPairs lines = Ok pairs →
     StronglySorted le (Pair.answerLineIndex <$> pairs))
  ∧
  (∃ lines pairs,
     extractQAPairs lines = Ok pairs ∧ ¬ Sorted le (Pair.askLineIndex <$> pairs)).
Proof.
  split.
  - intros lines pairs (m & Hm & Hpairs)%extractQAPairs_responses.
    replace (Pair.answerLineIndex <$> pairs) with ((λ r, r.1.1) <$> responses m 0 lines);
      [apply responses_sorted|].
    induction Hpairs as [|r p rs ps Hrp _ IH]; [done|]. simpl. f_equal; [|done].
    by destruct (pair_of_response_key _ _ _ _ Hm Hrp) as [-> _].
  - exists sample_lines. eexists. split; [exact sample_pairs|]. simpl.
    intros Hsorted. apply Sorted_inv in Hsorted as [_ Hhd].
    apply HdRel_inv in Hhd. lia.
Qed.

Lemma extractQAPairs_ordered_by_response_witness :
  extractQAPairs sample_lines =
    Ok [ Pair.mk (VArr [question "Color?"]) (obj [("Color?", VStr "blue")])
           (VStr "2025-01-01T10:00:05.000Z") (VStr "2025-01-01T10:01:00.000Z") 1 2 (VStr "Y");
         Pair.mk (VArr [question "Proceed?"]) (obj [("Proceed?", VStr "Yes")])
           (VStr "2025-01-01T10:00:00.000Z") (VStr "2025-01-01T10:02:00.000Z") 0 3 (VStr "X") ]
  ∧ StronglySorted le [2; 3].
Proof.
  assert (H : extractQAPairs sample_lines =
    Ok [ Pair.mk (VArr [question "Color?"]) (obj [("Color?", VStr "blue")])
           (VStr "2025-01-01T10:00:05.000Z") (VStr "2025-01-01T10:01:00.000Z") 1 2 (VStr "Y");
         Pair.mk (VArr [question "Proceed?"]) (obj [("Proceed?", VStr "Yes")])
           (VStr "2025-01-01T10:00:00.000Z") (VStr "2025-01-01T10:02:00.000Z") 0 3 (VStr "X") ])
    by (vm_compute; reflexivity).
  split; [exact H|].
  exact (proj1 extractQAPairs_ordered_by_response _ _ H).
Defined.

Lemma is_str_field_not_nullish v p lit : is_str (field v p) lit = true → nullish v = false.
Proof. by destruct v. Qed.

(** C2.  A response block whose correlation id matches no registered request
    produces no pair and no failure, and so does a response block flagged as
    an error, whatever its id: the loop body leaves the pairs as they are, and
    over a whole record sequence every pair comes from a response block with
    a registered id and no error flag, one pair for each such block. *)
Theorem unmatched_or_error_response_gives_no_pair :
  (∀ m i entry pairs block,
     is_str (field block "type") "tool_result" = true →
     Map_get (field block "tool_use_id") m = None ∨ truthy (field block "is_error") = true →
     match_block m i entry pairs block = Ok pairs)
  ∧
  (∀ lines m pairs,
     build_toolUseMap lines = Ok m →
     extractQAPairs lines = Ok pairs →
     length pairs = length (responses m 0 lines) ∧
     ∀ p, p ∈ pairs →
       ∃ entry block,
         lines !! Pair.answerLineIndex p = Some entry ∧
         block ∈ blocks_of "user" entry ∧
         is_str (field block "type") "tool_result" = true ∧
         is_Some (Map_get (field block "tool_use_id") m) ∧
         truthy (field block "is_error") = false ∧
         pair_of m (Pair.answerLineIndex p) entry block p).
Proof.
  split.
  - intros m i entry pairs block Htype Hskip.
    pose proof (is_str_field_not_nullish _ _ _ Htype) as Hb.
    unfold match_block. read_fields. rewrite Htype. read_fields.
    destruct Hskip as [->|Herr]; [done|].
    destruct (Map_get _ m); [|done]. read_fields. by rewrite Herr.
  - intros lines m pairs Hm (m' & Hm' & Hpairs)%extractQAPairs_responses.
    assert (m' = m) as -> by congruence. split.
    { symmetry. by eapply Forall2_length. }
    intros p (n & Hn)%list_elem_of_lookup.
    destruct (Forall2_lookup_r _ _ _ _ _ Hpairs Hn) as (r & Hr & Hrp).
    apply list_elem_of_lookup_2 in Hr.
    destruct (responses_index _ _ _ _ Hr) as (entry & Hentry & _ & Heq & Hblock & Hresp).
    destruct (pair_of_response_key _ _ _ _ Hm Hrp) as (Hidx & _ & Hget & Htype & Herr).
    rewrite Nat.sub_0_r in Hentry. exists entry, r.2. rewrite Hidx.
    split_and!; try done.
    + unfold responds in Hresp. by rewrite Htype, Herr in Hresp.
    + unfold pair_of_response in Hrp. by rewrite Heq in Hrp.
Qed.

Lemma unmatched_or_error_response_gives_no_pair_witness :
  is_str (field (result_block "Z" (VStr "stray") []) "type") "tool_result" = true ∧
  (Map_get (field (result_block "Z" (VStr "stray") []) "tool_use_id") ∅ = None ∨
   truthy (field (result_block "Z" (VStr "stray") []) "is_error") = true) ∧
  match_block ∅ 1 VNull [] (result_block "Z" (VStr "stray") []) = Ok [] ∧
  ∃ m, build_toolUseMap unanswered_lines = Ok m ∧
       extractQAPairs unanswered_lines = Ok [] ∧
       length ([] : list Pair.t) = length (responses m 0 unanswered_lines).
Proof.
  assert (H1 : is_str (field (result_block "Z" (VStr "stray") []) "type") "tool_result" = true)
    by (vm_compute; reflexivity).
  assert (H2 : Map_get (field (result_block "Z" (VStr "stray") []) "tool_use_id") ∅ = None ∨
               truthy (field (result_block "Z" (VStr "stray") []) "is_error") = true)
    by (left; vm_compute; reflexivity).
  split_and!; [exact H1|exact H2| |].
  - exact (proj1 unmatched_or_error_response_gives_no_pair ∅ 1 VNull [] _ H1 H2).
  - destruct (build_toolUseMap_total unanswered_lines) as [m Hm]; [vm_compute; reflexivity|].
    assert (Hp : extractQAPairs unanswered_lines = Ok []) by (vm_compute; reflexivity).
    exists m. split_and!; [exact Hm|exact Hp|].
    exact (proj1 (proj2 unmatched_or_error_response_gives_no_pair _ _ _ Hm Hp)).
Defined.

Lemma answers_key_responds m k ask block :
  m !! k = Some ask →
  answers_key k block = true ↔
  map_key (field block "tool_use_id") = Some k ∧ is_Some (responds m block).
Proof.
  intros Hk. unfold answers_key, responds, Map_get.
  rewrite !andb_true_iff, bool_decide_eq_true. split.
  - intros [[-> ->] Hkey]. rewrite Hkey. simpl. by rewrite Hk.
  - intros [Hkey [ask' Hresp]]. destruct (_ && _) eqn:Hcond; [|done].
    by apply andb_true_iff in Hcond as [-> ->].
Qed.

(** C1.  Take a request block registered under the correlation id [k] (an
    [AskUserQuestion] tool-use block of the assistant record [i], the only
    request with that id) and, in the user record [j], a response block
    carrying [k] that is not flagged as an error (the only such block of that
    record).  Then whatever the Correlator returns holds exactly one pair
    for that response: it joins the request's question list, position and
    timestamp with the response's position and timestamp and with the
    response's answers, which are the [answers] of the record's structured
    side channel when that value is truthy and the fallback parse of the
    block's content against the request's questions otherwise.  The
    Correlator returns on all records of the expected shape. *)
Theorem extractQAPairs_joins_request_and_response
    (lines : list value) (i j : nat) (request response request_block response_block : value)
    (k : key) :
  lines !! i = Some request →
  request_block ∈ blocks_of "assistant" request →
  is_request request_block = true →
  map_key (field request_block "id") = Some k →
  only_request lines k i request_block →
  lines !! j = Some response →
  filter (λ block, answers_key k block = true) (blocks_of "user" response) = [response_block] →
  (∀ pairs,
     extractQAPairs lines = Ok pairs →
     ∃ answers,
       filter (λ p, Pair.answerLineIndex p = j ∧ map_key (Pair.toolUseId p) = Some k) pairs
       = [ {| Pair.questions := or_else (field (field request_block "input") "questions") (VArr []);
              Pair.answers := answers;
              Pair.askTimestamp := field request "timestamp";
              Pair.answerTimestamp := field response "timestamp";
              Pair.askLineIndex := i;
              Pair.answerLineIndex := j;
              Pair.toolUseId := field request_block "id" |} ] ∧
       if truthy (field (field response "toolUseResult") "answers")
       then answers = field (field response "toolUseResult") "answers"
       else parseAnswersFromContent (field response_block "content")
              (or_else (field (field request_block "input") "questions") (VArr []))
            = Ok answers)
  ∧ (forallb correlator_shaped lines = true → ∃ pairs, extractQAPairs lines = Ok pairs).
Proof.
  intros Hi Hin Hreq Hk Honly Hj Hresponse. split; [|apply extractQAPairs_total].
  intros pairs Hpairs.
  destruct (extractQAPairs_responses _ _ Hpairs) as (m & Hm & HF).
  pose proof (build_toolUseMap_registers _ _ _ _ _ _ Hm Hi Hin Hreq Hk Honly) as Hreg.
  apply (Forall2_filter _
           (λ r : nat * value * value, r.1.1 = j ∧ map_key (field r.2 "tool_use_id") = Some k)
           (λ p, Pair.answerLineIndex p = j ∧ map_key (Pair.toolUseId p) = Some k)) in HF.
  2: { intros r p Hrp. destruct (pair_of_response_key _ _ _ _ Hm Hrp) as (-> & -> & _). done. }
  pose proof (responses_of_record m (λ b, map_key (field b "tool_use_id") = Some k)
                lines j 0 response) as Hrec.
  simpl in Hrec. rewrite Nat.sub_0_r in Hrec. rewrite Hrec in HF by (done || lia). clear Hrec.
  rewrite (list_filter_iff _ (λ block, answers_key k block = true)) in HF
    by (intros b; symmetry; by apply answers_key_responds with (ask := request_of i request request_block)).
  rewrite Hresponse in HF. simpl in HF.
  apply Forall2_cons_inv_l in HF as (p & ps & Hp & ->%Forall2_nil_inv_l & Hfilter).
  destruct Hp as (askData & answers & Hresp & Hanswers & ->). simpl in *.
  assert (askData = request_of i request request_block) as ->.
  { assert (response_block ∈ [response_block]) as Hmem by (by left).
    rewrite <- Hresponse in Hmem. apply list_elem_of_filter in Hmem as [Hkey _].
    unfold answers_key in Hkey. rewrite !andb_true_iff, bool_decide_eq_true in Hkey.
    destruct Hkey as [[Htype Herr] Hkey].
    unfold responds, Map_get in Hresp. rewrite Htype, Herr, Hkey in Hresp. simpl in Hresp.
    congruence. }
  exists answers. split; [exact Hfilter|]. exact (resolve_answers_Ok _ _ _ _ Hanswers).
Qed.

Lemma sample_only_request_X :
  only_request sample_lines (KStr "X") 0 (ask_block "X" [question "Proceed?"]).
Proof.
  intros i' entry' block' Hi' Hin' _ Hk'.
  destruct i' as [|[|[|[|i']]]]; simpl in Hi'; try done; injection Hi' as <-.
  - vm_compute in Hin'. apply list_elem_of_singleton in Hin' as ->. by split.
  - vm_compute in Hin'. apply list_elem_of_singleton in Hin' as ->. by vm_compute in Hk'.
  - vm_compute in Hin'. by apply elem_of_nil in Hin'.
  - vm_compute in Hin'. by apply elem_of_nil in Hin'.
Defined.

Lemma sample_only_request_Y :
  only_request sample_lines (KStr "Y") 1 (ask_block "Y" [question "Color?"]).
Proof.
  intros i' entry' block' Hi' Hin' _ Hk'.
  destruct i' as [|[|[|[|i']]]]; simpl in Hi'; try done; injection Hi' as <-.
  - vm_compute in Hin'. apply list_elem_of_singleton in Hin' as ->. by vm_compute in Hk'.
  - vm_compute in Hin'. apply list_elem_of_singleton in Hin' as ->. by split.
  - vm_compute in Hin'. by apply elem_of_nil in Hin'.
  - vm_compute in Hin'. by apply elem_of_nil in Hin'.
Defined.

Lemma extractQAPairs_joins_request_and_response_witness :
  (∃ pairs,
     extractQAPairs sample_lines = Ok pairs ∧
     filter (λ p, Pair.answerLineIndex p = 3 ∧ map_key (Pair.toolUseId p) = Some (KStr "X")) pairs
     = [ Pair.mk (VArr [question "Proceed?"]) (obj [("Proceed?", VStr "Yes")])
           (VStr "2025-01-01T10:00:00.000Z") (VStr "2025-01-01T10:02:00.000Z") 0 3 (VStr "X") ] ∧
     filter (λ p, Pair.answerLineIndex p = 2 ∧ map_key (Pair.toolUseId p) = Some (KStr "Y")) pairs
     = [ Pair.mk (VArr [question "Color?"]) (obj [("Color?", VStr "blue")])
           (VStr "2025-01-01T10:00:05.000Z") (VStr "2025-01-01T10:01:00.000Z") 1 2 (VStr "Y") ]).
Proof.
  assert (HX : blocks_of "assistant" sample_ask_X = [ask_block "X" [question "Proceed?"]])
    by (vm_compute; reflexivity).
  assert (HY : blocks_of "assistant" sample_ask_Y = [ask_block "Y" [question "Color?"]])
    by (vm_compute; reflexivity).
  destruct (extractQAPairs_joins_request_and_response sample_lines 0 3 sample_ask_X
              sample_answer_X (ask_block "X" [question "Proceed?"])
              (result_block "X" (VStr "ignored") []) (KStr "X"))
    as [Hstructured Hreturns];
    [reflexivity|rewrite HX; left|vm_compute; reflexivity|vm_compute; reflexivity
    |exact sample_only_request_X|reflexivity|vm_compute; reflexivity|].
  destruct (extractQAPairs_joins_request_and_response sample_lines 1 2 sample_ask_Y
              sample_answer_Y (ask_block "Y" [question "Color?"])
              (result_block "Y" (VStr (quoted "Color?" +:+ "=" +:+ quoted "blue")) []) (KStr "Y"))
    as [Hfallback _];
    [reflexivity|rewrite HY; left|vm_compute; reflexivity|vm_compute; reflexivity
    |exact sample_only_request_Y|reflexivity|vm_compute; reflexivity|].
  destruct Hreturns as [pairs Hpairs]; [vm_compute; reflexivity|].
  exists pairs. split; [exact Hpairs|].
  destruct (Hstructured pairs Hpairs) as (a1 & -> & Ha1).
  destruct (Hfallback pairs Hpairs) as (a2 & -> & Ha2).
  vm_compute in Ha1. vm_compute in Ha2. injection Ha2 as <-. rewrite Ha1.
  split; vm_compute; reflexivity.
Defined.

(** ** The Correlator and the timestamps of the records *)

Lemma for_of_map {A St St'} (g : St → St') (body : St → A → result St)
    (body' : St' → A → result St') (xs : list A) :
  (∀ s x, body' (g s) x = g <$> body s x) →
  ∀ s, for_of body' xs (g s) = g <$> for_of body xs s.
Proof.
  intros Hbody. induction xs as [|x xs IH]; intros s; simpl; [done|].
  rewrite Hbody. destruct (body s x); simpl; [apply IH|done].
Qed.

Lemma for_index_map {A St St'} (f : A → A) (g : St → St') (body : nat → A → St → result St)
    (body' : nat → A → St' → result St') (xs : list A) :
  (∀ i x s, body' i (f x) (g s) = g <$> body i x s) →
  ∀ i s, for_index body' i (f <$> xs) (g s) = g <$> for_index body i xs s.
Proof.
  intros Hbody. induction xs as [|x xs IH]; intros i s; simpl; [done|].
  rewrite Hbody. destruct (body i x s); simpl; [apply IH|done].
Qed.

Lemma get_without_timestamp entry p :
  p ≠ "timestamp" → get (without_timestamp entry) p = get entry p.
Proof. intros Hp. destruct entry; try done. simpl. by rewrite lookup_delete_ne. Qed.

Lemma get_timestamp_without entry :
  get (without_timestamp entry) "timestamp" = (λ _, VUndef) <$> get entry "timestamp".
Proof. destruct entry; try done. simpl. by rewrite lookup_delete_eq. Qed.

Lemma Map_set_untimed id ask (m : gmap key Ask.t) :
  Map_set id (untimed_ask ask) (untimed_map m) = untimed_ask <$> Map_set id ask m.
Proof. unfold Map_set, untimed_map. destruct (map_key id); [by rewrite fmap_insert|done]. Qed.

Lemma Map_get_untimed id (m : gmap key Ask.t) :
  Map_get id (untimed_map m) = untimed_ask <$> Map_get id m.
Proof. unfold Map_get, untimed_map. destruct (map_key id); simpl; [by rewrite lookup_fmap|done]. Qed.

Lemma index_block_untimed i entry m block :
  index_block i (without_timestamp entry) (untimed_map m) block
  = untimed_map <$> index_block i entry m block.
Proof.
  unfold index_block. rewrite get_timestamp_without.
  destruct (get block "type") as [type|]; simpl; [|done].
  destruct (is_str type "tool_use"); [|done].
  destruct (get block "name") as [name|]; simpl; [|done].
  destruct (is_str name "AskUserQuestion"); [|done].
  destruct (get block "id") as [id|]; simpl; [|done].
  destruct (get block "input") as [input|]; simpl; [|done].
  destruct (get_opt input "questions") as [questions|]; simpl; [|done].
  destruct (get entry "timestamp") as [ts|]; simpl; [|done].
  by rewrite <- Map_set_untimed.
Qed.

Lemma index_entry_untimed i entry m :
  index_entry i (without_timestamp entry) (untimed_map m)
  = untimed_map <$> index_entry i entry m.
Proof.
  unfold index_entry. rewrite !get_without_timestamp by done.
  destruct (get entry "type") as [type|]; simpl; [|done].
  destruct (negb (is_str type "assistant")); [done|].
  destruct (get entry "message") as [message|]; simpl; [|done].
  destruct (get_opt message "content") as [content|]; simpl; [|done].
  destruct (negb (truthy content)); [done|].
  destruct content; try done.
  apply (for_of_map untimed_map). intros. apply index_block_untimed.
Qed.

Lemma build_toolUseMap_untimed lines :
  build_toolUseMap (without_timestamp <$> lines)
  = untimed_map <$> build_toolUseMap lines.
Proof.
  unfold build_toolUseMap.
  rewrite <- (for_index_map without_timestamp untimed_map index_entry index_entry).
  - unfold untimed_map. by rewrite fmap_empty.
  - intros. apply index_entry_untimed.
Qed.

Lemma resolve_answers_untimed entry block ask :
  resolve_answers (without_timestamp entry) block (untimed_ask ask)
  = resolve_answers entry block ask.
Proof. unfold resolve_answers. by rewrite get_without_timestamp. Qed.

Lemma match_block_untimed m i entry pairs block :
  match_block (untimed_map m) i (without_timestamp entry) (untimed_pairs pairs) block
  = untimed_pairs <$> match_block m i entry pairs block.
Proof.
  unfold match_block. rewrite get_timestamp_without.
  destruct (get block "type") as [type|]; simpl; [|done].
  destruct (negb (is_str type "tool_result")); [done|].
  destruct (get block "tool_use_id") as [id|]; simpl; [|done].
  rewrite Map_get_untimed. destruct (Map_get id m) as [ask|]; simpl; [|done].
  destruct (get block "is_error") as [is_error|]; simpl; [|done].
  destruct (truthy is_error); [done|].
  rewrite resolve_answers_untimed.
  destruct (resolve_answers entry block ask) as [answers|]; simpl; [|done].
  destruct (get entry "timestamp") as [ts|]; simpl; [|done].
  unfold untimed_pairs. by rewrite fmap_app.
Qed.

Lemma match_entry_untimed m i entry pairs :
  match_entry (untimed_map m) i (without_timestamp entry) (untimed_pairs pairs)
  = untimed_pairs <$> match_entry m i entry pairs.
Proof.
  unfold match_entry. rewrite !get_without_timestamp by done.
  destruct (get entry "type") as [type|]; simpl; [|done].
  destruct (negb (is_str type "user")); [done|].
  destruct (get entry "message") as [message|]; simpl; [|done].
  destruct (get_opt message "content") as [content|]; simpl; [|done].
  destruct (negb (truthy content)); [done|].
  destruct content; try done.
  apply (for_of_map untimed_pairs). intros. apply match_block_untimed.
Qed.

(** Removing the timestamps of the records changes nothing in the result of
    the Correlator but the timestamps of the pairs. *)
Lemma extractQAPairs_untimed lines :
  extractQAPairs (without_timestamp <$> lines)
  = untimed_pairs <$> extractQAPairs lines.
Proof.
  unfold extractQAPairs. rewrite build_toolUseMap_untimed.
  destruct (build_toolUseMap lines) as [m|]; simpl; [|done].
  apply (for_index_map without_timestamp untimed_pairs (match_entry m)
           (match_entry (untimed_map m)) lines
           (λ i x s, match_entry_untimed m i x s) 0 []).
Qed.

(** ** Cleaning text *)

Lemma trimEnd_empty s : trimEnd s = "" → all_white s = true.
Proof.
  induction s as [|c s IH]; simpl; [done|].
  destruct (trimEnd s); [|done]. destruct (is_white c); [|done]. intros _. by apply IH.
Qed.

Lemma all_white_trimStart s : all_white (trimStart s) = true → all_white s = true.
Proof.
  induction s as [|c s IH]; simpl; [done|].
  destruct (is_white c) eqn:Hc; simpl; [done|]. by rewrite Hc.
Qed.

Lemma white_not_lt c : is_white c = true → is_lt c = false.
Proof.
  unfold is_lt. destruct (Ascii.eqb_spec c "<") as [->|]; [|done]. by vm_compute.
Qed.

Lemma remove_tags_white s : all_white s = true → remove_tags false s = s.
Proof.
  induction s as [|c s IH]; simpl; [done|].
  intros [Hc Hs]%andb_true_iff. rewrite (white_not_lt _ Hc). simpl. by rewrite IH.
Qed.

Lemma trimStart_white s : all_white s = true → trimStart s = "".
Proof.
  induction s as [|c s IH]; simpl; [done|]. intros [-> Hs]%andb_true_iff. by apply IH.
Qed.

(** Text that is blank before the tags are removed is blank after. *)
Lemma trim_empty_cleaned s : trim s = "" → trim (remove_tags false s) = "".
Proof.
  unfold trim. intros H%trimEnd_empty%all_white_trimStart.
  by rewrite remove_tags_white, trimStart_white.
Qed.

Lemma slice0_length s n : String.length (slice0 s n) ≤ n.
Proof.
  unfold slice0. revert s. induction n as [|n IH]; intros [|c s]; simpl; try lia.
  specialize (IH s). lia.
Qed.

(** ** Timeline Builder *)

(** A loop whose body only appends, only appends. *)
Lemma for_of_appends {A B} (body : list B → A → result (list B)) (xs : list A) :
  (∀ s x, body s x = (λ new, s ++ new) <$> body [] x) →
  ∀ s, for_of body xs s = (λ new, s ++ new) <$> for_of body xs [].
Proof.
  intros Hbody. induction xs as [|x xs IH]; intros s; simpl.
  - by rewrite app_nil_r.
  - rewrite (Hbody s x). destruct (body [] x) as [new|e]; simpl; [|done].
    rewrite (IH (s ++ new)), (IH new).
    destruct (for_of body xs []) as [new'|e]; simpl; [|done]. by rewrite app_assoc.
Qed.

Lemma for_index_appends {A B} (body : nat → A → list B → result (list B)) (xs : list A) :
  (∀ i x s, body i x s = (λ new, s ++ new) <$> body i x []) →
  ∀ i s, for_index body i xs s = (λ new, s ++ new) <$> for_index body i xs [].
Proof.
  intros Hbody. induction xs as [|x xs IH]; intros i s; simpl.
  - by rewrite app_nil_r.
  - rewrite (Hbody i x s). destruct (body i x []) as [new|e]; simpl; [|done].
    rewrite (IH _ (s ++ new)), (IH _ new).
    destruct (for_index body (S i) xs []) as [new'|e]; simpl; [|done]. by rewrite app_assoc.
Qed.

(** Case analysis on the next monadic step or test of the goal. *)
Ltac step_result :=
  simpl;
  match goal with
  | |- context [?r ≫= _] => destruct r eqn:?
  | |- context [if ?b then _ else _] => destruct b eqn:?
  end.

Section TimelineProperties.

Variable JSON_stringify : value → string.

Lemma assistant_block_appends i entry timeline block :
  assistant_block JSON_stringify i entry timeline block
  = (λ new, timeline ++ new) <$> assistant_block JSON_stringify i entry [] block.
Proof.
  unfold assistant_block. repeat step_result; simpl; by rewrite ?app_nil_r.
Qed.

Lemma user_block_appends i entry timeline block :
  user_block i entry timeline block = (λ new, timeline ++ new) <$> user_block i entry [] block.
Proof.
  unfold user_block. repeat step_result; simpl; by rewrite ?app_nil_r.
Qed.

Lemma assistant_block_new i entry block new :
  assistant_block JSON_stringify i entry [] block = Ok new →
  new = [] ∨ ∃ e, new = [e] ∧ from_record i entry e.
Proof.
  unfold assistant_block, from_record.
  repeat step_result; simpl; intros [= <-]; eauto;
    right; eexists; (split; [done|]); simpl; split; try done;
    match goal with H : get entry "timestamp" = Ok _ |- _ => by apply get_Ok_field in H as [_ ->] end.
Qed.

Lemma user_block_new i entry block new :
  user_block i entry [] block = Ok new →
  new = [] ∨ ∃ e, new = [e] ∧ from_record i entry e.
Proof.
  unfold user_block, from_record.
  repeat step_result; simpl; intros [= <-]; eauto;
    right; eexists; (split; [done|]); simpl; split; try done;
    match goal with H : get entry "timestamp" = Ok _ |- _ => by apply get_Ok_field in H as [_ ->] end.
Qed.

Lemma stripTags_VStr s : stripTags (VStr s) = Ok (cleaned_of s).
Proof. unfold stripTags. simpl. by destruct s. Qed.

(** The loop body over the records, by the three sources of entries; at most
    one of them is not empty, by the record's [type] and content. *)
Lemma timeline_entry_eq i entry timeline :
  nullish entry = false →
  timeline_entry JSON_stringify i entry timeline =
  if eligible entry then
    timeline ← for_of (assistant_block JSON_stringify i entry) (blocks_of "assistant" entry) timeline;
    timeline ← for_of (user_block i entry) (blocks_of "user" entry) timeline;
    Ok (timeline ++ user_string i entry)
  else Ok timeline.
Proof.
  intros He. unfold timeline_entry, eligible, user_string, blocks_of. read_fields.
  destruct (truthy (field entry "message")) eqn:Hm; [|done].
  destruct (truthy (field entry "timestamp")); [|done]. simpl.
  destruct (is_str (field entry "type") "file-history-snapshot") eqn:Hsnap; [done|]. simpl.
  pose proof (truthy_not_nullish _ Hm) as Hmsg. read_fields.
  destruct (field entry "type") as [| | | |type| |]; simpl; try by rewrite app_nil_r.
  destruct (String.eqb_spec type "assistant") as [->|Hna]; simpl.
  - destruct (field (field entry "message") "content"); simpl; try by rewrite app_nil_r.
    destruct (for_of _ _ _); simpl; [|done]. by rewrite app_nil_r.
  - destruct (String.eqb_spec type "user") as [->|Hnu]; simpl; [|by rewrite app_nil_r].
    destruct (field (field entry "message") "content") as [| | | |s| |];
      simpl; try by rewrite app_nil_r.
    + rewrite stripTags_VStr. simpl. case_match; [done|by rewrite app_nil_r].
    + destruct (for_of _ _ _); simpl; [|done]. by rewrite app_nil_r.
Qed.

Lemma timeline_entry_Ok i entry timeline timeline' :
  timeline_entry JSON_stringify i entry timeline = Ok timeline' → nullish entry = false.
Proof. unfold timeline_entry. intros (? & ?%get_Ok_field & _)%bind_Ok. tauto. Qed.

Lemma timeline_entry_appends i entry timeline :
  timeline_entry JSON_stringify i entry timeline
  = (λ new, timeline ++ new) <$> timeline_entry JSON_stringify i entry [].
Proof.
  destruct (nullish entry) eqn:He.
  { by destruct entry. }
  rewrite !timeline_entry_eq by done. destruct (eligible entry); simpl; [|by rewrite app_nil_r].
  rewrite for_of_appends by apply assistant_block_appends.
  destruct (for_of _ (blocks_of "assistant" entry) []) as [new1|]; simpl; [|done].
  rewrite for_of_appends by apply user_block_appends.
  rewrite (for_of_appends _ _ (user_block_appends i entry) new1).
  destruct (for_of _ (blocks_of "user" entry) []) as [new2|]; simpl; [|done].
  by rewrite !app_assoc.
Qed.

(** Each element an appending loop returns was appended by one of its steps. *)
Lemma for_of_sources {A B} (body : list B → A → result (list B)) (xs : list A) :
  (∀ s x, body s x = (λ new, s ++ new) <$> body [] x) →
  ∀ new e, for_of body xs [] = Ok new → e ∈ new →
  ∃ x n, x ∈ xs ∧ body [] x = Ok n ∧ e ∈ n.
Proof.
  intros Hbody. induction xs as [|x xs IH]; intros new e; simpl.
  - intros [= <-] ?%elem_of_nil. done.
  - intros (n & Hx & Hrest)%bind_Ok He.
    rewrite for_of_appends in Hrest by done.
    destruct (for_of body xs []) as [new'|] eqn:Hxs; [|done]. injection Hrest as <-.
    apply elem_of_app in He as [He|He].
    + exists x, n. split_and!; [by left|done..].
    + destruct (IH _ _ eq_refl He) as (x' & n' & Hin & Hb & Hn').
      exists x', n'. split_and!; [by right|done..].
Qed.

Lemma for_index_sources {A B} (body : nat → A → list B → result (list B)) (xs : list A) :
  (∀ i x s, body i x s = (λ new, s ++ new) <$> body i x []) →
  ∀ i new e, for_index body i xs [] = Ok new → e ∈ new →
  ∃ k x n, xs !! k = Some x ∧ body (i + k) x [] = Ok n ∧ e ∈ n.
Proof.
  intros Hbody. induction xs as [|x xs IH]; intros i new e; simpl.
  - intros [= <-] ?%elem_of_nil. done.
  - intros (n & Hx & Hrest)%bind_Ok He.
    rewrite for_index_appends in Hrest by done.
    destruct (for_index body (S i) xs []) as [new'|] eqn:Hxs; [|done]. injection Hrest as <-.
    apply elem_of_app in He as [He|He].
    + exists 0, x, n. rewrite Nat.add_0_r. by split_and!.
    + destruct (IH _ _ _ Hxs He) as (k & x' & n' & Hk & Hb & Hn').
      exists (S k), x', n'. replace (i + S k) with (S i + k) by lia. by split_and!.
Qed.

Lemma user_string_from_record i entry e : e ∈ user_string i entry → from_record i entry e.
Proof.
  unfold user_string. repeat case_match; try by intros ?%elem_of_nil.
  by intros ->%list_elem_of_singleton.
Qed.

Lemma timeline_entry_sources i entry new e :
  timeline_entry JSON_stringify i entry [] = Ok new → e ∈ new →
  nullish entry = false ∧ eligible entry = true ∧ from_record i entry e ∧ derived_from JSON_stringify i entry e.
Proof.
  intros Hnew He. pose proof (timeline_entry_Ok _ _ _ _ Hnew) as Hentry.
  rewrite timeline_entry_eq in Hnew by done.
  destruct (eligible entry); [|injection Hnew as <-; by apply elem_of_nil in He].
  split_and!; [done..| |];
    apply bind_Ok in Hnew as (new1 & Hnew1 & Hnew);
    apply bind_Ok in Hnew as (new2 & Hnew2 & [= <-]);
    rewrite for_of_appends in Hnew2 by apply user_block_appends;
    destruct (for_of _ (blocks_of "user" entry) []) as [new2'|] eqn:Hnew2'; try done;
    injection Hnew2 as <-;
    apply elem_of_app in He as [[He|He]%elem_of_app|He].
  - destruct (for_of_sources _ _ (assistant_block_appends i entry) _ _ Hnew1 He)
      as (block & n & _ & Hn & Hen).
    destruct (assistant_block_new _ _ _ _ Hn) as [->|(e' & -> & He')];
      [by apply elem_of_nil in Hen|]. by apply list_elem_of_singleton in Hen as ->.
  - destruct (for_of_sources _ _ (user_block_appends i entry) _ _ Hnew2' He)
      as (block & n & _ & Hn & Hen).
    destruct (user_block_new _ _ _ _ Hn) as [->|(e' & -> & He')];
      [by apply elem_of_nil in Hen|]. by apply list_elem_of_singleton in Hen as ->.
  - by apply user_string_from_record.
  - destruct (for_of_sources _ _ (assistant_block_appends i entry) _ _ Hnew1 He)
      as (block & n & Hin & Hn & Hen).
    destruct (assistant_block_new _ _ _ _ Hn) as [->|(e' & -> & He')];
      [by apply elem_of_nil in Hen|]. apply list_elem_of_singleton in Hen as ->.
    left. by exists block.
  - destruct (for_of_sources _ _ (user_block_appends i entry) _ _ Hnew2' He)
      as (block & n & Hin & Hn & Hen).
    destruct (user_block_new _ _ _ _ Hn) as [->|(e' & -> & He')];
      [by apply elem_of_nil in Hen|]. apply list_elem_of_singleton in Hen as ->.
    right; left. by exists block.
  - by right; right.
Qed.

(** Every entry of the timeline comes from the record at its line index. *)
Lemma timeline_sources lines timeline e :
  buildSessionTimeline JSON_stringify lines = Ok timeline → e ∈ timeline →
  ∃ entry,
    lines !! lineIndex e = Some entry ∧ nullish entry = false ∧ eligible entry = true ∧
    timestamp e = field entry "timestamp" ∧ derived_from JSON_stringify (lineIndex e) entry e.
Proof.
  unfold buildSessionTimeline. intros Htl He.
  destruct (for_index_sources _ _ timeline_entry_appends _ _ _ Htl He)
    as (k & entry & n & Hk & Hn & Hen). simpl in Hn.
  destruct (timeline_entry_sources _ _ _ _ Hn Hen) as (Hentry & Helig & [Hidx Hts] & Hfrom).
  exists entry. by rewrite Hidx.
Qed.

Lemma noise_block_skipped i entry timeline block :
  nullish entry = false → is_noise entry block = true →
  assistant_block JSON_stringify i entry timeline block = Ok timeline ∧
  user_block i entry timeline block = Ok timeline.
Proof.
  intros He Hnoise. unfold is_noise in Hnoise.
  assert (nullish block = false) as Hb.
  { destruct block; try done. }
  unfold assistant_block, user_block. read_fields.
  destruct (field block "type") as [| | | |type| |]; try done. simpl in *.
  apply orb_true_iff in Hnoise as [Hthink|[Hres Hside]%andb_true_iff].
  - rewrite Hthink. apply String.eqb_eq in Hthink as ->. done.
  - apply String.eqb_eq in Hres as ->. simpl. apply negb_true_iff in Hside. by rewrite Hside.
Qed.

(** Dropping the noise blocks of a record changes nothing. *)
Lemma noise_blocks_dropped {A} (body : list A → value → result (list A)) entry blocks :
  (∀ timeline block, is_noise entry block = true → body timeline block = Ok timeline) →
  ∀ timeline,
    for_of body (filter (λ block, is_noise entry block = false) blocks) timeline
    = for_of body blocks timeline.
Proof.
  intros Hnoise. induction blocks as [|block blocks IH]; intros timeline; [done|].
  rewrite filter_cons. simpl. destruct (is_noise entry block) eqn:Hb.
  - rewrite decide_False by done. rewrite (Hnoise _ _ Hb). simpl. apply IH.
  - rewrite decide_True by done. simpl. destruct (body timeline block); simpl; [apply IH|done].
Qed.

(** What the tests of the Timeline Builder pass over: the loop bodies leave
    the timeline as it is on an internal-reasoning block and on a tool
    result of a record without [toolUseResult]; every entry of a timeline
    comes from a record's string content or from one block that is of
    neither kind; and dropping the blocks of these kinds from a record,
    however many they are, gives the same timeline. *)
Lemma passed_over_blocks :
  (∀ i entry timeline block,
     nullish entry = false → is_noise entry block = true →
     assistant_block JSON_stringify i entry timeline block = Ok timeline ∧
     user_block i entry timeline block = Ok timeline)
  ∧
  (∀ lines timeline e,
     buildSessionTimeline JSON_stringify lines = Ok timeline → e ∈ timeline →
     ∃ entry,
       lines !! lineIndex e = Some entry ∧
       ((∃ block, block ∈ blocks_of "assistant" entry ∧ is_noise entry block = false ∧
                  assistant_block JSON_stringify (lineIndex e) entry [] block = Ok [e])
        ∨ (∃ block, block ∈ blocks_of "user" entry ∧ is_noise entry block = false ∧
                    user_block (lineIndex e) entry [] block = Ok [e])
        ∨ e ∈ user_string (lineIndex e) entry))
  ∧
  (∀ i entry timeline blocks,
     nullish entry = false →
     for_of (assistant_block JSON_stringify i entry)
       (filter (λ block, is_noise entry block = false) blocks) timeline
     = for_of (assistant_block JSON_stringify i entry) blocks timeline ∧
     for_of (user_block i entry)
       (filter (λ block, is_noise entry block = false) blocks) timeline
     = for_of (user_block i entry) blocks timeline).
Proof.
  split; [apply noise_block_skipped|]. split.
  2: { intros i entry timeline blocks He.
       split; apply noise_blocks_dropped; intros tl block Hb;
         by destruct (noise_block_skipped i entry tl block He Hb). }
  intros lines timeline e Htl He.
  destruct (timeline_sources _ _ _ Htl He) as (entry & Hentry & Hnn & _ & _ & Hfrom).
  exists entry. split; [done|].
  destruct Hfrom as [(block & Hin & Hb)|[(block & Hin & Hb)|Hs]].
  - left. exists block. split_and!; [done| |done].
    destruct (is_noise entry block) eqn:Hnoise; [|done].
    destruct (noise_block_skipped (lineIndex e) entry [] block Hnn Hnoise) as [H _]. congruence.
  - right; left. exists block. split_and!; [done| |done].
    destruct (is_noise entry block) eqn:Hnoise; [|done].
    destruct (noise_block_skipped (lineIndex e) entry [] block Hnn Hnoise) as [_ H]. congruence.
  - by right; right.
Qed.

(** *** The entries of one record *)

Lemma same_index_sorted i (l : list timelineEntry) :
  Forall (λ e, lineIndex e = i) l →
  StronglySorted (λ a b, lineIndex a ≤ lineIndex b) l.
Proof.
  induction 1 as [|e l He Hl IH]; constructor; [done|].
  eapply Forall_impl; [exact Hl|]. simpl. intros. lia.
Qed.

Lemma timeline_entry_indices i entry new :
  timeline_entry JSON_stringify i entry [] = Ok new → Forall (λ e, lineIndex e = i) new.
Proof.
  intros Hnew. apply Forall_forall. intros e He.
  by destruct (timeline_entry_sources _ _ _ _ Hnew He) as (_ & _ & [? _] & _).
Qed.

Lemma timeline_order lines : ∀ i timeline,
  for_index (timeline_entry JSON_stringify) i lines [] = Ok timeline →
  StronglySorted (λ a b, lineIndex a ≤ lineIndex b) timeline
  ∧ Forall (λ e, i ≤ lineIndex e < i + length lines) timeline.
Proof.
  induction lines as [|entry lines IH]; intros i timeline; simpl.
  - intros [= <-]. split; constructor.
  - intros (n & Hn & Hrest)%bind_Ok.
    rewrite for_index_appends in Hrest by apply timeline_entry_appends.
    destruct (for_index _ (S i) lines []) as [rest|] eqn:Hlines; [|done].
    injection Hrest as <-. destruct (IH _ _ Hlines) as [Hsorted Hbounds].
    pose proof (timeline_entry_indices _ _ _ Hn) as Hi.
    rewrite Forall_forall in Hi, Hbounds. split.
    + apply StronglySorted_app_2; [|by apply (same_index_sorted i), Forall_forall|done].
      intros e1 e2 ?%Hi ?%Hbounds. lia.
    + apply Forall_app. split; apply Forall_forall.
      * intros e ?%Hi. lia.
      * intros e ?%Hbounds. lia.
Qed.


Lemma filter_all {A} (P : A → Prop) `{∀ x, Decision (P x)} (l : list A) :
  (∀ x, x ∈ l → P x) → filter P l = l.
Proof.
  induction l as [|x l IH]; intros Hl; [done|].
  rewrite filter_cons_True by (apply Hl; by left). f_equal. apply IH.
  intros y Hy. apply Hl. by right.
Qed.

(** The entries of the timeline with the position [k] are what the loop body
    appends for the record at [k]. *)
Lemma timeline_of_record lines : ∀ i0 timeline k entry,
  for_index (timeline_entry JSON_stringify) i0 lines [] = Ok timeline →
  lines !! k = Some entry →
  timeline_entry JSON_stringify (i0 + k) entry []
  = Ok (filter (λ e, lineIndex e = i0 + k) timeline).
Proof.
  induction lines as [|x lines IH]; intros i0 timeline k entry; simpl; [done|].
  intros (n & Hn & Hrest)%bind_Ok Hk.
  rewrite for_index_appends in Hrest by apply timeline_entry_appends.
  destruct (for_index _ (S i0) lines []) as [rest|] eqn:Hlines; [|done].
  injection Hrest as <-. rewrite filter_app.
  pose proof (timeline_entry_indices _ _ _ Hn) as Hi.
  destruct (timeline_order _ _ _ Hlines) as [_ Hbounds].
  rewrite Forall_forall in Hi, Hbounds.
  destruct k as [|k]; simpl in Hk.
  - injection Hk as <-. rewrite Nat.add_0_r.
    rewrite (filter_all _ n) by done.
    rewrite (filter_none _ rest), app_nil_r; [done|].
    intros e ?%Hbounds. lia.
  - rewrite (filter_none _ n) by (intros e ?%Hi; lia). simpl.
    replace (i0 + S k) with (S i0 + k) by lia. by apply IH.
Qed.

(** What an appending loop returns is what its steps append, one after the
    other. *)
Lemma for_of_concat {A B} (body : list B → A → result (list B)) (xs : list A) :
  (∀ s x, body s x = (λ new, s ++ new) <$> body [] x) →
  ∀ new, for_of body xs [] = Ok new →
  ∃ parts, Forall2 (λ x n, body [] x = Ok n) xs parts ∧ new = concat parts.
Proof.
  intros Hbody. induction xs as [|x xs IH]; intros new; simpl.
  - intros [= <-]. exists []. by split.
  - intros (n & Hx & Hrest)%bind_Ok.
    rewrite for_of_appends in Hrest by done.
    destruct (for_of body xs []) as [new'|] eqn:Hxs; [|done]. injection Hrest as <-.
    destruct (IH _ eq_refl) as (parts & Hparts & ->).
    exists (n :: parts). split; [by constructor|done].
Qed.

Lemma filter_concat_parts {A B} (Q : B → Prop) `{∀ e, Decision (Q e)} (f : A → list B)
    (S : A → list B → Prop) (xs : list A) (parts : list (list B)) :
  Forall2 S xs parts → (∀ x n, S x n → filter Q n = f x) →
  filter Q (concat parts) = concat (f <$> xs).
Proof.
  intros Hparts HS. induction Hparts as [|x n xs parts Hx _ IH]; [done|].
  simpl. by rewrite filter_app, (HS _ _ Hx), IH.
Qed.

Lemma Forall2_filter_concat {A B} (P : A → Prop) `{∀ x, Decision (P x)}
    (Q : B → Prop) `{∀ e, Decision (Q e)} (R : A → B → Prop)
    (S : A → list B → Prop) (xs : list A) (parts : list (list B)) :
  Forall2 S xs parts →
  (∀ x n, S x n → P x → ∃ e, filter Q n = [e] ∧ R x e) →
  (∀ x n, S x n → ¬ P x → filter Q n = []) →
  Forall2 R (filter P xs) (filter Q (concat parts)).
Proof.
  intros Hparts Hyes Hno. induction Hparts as [|x n xs parts Hx _ IH]; [constructor|].
  simpl. rewrite filter_app, filter_cons. destruct (decide (P x)) as [HP|HP].
  - destruct (Hyes _ _ Hx HP) as (e & -> & HR). simpl. by constructor.
  - by rewrite (Hno _ _ Hx HP).
Qed.

(** The entries of the record at position [i], by their three sources. *)
Lemma timeline_record_parts lines timeline i entry :
  buildSessionTimeline JSON_stringify lines = Ok timeline →
  lines !! i = Some entry →
  nullish entry = false ∧
  if eligible entry then
    ∃ parts1 parts2,
      Forall2 (λ block n, assistant_block JSON_stringify i entry [] block = Ok n)
        (blocks_of "assistant" entry) parts1 ∧
      Forall2 (λ block n, user_block i entry [] block = Ok n)
        (blocks_of "user" entry) parts2 ∧
      filter (λ e, lineIndex e = i) timeline
      = concat parts1 ++ concat parts2 ++ user_string i entry
  else filter (λ e, lineIndex e = i) timeline = [].
Proof.
  unfold buildSessionTimeline. intros Htl Hi.
  pose proof (timeline_of_record _ _ _ _ _ Htl Hi) as Hrec. simpl in Hrec.
  pose proof (timeline_entry_Ok _ _ _ _ Hrec) as Hentry. split; [done|].
  rewrite timeline_entry_eq in Hrec by done.
  destruct (eligible entry); [|by injection Hrec as <-].
  apply bind_Ok in Hrec as (new1 & Hnew1 & Hrec).
  apply bind_Ok in Hrec as (new2 & Hnew2 & [= Hrec]).
  rewrite for_of_appends in Hnew2 by apply user_block_appends.
  destruct (for_of _ (blocks_of "user" entry) []) as [new2'|] eqn:Hnew2'; [|done].
  injection Hnew2 as <-.
  destruct (for_of_concat _ _ (assistant_block_appends i entry) _ Hnew1) as (parts1 & H1 & ->).
  destruct (for_of_concat _ _ (user_block_appends i entry) _ Hnew2') as (parts2 & H2 & ->).
  exists parts1, parts2. split_and!; [done..|]. by rewrite <- Hrec, <- app_assoc.
Qed.

(** C4, as the code has it.  A record without a timestamp gives no timeline
    entry and does not make the Timeline Builder fail: the loop body skips
    it, no entry of a timeline has its position, and every entry of a
    timeline carries the timestamp of the record at its line index, which
    has one.  The Correlator does not consult timestamps: removing the
    timestamps of all records changes nothing in what it does but the two
    timestamps of each pair, which are then undefined; so two record
    sequences that differ in timestamps only give the same pairs, timestamps
    apart, or fail together. *)
Theorem timestampless_record_skipped_by_timeline :
  (∀ i entry timeline,
     nullish entry = false → truthy (field entry "timestamp") = false →
     timeline_entry JSON_stringify i entry timeline = Ok timeline)
  ∧
  (∀ lines timeline i entry,
     buildSessionTimeline JSON_stringify lines = Ok timeline →
     lines !! i = Some entry → truthy (field entry "timestamp") = false →
     filter (λ e, lineIndex e = i) timeline = [])
  ∧
  (∀ lines timeline e,
     buildSessionTimeline JSON_stringify lines = Ok timeline → e ∈ timeline →
     ∃ entry,
       lines !! lineIndex e = Some entry ∧
       truthy (field entry "timestamp") = true ∧
       timestamp e = field entry "timestamp")
  ∧
  (∀ lines,
     extractQAPairs (without_timestamp <$> lines) = untimed_pairs <$> extractQAPairs lines)
  ∧
  (∀ lines lines',
     without_timestamp <$> lines = without_timestamp <$> lines' →
     untimed_pairs <$> extractQAPairs lines = untimed_pairs <$> extractQAPairs lines').
Proof.
  split_and!.
  - intros i entry timeline He Hts. rewrite timeline_entry_eq by done.
    unfold eligible. rewrite Hts. by rewrite andb_false_r.
  - intros lines timeline i entry Htl Hi Hts.
    destruct (timeline_record_parts _ _ _ _ Htl Hi) as [_ Hparts].
    unfold eligible in Hparts. by rewrite Hts, andb_false_r in Hparts.
  - intros lines timeline e Htl He.
    destruct (timeline_sources _ _ _ Htl He) as (entry & Hentry & _ & Helig & Hts & _).
    exists entry. split_and!; [done| |done].
    unfold eligible in Helig. by apply andb_true_iff in Helig as [[_ ?]%andb_true_iff _].
  - apply extractQAPairs_untimed.
  - intros lines lines' Hsame. by rewrite <- !extractQAPairs_untimed, Hsame.
Qed.

End TimelineProperties.

(** C5.  The Timeline Builder never emits an entry for an
    internal-reasoning block, and none for a tool result of a record without
    [toolUseResult]; however many such blocks a record holds, dropping them
    gives the same timeline.  It does emit an entry for a tool result that
    belongs to no structured-question response when the record of the
    result carries a [toolUseResult], as the record of the result of a shell
    command does: that result answers no request, the Correlator makes no
    pair for it, and the timeline shows it as an answer of the user. *)
Theorem noise_blocks_never_in_timeline :
  (∀ (JSON_stringify : value → string) lines timeline e,
     buildSessionTimeline JSON_stringify lines = Ok timeline → e ∈ timeline →
     ∃ entry,
       lines !! lineIndex e = Some entry ∧
       ((∃ block, block ∈ blocks_of "assistant" entry ∧ is_noise entry block = false ∧
                  assistant_block JSON_stringify (lineIndex e) entry [] block = Ok [e])
        ∨ (∃ block, block ∈ blocks_of "user" entry ∧ is_noise entry block = false ∧
                    user_block (lineIndex e) entry [] block = Ok [e])
        ∨ e ∈ user_string (lineIndex e) entry))
  ∧
  (∀ (JSON_stringify : value → string) i entry timeline blocks,
     nullish entry = false →
     for_of (assistant_block JSON_stringify i entry)
       (filter (λ block, is_noise entry block = false) blocks) timeline
     = for_of (assistant_block JSON_stringify i entry) blocks timeline ∧
     for_of (user_block i entry)
       (filter (λ block, is_noise entry block = false) blocks) timeline
     = for_of (user_block i entry) blocks timeline)
  ∧
  (buildSessionTimeline no_serializer bash_lines
   = Ok [ tool_use (VStr "2025-01-01T10:00:00.000Z") (VStr "Bash") (VStr "ls") 0;
          user_answer (VStr "2025-01-01T10:00:02.000Z") (VStr "bash-1") (VObj ∅) 1 ]
   ∧ build_toolUseMap bash_lines = Ok ∅
   ∧ extractQAPairs bash_lines = Ok []).
Proof.
  split; [|split].
  - intros JSON_stringify. apply (passed_over_blocks JSON_stringify).
  - intros JSON_stringify. apply (passed_over_blocks JSON_stringify).
  - split_and!; vm_compute; reflexivity.
Qed.

(** C4 as stated fails: the Correlator pairs a request and a response whose
    records have no timestamp. *)
Lemma undated_records_are_paired :
  extractQAPairs undated_lines =
    Ok [ Pair.mk (VArr [question "Proceed?"]) (obj [("Proceed?", VStr "Yes")])
           VUndef VUndef 0 1 (VStr "X") ]
  ∧ Forall (λ entry, field entry "timestamp" = VUndef) undated_lines.
Proof. split; [vm_compute; reflexivity|repeat constructor]. Qed.

Example noisy_timeline :
  buildSessionTimeline no_serializer noisy_lines
  = Ok [assistant_text (VStr "2025-01-01T10:00:00.000Z") "Hello there" 0].
Proof. vm_compute. reflexivity. Qed.

Lemma timestampless_record_skipped_by_timeline_witness :
  (nullish (VObj ∅) = false ∧ truthy (field (VObj ∅) "timestamp") = false ∧
   timeline_entry no_serializer 2 (VObj ∅) [] = Ok [])
  ∧ filter (λ e, lineIndex e = 2)
      [assistant_text (VStr "2025-01-01T10:00:00.000Z") "Hello there" 0] = []
  ∧ (∃ entry, noisy_lines !! 0 = Some entry ∧
              truthy (field entry "timestamp") = true ∧
              VStr "2025-01-01T10:00:00.000Z" = field entry "timestamp")
  ∧ extractQAPairs (without_timestamp <$> sample_lines)
    = Ok [ Pair.mk (VArr [question "Color?"]) (obj [("Color?", VStr "blue")])
             VUndef VUndef 1 2 (VStr "Y");
           Pair.mk (VArr [question "Proceed?"]) (obj [("Proceed?", VStr "Yes")])
             VUndef VUndef 0 3 (VStr "X") ].
Proof.
  assert (H1 : nullish (VObj ∅) = false) by reflexivity.
  assert (H2 : truthy (field (VObj ∅) "timestamp") = false) by reflexivity.
  assert (H3 : assistant_text (VStr "2025-01-01T10:00:00.000Z") "Hello there" 0
               ∈ [assistant_text (VStr "2025-01-01T10:00:00.000Z") "Hello there" 0]) by left.
  assert (H4 : noisy_lines !! 2
               = Some (obj [("type", VStr "user");
                            ("message", obj [("content", VStr "An undated remark")])]))
    by reflexivity.
  assert (H5 : truthy (field (obj [("type", VStr "user");
                                   ("message", obj [("content", VStr "An undated remark")])])
                         "timestamp") = false) by (vm_compute; reflexivity).
  destruct (timestampless_record_skipped_by_timeline no_serializer) as (T1 & T2 & T3 & T4 & _).
  split; [|split; [|split]].
  - exact (conj H1 (conj H2 (T1 2 _ [] H1 H2))).
  - exact (T2 _ _ _ _ noisy_timeline H4 H5).
  - exact (T3 _ _ _ noisy_timeline H3).
  - rewrite T4, sample_pairs. vm_compute. reflexivity.
Defined.

Lemma is_str_true v lit : is_str v lit = true → v = VStr lit.
Proof. destruct v; try done. simpl. by intros ->%String.eqb_eq. Qed.

Lemma stripTags_or_empty s : stripTags (or_else (VStr s) (VStr "")) = Ok (cleaned_of s).
Proof. unfold or_else. by destruct s. Qed.

Lemma textual_cases v :
  textual v = true →
  (truthy v = false ∧ text_of v = None) ∨ (∃ s, v = VStr s ∧ truthy v = true ∧ text_of v = Some s).
Proof.
  destruct v as [| |b|r|s|l|f]; simpl; try (by left); try done.
  - intros ->%negb_true_iff. by left.
  - intros ->%negb_true_iff. by left.
  - intros _. destruct (String.eqb s ""); simpl; [by left|right; by exists s].
Qed.

Section ToolSummary.

Variable JSON_stringify : value → string.

Lemma summarizeToolInput_by_priority block :
  truthy (field block "input") = true →
  forallb (λ f, textual (field (field block "input") f.1)) summary_fields = true →
  summarizeToolInput JSON_stringify block
  = Ok (VStr (summary_by_priority JSON_stringify (field block "input"))).
Proof.
  intros Hinput Hfields.
  assert (nullish block = false) as Hb by (by destruct block).
  pose proof (truthy_not_nullish _ Hinput) as Hi.
  unfold summarizeToolInput, summary_by_priority. read_fields. rewrite Hinput. read_fields.
  simpl in Hfields. rewrite !andb_true_iff in Hfields.
  destruct Hfields as (H1 & H2 & H3 & H4 & H5 & H6 & _).
  destruct (textual_cases _ H1) as [[-> ->]|(s & Hs & -> & ->)]; [|by rewrite Hs].
  destruct (textual_cases _ H2) as [[-> ->]|(s & Hs & -> & ->)]; [|by rewrite Hs].
  destruct (textual_cases _ H3) as [[-> ->]|(s & Hs & -> & ->)]; [|by rewrite Hs].
  destruct (textual_cases _ H4) as [[-> ->]|(s & Hs & -> & ->)]; [|by rewrite Hs].
  destruct (textual_cases _ H5) as [[-> ->]|(s & Hs & -> & ->)]; [|by rewrite Hs].
  destruct (textual_cases _ H6) as [[-> ->]|(s & Hs & -> & ->)]; [|by rewrite Hs].
  done.
Qed.

End ToolSummary.

Section TimelineEntries.

Variable JSON_stringify : value → string.

Lemma summary_cut_length input :
  text_of (field input "file_path") = None →
  text_of (field input "pattern") = None →
  text_of (field input "url") = None →
  String.length (summary_by_priority JSON_stringify input) ≤ 120.
Proof.
  intros Hpath Hpattern Hurl. unfold summary_by_priority. simpl.
  rewrite Hpath, Hpattern, Hurl.
  repeat case_match; simpl; apply slice0_length.
Qed.

(** What one block of an assistant record appends: the narrative turn of a
    text block, the tool call of a tool invocation, the entry of a request,
    or nothing. *)
Lemma assistant_block_cases i entry block n :
  nullish entry = false →
  assistant_block JSON_stringify i entry [] block = Ok n →
  filter (λ e, is_narrative e = true) n = assistant_narrative i entry block ∧
  (is_tool_call block = true →
     ∃ snippet,
       summarizeToolInput JSON_stringify block = Ok snippet ∧
       n = [tool_use (field entry "timestamp") (field block "name") snippet i]) ∧
  (is_tool_call block = false → filter (λ e, is_tool_entry e = true) n = []).
Proof.
  intros He Hn.
  assert (nullish block = false) as Hb.
  { unfold assistant_block in Hn. by apply bind_Ok in Hn as (? & [? _]%get_Ok_field & _). }
  revert Hn. unfold assistant_block, assistant_narrative, text_entry, is_tool_call.
  read_fields.
  destruct (is_str (field block "type") "thinking") eqn:Hthinking.
  { apply is_str_true in Hthinking. rewrite Hthinking. by intros [= <-]. }
  destruct (is_str (field block "type") "text") eqn:Htext.
  - apply is_str_true in Htext. rewrite Htext. simpl. read_fields.
    destruct (field block "text") as [| | | |s| |]; simpl; try done;
      try (by intros [= <-]).
    destruct (String.eqb_spec (trim s) "") as [Hblank|Hblank]; simpl.
    + intros [= <-]. unfold cleaned_of. by rewrite (trim_empty_cleaned _ Hblank).
    + rewrite stripTags_VStr. simpl. rewrite andb_true_r.
      destruct (String.length (cleaned_of s)) as [|[|[|len]]]; simpl;
        by intros [= <-].
  - simpl. destruct (is_str (field block "type") "tool_use") eqn:Htool; simpl.
    + read_fields. destruct (is_str (field block "name") "AskUserQuestion"); simpl.
      * read_fields. by intros [= <-].
      * destruct (summarizeToolInput JSON_stringify block) as [snippet|]; simpl; [|done].
        read_fields. intros [= <-]. split_and!; [done| |done]. intros _. by exists snippet.
    + by intros [= <-].
Qed.

(** What one block of a user record appends: the narrative turn of a text
    block, the entry of an answer, or nothing. *)
Lemma user_block_cases i entry block n :
  nullish entry = false →
  user_block i entry [] block = Ok n →
  filter (λ e, is_narrative e = true) n = user_narrative i entry block ∧
  filter (λ e, is_tool_entry e = true) n = [].
Proof.
  intros He Hn.
  assert (nullish block = false) as Hb.
  { unfold user_block in Hn. by apply bind_Ok in Hn as (? & [? _]%get_Ok_field & _). }
  revert Hn. unfold user_block, user_narrative, text_entry. read_fields.
  destruct (is_str (field block "type") "text") eqn:Htext.
  - read_fields. unfold or_else.
    destruct (truthy (field block "text")) eqn:Htruthy.
    + destruct (field block "text") as [| | | |s| |];
        try (unfold stripTags; rewrite Htruthy; simpl; done).
      rewrite stripTags_VStr. simpl.
      destruct (String.length (cleaned_of s)) as [|[|[|len]]]; simpl;
        try (by intros [= <-]).
      destruct (is_boilerplate (cleaned_of s)); simpl; [by intros [= <-]|].
      read_fields. by intros [= <-].
    + simpl. intros [= <-]. split; [|done].
      destruct (field block "text") as [| | | |s| |]; try done.
      simpl in Htruthy. by apply negb_false_iff, String.eqb_eq in Htruthy as ->.
  - destruct (is_str (field block "type") "tool_result"); [|by intros [= <-]].
    read_fields. destruct (truthy (field entry "toolUseResult")) eqn:Hside; [|by intros [= <-]].
    read_fields. pose proof (truthy_not_nullish _ Hside). read_fields. by intros [= <-].
Qed.

Lemma user_string_narrative i entry :
  filter (λ e, is_narrative e = true) (user_string i entry) = user_string i entry ∧
  filter (λ e, is_tool_entry e = true) (user_string i entry) = [].
Proof. unfold user_string. by repeat case_match. Qed.

Lemma concat_fmap_nil {A B} (l : list A) : concat ((λ _, @nil B) <$> l) = [].
Proof. induction l as [|x l IH]; [done|]. by rewrite fmap_cons. Qed.

Lemma filter_and_comm {A} (P Q : A → Prop) `{∀ x, Decision (P x)} `{∀ x, Decision (Q x)}
    (l : list A) :
  filter (λ x, P x ∧ Q x) l = filter Q (filter P l).
Proof. rewrite list_filter_filter. apply list_filter_iff. tauto. Qed.

(** C8, as the code has it.  In a record with a message and a timestamp,
    the tool-call entries of the timeline are those of the tool-invocation
    blocks of the assistant record that are not of the structured-question
    kind, one for each and in their order.  The entry carries the
    timestamp of the record, the name of the tool and a summary, which is
    empty when the block has no arguments and is otherwise (the fields being
    strings, when present) taken from the first non-empty field among
    command text, file path, search pattern, query text, URL and literal
    content, in that order, else from the serialization of the arguments.
    The command, the query, the content and the serialization are cut to 120
    characters; a file path and a URL are shown whole, and a search pattern
    is shown whole after [pattern: ]. *)
Theorem tool_call_summary_by_priority
    (lines : list value) (timeline : list timelineEntry) (i : nat) (entry : value) :
  buildSessionTimeline JSON_stringify lines = Ok timeline →
  lines !! i = Some entry →
  eligible entry = true →
  Forall2
    (λ block e,
       ∃ snippet,
         e = tool_use (field entry "timestamp") (field block "name") snippet i ∧
         summarizeToolInput JSON_stringify block = Ok snippet ∧
         (truthy (field block "input") = false → snippet = VStr "") ∧
         (truthy (field block "input") = true →
          forallb (λ f, textual (field (field block "input") f.1)) summary_fields = true →
          snippet = VStr (summary_by_priority JSON_stringify (field block "input")) ∧
          (text_of (field (field block "input") "file_path") = None →
           text_of (field (field block "input") "pattern") = None →
           text_of (field (field block "input") "url") = None →
           String.length (summary_by_priority JSON_stringify (field block "input")) ≤ 120)))
    (filter (λ block, is_tool_call block = true) (blocks_of "assistant" entry))
    (filter (λ e, lineIndex e = i ∧ is_tool_entry e = true) timeline).
Proof.
  intros Htl Hi Helig.
  destruct (timeline_record_parts _ _ _ _ _ Htl Hi) as [Hentry Hparts].
  rewrite Helig in Hparts. destruct Hparts as (parts1 & parts2 & H1 & H2 & Hrec).
  rewrite filter_and_comm, Hrec, !filter_app.
  rewrite (filter_concat_parts _ (λ _, []) _ _ _ H2).
  2: { intros block n Hn. by destruct (user_block_cases _ _ _ _ Hentry Hn). }
  rewrite (proj2 (user_string_narrative i entry)), app_nil_r.
  rewrite concat_fmap_nil, app_nil_r.
  eapply Forall2_filter_concat; [exact H1| |].
  - intros block n Hn Hcall.
    destruct (assistant_block_cases _ _ _ _ Hentry Hn) as (_ & Hyes & _).
    destruct (Hyes Hcall) as (snippet & Hsnippet & ->).
    eexists. split; [done|]. exists snippet. split_and!; [done|done| |].
    + intros Hinput. assert (nullish block = false) as Hb by (by destruct block).
      revert Hsnippet. unfold summarizeToolInput. read_fields. rewrite Hinput. simpl.
      by intros [= <-].
    + intros Hinput Hfields.
      rewrite (summarizeToolInput_by_priority _ _ Hinput Hfields) in Hsnippet.
      injection Hsnippet as <-. split; [done|]. apply summary_cut_length.
  - intros block n Hn Hcall%not_true_is_false.
    by destruct (assistant_block_cases _ _ _ _ Hentry Hn) as (_ & _ & Hno); apply Hno.
Qed.

(** C9, as the code has it.  The narrative turns the timeline holds for a
    record with a message and a timestamp are, in this order: for each text
    block of an assistant record whose cleaned text (tags removed, trimmed)
    has at least 3 characters, one entry with that text; for each text block
    of a user record whose cleaned text has at least 3 characters and does
    not start, letter case ignored, with one of the boilerplate prefixes, one
    entry with that text; and for the string content of a user record, one
    entry with its cleaned text when that has at least 3 characters.  A
    suppressed text gives no entry, and any other record gives none. *)
Theorem narrative_text_emitted_unless_trivial
    (lines : list value) (timeline : list timelineEntry) (i : nat) (entry : value) :
  buildSessionTimeline JSON_stringify lines = Ok timeline →
  lines !! i = Some entry →
  filter (λ e, lineIndex e = i ∧ is_narrative e = true) timeline
  = if eligible entry then
      concat (assistant_narrative i entry <$> blocks_of "assistant" entry)
      ++ concat (user_narrative i entry <$> blocks_of "user" entry)
      ++ user_string i entry
    else [].
Proof.
  intros Htl Hi.
  destruct (timeline_record_parts _ _ _ _ _ Htl Hi) as [Hentry Hparts].
  rewrite filter_and_comm.
  destruct (eligible entry); [|by rewrite Hparts].
  destruct Hparts as (parts1 & parts2 & H1 & H2 & ->). rewrite !filter_app.
  rewrite (filter_concat_parts _ (assistant_narrative i entry) _ _ _ H1).
  2: { intros block n Hn. by destruct (assistant_block_cases _ _ _ _ Hentry Hn). }
  rewrite (filter_concat_parts _ (user_narrative i entry) _ _ _ H2).
  2: { intros block n Hn. by destruct (user_block_cases _ _ _ _ Hentry Hn). }
  by rewrite (proj1 (user_string_narrative i entry)).
Qed.

End TimelineEntries.

(** C8 as stated fails: a file path longer than the display length is shown
    whole. *)
Lemma file_path_summary_not_cut :
  buildSessionTimeline no_serializer [read_record]
  = Ok [tool_use (VStr "2025-01-01T10:00:00.000Z") (VStr "Read") (VStr long_path) 0]
  ∧ 120 < String.length long_path.
Proof. split; [vm_compute; reflexivity|vm_compute; lia]. Qed.

Lemma tool_call_summary_by_priority_witness :
  Forall2
    (λ block e,
       ∃ snippet,
         e = tool_use (VStr "2025-01-01T10:00:00.000Z") (field block "name") snippet 0 ∧
         summarizeToolInput no_serializer block = Ok snippet ∧
         (truthy (field block "input") = false → snippet = VStr "") ∧
         (truthy (field block "input") = true →
          forallb (λ f, textual (field (field block "input") f.1)) summary_fields = true →
          snippet = VStr (summary_by_priority no_serializer (field block "input")) ∧
          (text_of (field (field block "input") "file_path") = None →
           text_of (field (field block "input") "pattern") = None →
           text_of (field (field block "input") "url") = None →
           String.length (summary_by_priority no_serializer (field block "input")) ≤ 120)))
    [read_block]
    [tool_use (VStr "2025-01-01T10:00:00.000Z") (VStr "Read") (VStr long_path) 0].
Proof.
  assert (Htl : buildSessionTimeline no_serializer [read_record]
                = Ok [tool_use (VStr "2025-01-01T10:00:00.000Z") (VStr "Read")
                        (VStr long_path) 0]) by (vm_compute; reflexivity).
  assert (Hi : [read_record] !! 0 = Some read_record) by reflexivity.
  assert (Helig : eligible read_record = true) by (vm_compute; reflexivity).
  exact (tool_call_summary_by_priority no_serializer _ _ 0 read_record Htl Hi Helig).
Defined.

(** C9 as stated fails: an assistant text that starts with a boilerplate
    prefix is emitted; the same text in a user record is suppressed. *)
Lemma assistant_boilerplate_text_emitted :
  is_boilerplate (cleaned_of "Today I fixed the parser.") = true
  ∧ buildSessionTimeline no_serializer [today_record "assistant"]
    = Ok [assistant_text (VStr "2025-01-01T10:00:00.000Z") "Today I fixed the parser." 0]
  ∧ buildSessionTimeline no_serializer [today_record "user"] = Ok [].
Proof. split_and!; vm_compute; reflexivity. Qed.

Lemma narrative_text_emitted_unless_trivial_witness :
  filter (λ e, lineIndex e = 0 ∧ is_narrative e = true)
    [assistant_text (VStr "2025-01-01T10:00:00.000Z") "Today I fixed the parser." 0]
  = [assistant_text (VStr "2025-01-01T10:00:00.000Z") "Today I fixed the parser." 0]
  ∧ filter (λ e, lineIndex e = 0 ∧ is_narrative e = true) ([] : list timelineEntry) = [].
Proof.
  assert (H1 : buildSessionTimeline no_serializer [today_record "assistant"]
               = Ok [assistant_text (VStr "2025-01-01T10:00:00.000Z")
                       "Today I fixed the parser." 0]) by (vm_compute; reflexivity).
  assert (H2 : buildSessionTimeline no_serializer [today_record "user"] = Ok [])
    by (vm_compute; reflexivity).
  split.
  - rewrite (narrative_text_emitted_unless_trivial no_serializer _ _ 0 _ H1 eq_refl).
    vm_compute. reflexivity.
  - rewrite (narrative_text_emitted_unless_trivial no_serializer _ _ 0 _ H2 eq_refl).
    vm_compute. reflexivity.
Defined.

(** ** Session Aggregator *)

Lemma group_of_snoc proj l s :
  group_of proj (l ++ [s]) =
  if decide (project_of s = proj)
  then Some (default [] (group_of proj l) ++ [s])
  else group_of proj l.
Proof.
  unfold group_of. rewrite filter_app, filter_cons, filter_nil.
  destruct (decide (project_of s = proj)); [|by rewrite app_nil_r].
  by destruct (filter _ l).
Qed.

Lemma group_sessions_spec rest : ∀ done grouped grouped',
  (∀ proj, grouped !! proj = group_of proj done) →
  for_of group_session rest grouped = Ok grouped' →
  ∀ proj, grouped' !! proj = group_of proj (done ++ rest).
Proof.
  induction rest as [|s rest IH]; intros done grouped grouped' Hdone; simpl.
  - intros [= <-] proj. by rewrite app_nil_r.
  - intros (g1 & Hs & Hrest)%bind_Ok proj.
    replace (done ++ s :: rest) with ((done ++ [s]) ++ rest) by by rewrite <- app_assoc.
    apply (IH _ g1); [|done]. clear IH Hrest proj. intros proj.
    rewrite group_of_snoc. unfold group_session in Hs. fold (project_of s) in Hs.
    rewrite Hdone in Hs. destruct (decide (project_of s = proj)) as [<-|Hne].
    + destruct (group_of (project_of s) done) as [group|] eqn:Hgroup.
      * injection Hs as <-. by rewrite lookup_insert_eq.
      * destruct (is_inherited _); [done|]. injection Hs as <-. by rewrite lookup_insert_eq.
    + destruct (group_of (project_of s) done) as [group|] eqn:Hgroup.
      * injection Hs as <-. by rewrite lookup_insert_ne, Hdone.
      * destruct (is_inherited _); [done|]. injection Hs as <-.
        by rewrite lookup_insert_ne, Hdone.
Qed.

Lemma group_sessions_total rest grouped :
  Forall (λ s, is_inherited (project_of s) = false) rest →
  ∃ grouped', for_of group_session rest grouped = Ok grouped'.
Proof.
  intros Hrest. apply for_of_total. intros g s Hs.
  eapply Forall_forall in Hrest; [|exact Hs].
  unfold group_session. fold (project_of s). rewrite Hrest.
  destruct (g !! project_of s); eauto.
Qed.

Lemma insert_by_perm {A} (cmp : A → A → result Z) x l : ∀ l',
  insert_by cmp x l = Ok l' → l' ≡ₚ x :: l.
Proof.
  induction l as [|y l IH]; intros l'; simpl.
  - by intros [= <-].
  - intros (c & _ & H)%bind_Ok. destruct (c <=? 0)%Z; [by injection H as <-|].
    destruct (insert_by cmp x l) as [rest|]; [|done]. injection H as <-.
    rewrite (IH rest eq_refl). apply Permutation_swap.
Qed.

Lemma Array_sort_perm {A} (cmp : A → A → result Z) l : ∀ l',
  Array_sort cmp l = Ok l' → l' ≡ₚ l.
Proof.
  induction l as [|x l IH]; intros l'; unfold Array_sort in *; simpl.
  - by intros [= <-].
  - intros (sorted & Hsorted & Hins)%bind_Ok.
    rewrite (insert_by_perm _ _ _ _ Hins). by rewrite (IH _ Hsorted).
Qed.

Lemma insert_by_total {A} (cmp : A → A → result Z) x l :
  (∀ y, y ∈ l → ∃ c, cmp x y = Ok c) → ∃ l', insert_by cmp x l = Ok l'.
Proof.
  induction l as [|y l IH]; intros Hcmp; simpl; [eauto|].
  destruct (Hcmp y) as [c ->]; [by left|]. simpl.
  destruct (c <=? 0)%Z; [eauto|].
  destruct IH as [rest ->]; [|simpl; eauto]. intros z Hz. apply Hcmp. by right.
Qed.

Lemma Array_sort_total {A} (cmp : A → A → result Z) l :
  (∀ x y, x ∈ l → y ∈ l → ∃ c, cmp x y = Ok c) → ∃ l', Array_sort cmp l = Ok l'.
Proof.
  induction l as [|x l IH]; intros Hcmp; unfold Array_sort in *; simpl; [eauto|].
  destruct IH as [sorted Hsorted].
  { intros y z Hy Hz. apply Hcmp; by right. }
  rewrite Hsorted. simpl. apply insert_by_total.
  intros y Hy. apply Hcmp; [by left|]. right.
  by rewrite <- (Array_sort_perm _ _ _ Hsorted).
Qed.

Lemma distinct_count (l : list string) :
  size (list_to_set l : gset string) = length (remove_dups l).
Proof.
  rewrite <- (size_list_to_set (C := gset string) (remove_dups l)) by apply NoDup_remove_dups.
  f_equal. apply set_eq. intros x. by rewrite !elem_of_list_to_set, elem_of_remove_dups.
Qed.

Lemma StronglySorted_filter_keeps {A} (R : relation A) (P : A → Prop) `{∀ x, Decision (P x)} l :
  StronglySorted R l → StronglySorted R (filter P l).
Proof.
  induction 1 as [|x l Hl IH Hx]; [constructor|].
  rewrite filter_cons. destruct (decide (P x)); [|done].
  constructor; [done|]. apply Forall_forall. intros y [_ Hy]%list_elem_of_filter.
  by eapply Forall_forall in Hx.
Qed.

Lemma group_session_Ok grouped s grouped' :
  (∀ proj, is_Some (grouped !! proj) → is_inherited proj = false) →
  group_session grouped s = Ok grouped' →
  is_inherited (project_of s) = false
  ∧ (∀ proj, is_Some (grouped' !! proj) → is_inherited proj = false).
Proof.
  intros Hkeys. unfold group_session. fold (project_of s).
  destruct (grouped !! project_of s) as [group|] eqn:Hgroup.
  - intros [= <-]. assert (is_inherited (project_of s) = false) as Hs
      by (apply Hkeys; by rewrite Hgroup).
    split; [done|]. intros proj. rewrite lookup_insert_is_Some'. intros [<-|?]; [done|by apply Hkeys].
  - destruct (is_inherited (project_of s)) eqn:Hs; [done|]. intros [= <-].
    split; [done|]. intros proj. rewrite lookup_insert_is_Some'. intros [<-|?]; [done|by apply Hkeys].
Qed.

Lemma group_sessions_throw rest : ∀ grouped,
  (∀ proj, is_Some (grouped !! proj) → is_inherited proj = false) →
  Exists (λ s, is_inherited (project_of s) = true) rest →
  for_of group_session rest grouped = Throw TypeError.
Proof.
  induction rest as [|s rest IH]; intros grouped Hkeys Hrest; [by apply Exists_nil in Hrest|].
  simpl. destruct (group_session grouped s) as [g1|[]] eqn:Hstep; simpl; [|done].
  destruct (group_session_Ok _ _ _ Hkeys Hstep) as [Hs Hkeys1].
  apply IH; [done|]. apply Exists_cons in Hrest as [?|?]; [congruence|done].
Qed.

Section AggregatorProperties.

Variable Date_getTime : value → option Z.

(** [new Date] returns exactly on the values that convert to a primitive. *)
Lemma start_ms_Ok s : start_ok s = true → ∃ t, start_ms Date_getTime s = Ok t.
Proof.
  unfold start_ok, start_ms, new_Date, convertible.
  destruct (Meta.startTime (Session.meta s)); try (by eauto);
    destruct (ToString _); simpl; by eauto.
Qed.

Lemma start_ms_Throw s : start_ok s = false → start_ms Date_getTime s = Throw TypeError.
Proof.
  unfold start_ok, start_ms, new_Date, convertible.
  destruct (Meta.startTime (Session.meta s)) as [| |[]| | | |]; try done;
    by destruct (ToString _) as [|[]].
Qed.

Lemma dated_start_ok s : dated Date_getTime s → start_ok s = true.
Proof.
  intros [t Ht]. destruct (start_ok s) eqn:Hs; [done|].
  by rewrite (start_ms_Throw _ Hs) in Ht.
Qed.

Lemma compare_start_Ok a b c :
  compare_start Date_getTime a b = Ok c → start_ok a = true ∧ start_ok b = true.
Proof.
  unfold compare_start. intros (tb & Hb & H)%bind_Ok. apply bind_Ok in H as (ta & Ha & _).
  split.
  - destruct (start_ok a) eqn:Hs; [done|]. by rewrite (start_ms_Throw _ Hs) in Ha.
  - destruct (start_ok b) eqn:Hs; [done|]. by rewrite (start_ms_Throw _ Hs) in Hb.
Qed.

Lemma compare_start_total a b :
  start_ok a = true → start_ok b = true → ∃ c, compare_start Date_getTime a b = Ok c.
Proof.
  intros [ta Ha]%start_ms_Ok [tb Hb]%start_ms_Ok. unfold compare_start.
  rewrite Hb. simpl. rewrite Ha. simpl. eauto.
Qed.

(** The sort returns when every start time converts. *)
Lemma sort_start_total l :
  Forall (λ s, start_ok s = true) l → ∃ l', Array_sort (compare_start Date_getTime) l = Ok l'.
Proof.
  intros Hl. apply Array_sort_total. intros x y Hx Hy.
  apply compare_start_total; by eapply Forall_forall in Hl.
Qed.

(** An array of fewer than two sessions is returned without a comparison. *)
Lemma sort_start_short l :
  length l ≤ 1 → Array_sort (compare_start Date_getTime) l = Ok l.
Proof. destruct l as [|x [|y l]]; simpl; [done|done|lia]. Qed.

(** In a longer one every session is compared, so every start time is
    converted. *)
Lemma sort_start_compared l : ∀ l',
  Array_sort (compare_start Date_getTime) l = Ok l' → 2 ≤ length l →
  Forall (λ s, start_ok s = true) l.
Proof.
  induction l as [|x l IH]; intros l'; [simpl; lia|].
  unfold Array_sort in *. simpl. intros (sorted & Hsorted & Hins)%bind_Ok Hlen.
  pose proof (Array_sort_perm _ _ _ Hsorted) as Hperm.
  destruct sorted as [|y rest].
  { apply Permutation_nil_l in Hperm. subst l. simpl in Hlen. lia. }
  simpl in Hins. apply bind_Ok in Hins as (c & [Hx Hy]%compare_start_Ok & _).
  constructor; [done|].
  destruct l as [|z [|z' l]]; [simpl in Hlen; lia| |].
  - apply Permutation_length in Hperm as Hl. destruct rest; [|simpl in Hl; lia].
    apply Permutation_singleton_l in Hperm. injection Hperm as ->. by constructor.
  - apply (IH _ Hsorted). simpl. lia.
Qed.

Lemma sort_start_throws l :
  Array_sort (compare_start Date_getTime) l = Throw TypeError
  ↔ 2 ≤ length l ∧ Exists (λ s, start_ok s = false) l.
Proof.
  split.
  - intros Hthrow. split.
    + destruct (decide (2 ≤ length l)) as [|Hshort]; [done|].
      rewrite sort_start_short in Hthrow by lia. done.
    + destruct (decide (Exists (λ s, start_ok s = false) l)) as [|Hnone]; [done|].
      destruct (sort_start_total l) as [l' Hl']; [|congruence].
      apply not_Exists_Forall in Hnone; [|apply _].
      eapply Forall_impl; [exact Hnone|]. intros s Hs. simpl in Hs.
      by destruct (start_ok s).
  - intros [Hlen (s & Hs & Hbad)%Exists_exists].
    destruct (Array_sort (compare_start Date_getTime) l) as [l'|[]] eqn:Hsort; [|done].
    pose proof (sort_start_compared _ _ Hsort Hlen) as Hall.
    eapply Forall_forall in Hall; [|exact Hs]. congruence.
Qed.

Lemma compare_start_dated a b ta tb :
  start_ms Date_getTime a = Ok (Some ta) → start_ms Date_getTime b = Ok (Some tb) →
  compare_start Date_getTime a b = Ok (tb - ta)%Z.
Proof. intros Ha Hb. unfold compare_start. rewrite Hb. simpl. by rewrite Ha. Qed.

Lemma insert_by_start_sorted x l :
  dated Date_getTime x →
  Forall (dated Date_getTime) l →
  StronglySorted (starts_no_earlier Date_getTime) l →
  ∃ l', insert_by (compare_start Date_getTime) x l = Ok l' ∧
        StronglySorted (starts_no_earlier Date_getTime) l'.
Proof.
  intros [tx Hx] Hvalid Hsorted. induction Hsorted as [|y l Hsorted IH Hy]; simpl.
  - eexists. split; [done|]. repeat constructor.
  - apply Forall_cons in Hvalid as [[ty Hty] Hvalid].
    rewrite (compare_start_dated _ _ _ _ Hx Hty). simpl.
    destruct (Z.leb_spec (ty - tx) 0).
    + eexists. split; [done|]. constructor; [by constructor|]. constructor.
      * exists tx, ty. split_and!; [done..|lia].
      * eapply Forall_impl; [exact Hy|]. intros z (ty' & tz & Hty' & Htz & Hle).
        exists tx, tz. split_and!; [done..|]. assert (ty' = ty) by congruence. lia.
    + destruct (IH Hvalid) as (rest & Hrest & Hsorted'). rewrite Hrest. simpl.
      eexists. split; [done|]. constructor; [done|].
      rewrite (insert_by_perm _ _ _ _ Hrest). constructor; [|done].
      exists ty, tx. split_and!; [done..|lia].
Qed.

Lemma sort_start_sorted l : ∀ l',
  Forall (dated Date_getTime) l →
  Array_sort (compare_start Date_getTime) l = Ok l' →
  StronglySorted (starts_no_earlier Date_getTime) l'.
Proof.
  induction l as [|x l IH]; intros l' Hvalid; unfold Array_sort in *; simpl.
  - intros [= <-]. constructor.
  - apply Forall_cons in Hvalid as [Hx Hvalid].
    intros (sorted & Hsorted & Hins)%bind_Ok.
    destruct (insert_by_start_sorted x sorted) as (l'' & Hl'' & Hs); [done| |by eapply IH|].
    + apply Forall_forall. intros s Hs. rewrite (Array_sort_perm _ _ _ Hsorted) in Hs.
      by eapply Forall_forall in Hvalid.
    + congruence.
Qed.

(** What a returned view holds. *)
Lemma view_of_sessions (allSessions : list Session.t) (vm : View.t) :
  buildViewModel Date_getTime allSessions = Ok vm →
  View.sessions vm ≡ₚ filter (λ s, has_pairs s = true) allSessions ∧
  (∀ proj, View.grouped vm !! proj = group_of proj (View.sessions vm)) ∧
  View.totalSessions vm = length allSessions ∧
  View.totalProjects vm = length (remove_dups (project_of <$> allSessions)) ∧
  View.qaSessionCount vm = length (filter (λ s, has_pairs s = true) allSessions) ∧
  (Forall (λ s, has_pairs s = true → dated Date_getTime s) allSessions →
   StronglySorted (starts_no_earlier Date_getTime) (View.sessions vm) ∧
   ∀ proj group,
     View.grouped vm !! proj = Some group → StronglySorted (starts_no_earlier Date_getTime) group).
Proof.
  unfold buildViewModel. intros (withQA & Hsort & H)%bind_Ok.
  apply bind_Ok in H as (grouped & Hgrouped & [= <-]). simpl.
  pose proof (Array_sort_perm _ _ _ Hsort) as Hperm.
  assert (∀ proj, grouped !! proj = group_of proj withQA) as Hgroups.
  { apply (group_sessions_spec withQA [] ∅); [|done]. intros proj. by rewrite lookup_empty. }
  split_and!; [done|done|done|apply distinct_count|done|].
  intros Hvalid.
  assert (StronglySorted (starts_no_earlier Date_getTime) withQA) as Hsorted.
  { eapply sort_start_sorted; [|exact Hsort]. apply Forall_forall.
    intros s [Hpairs Hs]%list_elem_of_filter.
    eapply Forall_forall in Hvalid; [|exact Hs]. by apply Hvalid. }
  split; [done|]. intros proj group. rewrite Hgroups. unfold group_of.
  pose proof (StronglySorted_filter_keeps _ (λ s, project_of s = proj) _ Hsorted) as Hfilter.
  destruct (filter _ withQA); [done|]. by intros [= <-].
Qed.

(** When [buildViewModel] returns and when it fails. *)
Lemma buildViewModel_fails (allSessions : list Session.t) :
  buildViewModel Date_getTime allSessions = Throw TypeError
  ↔ Exists (λ s, has_pairs s = true ∧ is_inherited (project_of s) = true) allSessions
    ∨ (2 ≤ length (filter (λ s, has_pairs s = true) allSessions)
       ∧ Exists (λ s, has_pairs s = true ∧ start_ok s = false) allSessions).
Proof.
  unfold buildViewModel.
  destruct (Array_sort (compare_start Date_getTime)
              (filter (λ s, has_pairs s = true) allSessions)) as [withQA|[]] eqn:Hsort; simpl.
  - pose proof (Array_sort_perm _ _ _ Hsort) as Hperm. split.
    + intros Hthrow. left.
      destruct (decide (Exists (λ s, has_pairs s = true ∧ is_inherited (project_of s) = true)
                          allSessions)) as [|Hnone]; [done|].
      apply not_Exists_Forall in Hnone; [|apply _].
      destruct (group_sessions_total withQA ∅) as [grouped Hgrouped].
      { apply Forall_forall. intros s Hs. rewrite Hperm in Hs.
        apply list_elem_of_filter in Hs as [Hpairs Hs].
        eapply Forall_forall in Hnone; [|exact Hs]. simpl in Hnone.
        destruct (is_inherited (project_of s)); [|done]. by destruct Hnone. }
      by rewrite Hgrouped in Hthrow.
    + intros [(s & Hs & Hpairs & Hname)%Exists_exists|[Hlen (s & Hs & Hpairs & Hbad)%Exists_exists]].
      * rewrite group_sessions_throw; [done| |].
        -- intros proj. rewrite lookup_empty. by intros [? ?].
        -- apply Exists_exists. exists s. split; [|done].
           rewrite Hperm. by apply list_elem_of_filter.
      * pose proof (sort_start_compared _ _ Hsort Hlen) as Hall.
        eapply Forall_forall in Hall; [|by apply list_elem_of_filter]. congruence.
  - split; [|done]. intros _. right.
    apply sort_start_throws in Hsort as [Hlen (s & [Hpairs Hs]%list_elem_of_filter & Hbad)%Exists_exists].
    split; [done|]. apply Exists_exists. by exists s.
Qed.

Lemma buildViewModel_returns (allSessions : list Session.t) :
  Forall (λ s, has_pairs s = true → start_ok s = true ∧ is_inherited (project_of s) = false)
    allSessions →
  ∃ vm, buildViewModel Date_getTime allSessions = Ok vm.
Proof.
  intros Hall.
  destruct (buildViewModel Date_getTime allSessions) as [vm|[]] eqn:Hvm; [eauto|].
  apply buildViewModel_fails in Hvm
    as [(s & Hs & Hpairs & Hname)%Exists_exists|[_ (s & Hs & Hpairs & Hbad)%Exists_exists]];
    eapply Forall_forall in Hall; try exact Hs; destruct (Hall Hpairs); congruence.
Qed.

End AggregatorProperties.

(** C7.  Whenever [buildViewModel] returns, the session list of the view
    holds exactly the sessions with at least one Q/A pair, the groups are the
    reported sessions of each project label, and the totals count all
    sessions and all distinct project labels, zero-pair sessions included;
    and it returns whenever each reported session has a start time that can
    be converted and a project label that names no inherited property.  The
    session list and every group are in descending order of start time when
    the start time of every reported session is a valid date.  They are not
    in every case: with the sessions [older; undated; newer], the second
    without start time, the report keeps that order, the older session
    ahead of the newer one; and with a reported session whose project
    label is [__proto__] the function throws. *)
Theorem buildViewModel_report :
  (∀ (Date_getTime : value → option Z) (allSessions : list Session.t) (vm : View.t),
     buildViewModel Date_getTime allSessions = Ok vm →
     View.sessions vm ≡ₚ filter (λ s, has_pairs s = true) allSessions ∧
     (∀ s, s ∈ View.sessions vm → has_pairs s = true) ∧
     (∀ proj, View.grouped vm !! proj = group_of proj (View.sessions vm)) ∧
     View.totalSessions vm = length allSessions ∧
     View.totalProjects vm = length (remove_dups (project_of <$> allSessions)) ∧
     (Forall (λ s, has_pairs s = true → dated Date_getTime s) allSessions →
      StronglySorted (starts_no_earlier Date_getTime) (View.sessions vm) ∧
      ∀ proj group,
        View.grouped vm !! proj = Some group →
        StronglySorted (starts_no_earlier Date_getTime) group))
  ∧ (∀ (Date_getTime : value → option Z) (allSessions : list Session.t),
       Forall (λ s, has_pairs s = true →
                    start_ok s = true ∧ is_inherited (project_of s) = false) allSessions →
       ∃ vm, buildViewModel Date_getTime allSessions = Ok vm)
  ∧ (View.sessions <$> buildViewModel sample_time [older; undated; newer]
     = Ok [older; undated; newer]
     ∧ start_ms sample_time older = Ok (Some 1735689600000%Z)
     ∧ start_ms sample_time undated = Ok None
     ∧ start_ms sample_time newer = Ok (Some 1735776000000%Z))
  ∧ buildViewModel sample_time [older; proto_session] = Throw TypeError.
Proof.
  split; [|split; [|split; [split_and!; vm_compute; reflexivity|vm_compute; reflexivity]]].
  - intros Date_getTime allSessions vm Hvm.
    destruct (view_of_sessions _ _ _ Hvm) as (Hperm & Hgroups & Hn & Hp & _ & Hsorted).
    split_and!; try done.
    intros s Hs. rewrite Hperm in Hs. by apply list_elem_of_filter in Hs as [? _].
  - intros Date_getTime allSessions. apply buildViewModel_returns.
Qed.

(** * Further properties *)

(** ** [escapeHTML] *)

Lemma has_char_app p s t : has_char p (s +:+ t) = has_char p s || has_char p t.
Proof. induction s as [|c s IH]; simpl; [done|]. by rewrite IH, orb_assoc. Qed.

Lemma escape_chain_cons d s :
  replace_char "'" "&#039;"
    (replace_char "034" "&quot;"
       (replace_char ">" "&gt;"
          (replace_char "<" "&lt;" (replace_char "&" "&amp;" (String d s)))))
  = escape_char d +:+
    replace_char "'" "&#039;"
      (replace_char "034" "&quot;"
         (replace_char ">" "&gt;" (replace_char "<" "&lt;" (replace_char "&" "&amp;" s)))).
Proof.
  unfold escape_char. simpl.
  destruct (Ascii.eqb_spec d "&") as [->|H1]; [done|]. simpl.
  destruct (Ascii.eqb_spec d "<") as [->|H2]; [done|]. simpl.
  destruct (Ascii.eqb_spec d ">") as [->|H3]; [done|]. simpl.
  destruct (Ascii.eqb_spec d "034") as [->|H4]; [done|]. simpl.
  by destruct (Ascii.eqb_spec d "'") as [->|H5].
Qed.

Lemma escape_chain_each s :
  replace_char "'" "&#039;"
    (replace_char "034" "&quot;"
       (replace_char ">" "&gt;" (replace_char "<" "&lt;" (replace_char "&" "&amp;" s))))
  = escape_each s.
Proof. induction s as [|d s IH]; [done|]. rewrite escape_chain_cons. simpl. by rewrite IH. Qed.

Lemma escapeHTML_Ok str out :
  escapeHTML str = Ok out →
  (truthy str = false ∧ out = "") ∨ (∃ text, ToString str = Ok text ∧ out = escape_each text).
Proof.
  unfold escapeHTML. destruct (truthy str); simpl; [|intros [= <-]; by left].
  intros (text & Htext & [= <-])%bind_Ok. right. exists text. by rewrite escape_chain_each.
Qed.

Lemma escapeHTML_each s : escapeHTML (VStr s) = Ok (escape_each s).
Proof.
  rewrite <- escape_chain_each. unfold escapeHTML. by destruct s.
Qed.

Lemma escape_char_clean c : has_char is_markup (escape_char c) = false.
Proof.
  unfold escape_char.
  destruct (Ascii.eqb_spec c "&"); [done|]. destruct (Ascii.eqb_spec c "<"); [done|].
  destruct (Ascii.eqb_spec c ">"); [done|]. destruct (Ascii.eqb_spec c "034"); [done|].
  destruct (Ascii.eqb_spec c "'"); [done|]. simpl. unfold is_markup.
  repeat match goal with |- context [Ascii.eqb c ?x] => destruct (Ascii.eqb_spec c x); [done|] end.
  done.
Qed.

Lemma escape_each_clean s : has_char is_markup (escape_each s) = false.
Proof.
  induction s as [|c s IH]; simpl; [done|]. by rewrite has_char_app, escape_char_clean, IH.
Qed.

(** X1.  The five replacements of [escapeHTML], made one after the other,
    come to replacing every character on its own: an ampersand written by a
    later replacement is never escaped again; and whatever [escapeHTML]
    returns holds none of the characters [<], [>], double quote and single
    quote.  It returns on every value that converts to a string. *)
Theorem escapeHTML_single_pass_and_clean :
  (∀ s, escapeHTML (VStr s) = Ok (escape_each s))
  ∧ (∀ str out, escapeHTML str = Ok out → has_char is_markup out = false)
  ∧ (∀ str, convertible str = true → ∃ out, escapeHTML str = Ok out).
Proof.
  split_and!; [apply escapeHTML_each| |].
  - intros str out [[_ ->]|(text & _ & ->)]%escapeHTML_Ok; [done|apply escape_each_clean].
  - intros str [text Htext]%convertible_Ok. unfold escapeHTML.
    destruct (negb (truthy str)); [eauto|]. rewrite Htext. simpl. eauto.
Qed.

Lemma escape_char_inj c1 c2 t1 t2 :
  escape_char c1 +:+ t1 = escape_char c2 +:+ t2 → c1 = c2 ∧ t1 = t2.
Proof.
  unfold escape_char.
  destruct (Ascii.eqb_spec c1 "&") as [->|?]; [|destruct (Ascii.eqb_spec c1 "<") as [->|?];
    [|destruct (Ascii.eqb_spec c1 ">") as [->|?]; [|destruct (Ascii.eqb_spec c1 "034") as [->|?];
    [|destruct (Ascii.eqb_spec c1 "'") as [->|?]]]]];
  (destruct (Ascii.eqb_spec c2 "&") as [->|?]; [|destruct (Ascii.eqb_spec c2 "<") as [->|?];
    [|destruct (Ascii.eqb_spec c2 ">") as [->|?]; [|destruct (Ascii.eqb_spec c2 "034") as [->|?];
    [|destruct (Ascii.eqb_spec c2 "'") as [->|?]]]]]);
  simpl; intros H; try (by injection H); try discriminate H;
  try (injection H as ??; subst; done).
Qed.

Lemma escape_each_inj s1 : ∀ s2, escape_each s1 = escape_each s2 → s1 = s2.
Proof.
  induction s1 as [|c1 s1 IH]; intros [|c2 s2]; simpl; [done| | |].
  - unfold escape_char. repeat case_match; done.
  - unfold escape_char. repeat case_match; done.
  - intros [-> H]%escape_char_inj. by rewrite (IH _ H).
Qed.

(** X2.  Escaping loses nothing: two strings with the same escaped text are
    the same string. *)
Theorem escapeHTML_injective s1 s2 :
  escapeHTML (VStr s1) = escapeHTML (VStr s2) → s1 = s2.
Proof. rewrite !escapeHTML_each. intros [= H]. by apply escape_each_inj. Qed.

Lemma escapeHTML_injective_witness :
  escapeHTML (VStr "a<b") = escapeHTML (VStr "a<b") ∧ "a<b" = "a<b".
Proof.
  assert (H : escapeHTML (VStr "a<b") = escapeHTML (VStr "a<b")) by reflexivity.
  split; [exact H|]. exact (escapeHTML_injective "a<b" "a<b" H).
Defined.

(** ** [stripTags] *)

Lemma has_gt_remove_tags s : ∀ b, has_gt s = false → has_gt (remove_tags b s) = false.
Proof.
  induction s as [|c s IH]; intros b; simpl; [done|].
  intros [Hc Hs]%orb_false_iff. destruct b.
  - rewrite Hc. by apply IH.
  - case_match; [by apply IH|]. simpl. rewrite Hc. by apply IH.
Qed.

Lemma gt_not_lt d : is_gt d = true → is_lt d = false.
Proof.
  unfold is_gt, is_lt. by destruct (Ascii.eqb_spec d ">") as [->|].
Qed.

Lemma tagless_remove_tags s : ∀ b, tagless (remove_tags b s) = true.
Proof.
  induction s as [|c s IH]; intros b; simpl; [done|]. destruct b.
  - destruct (is_gt c); apply IH.
  - destruct (is_lt c) eqn:Hc; simpl; [|by rewrite Hc, IH].
    destruct s as [|d s]; [by simpl; rewrite Hc|].
    destruct (is_gt d) eqn:Hd; simpl.
    + specialize (IH false). simpl in IH. rewrite IH, andb_true_r.
      rewrite (gt_not_lt _ Hd). simpl. by rewrite Hd, Hc.
    + destruct (has_gt s) eqn:Hs; simpl; [apply (IH true)|].
      rewrite Hc. pose proof (IH false) as IH'.
      pose proof (has_gt_remove_tags (String d s) false) as Hgt.
      simpl in Hgt. rewrite Hd, Hs in Hgt. specialize (Hgt eq_refl).
      simpl in IH'. rewrite IH', andb_true_r.
      match goal with |- context [match ?r with "" => false | String _ _ => _ end] =>
        destruct r as [|e t] eqn:Ht end; [done|].
      simpl in Hgt. apply orb_false_iff in Hgt as [He Ht'].
      by rewrite Ht', andb_false_r.
Qed.

Lemma remove_tags_tagless s : tagless s = true → remove_tags false s = s.
Proof.
  induction s as [|c s IH]; simpl; [done|].
  intros [Hc Hs]%andb_true_iff. apply negb_true_iff in Hc. rewrite Hc. by rewrite IH.
Qed.

Lemma tagless_trimStart s : tagless s = true → tagless (trimStart s) = true.
Proof.
  induction s as [|c s IH]; [done|]. intros H. simpl trimStart.
  destruct (is_white c); [|done]. apply IH. simpl in H. by apply andb_true_iff in H as [_ ?].
Qed.

Lemma trimEnd_cons d s e t : trimEnd (String d s) = String e t → e = d ∧ t = trimEnd s.
Proof.
  simpl. destruct (trimEnd s); [destruct (is_white d)|]; intros H; by simplify_eq.
Qed.

Lemma has_gt_trimEnd s : has_gt s = false → has_gt (trimEnd s) = false.
Proof.
  induction s as [|c s IH]; simpl; [done|]. intros [Hc Hs]%orb_false_iff.
  specialize (IH Hs). destruct (trimEnd s); [destruct (is_white c)|]; simpl in *; [done| |].
  - by rewrite Hc.
  - by rewrite Hc, IH.
Qed.

Lemma tagless_trimEnd s : tagless s = true → tagless (trimEnd s) = true.
Proof.
  induction s as [|c s IH]; [done|]. intros H.
  simpl in H. apply andb_true_iff in H as [Hc Hs]. specialize (IH Hs).
  simpl trimEnd. destruct (trimEnd s) as [|e t] eqn:Ht.
  - destruct (is_white c); [done|]. simpl. by rewrite andb_false_r.
  - change (tagless (String c (String e t)))
      with (negb (is_lt c && (negb (is_gt e) && has_gt t)) && tagless (String e t)).
    rewrite IH, andb_true_r. destruct s as [|d s]; [done|].
    apply trimEnd_cons in Ht as [-> ->].
    destruct (is_lt c); [|done]. destruct (is_gt d); [done|]. simpl in *.
    apply negb_true_iff in Hc. by rewrite (has_gt_trimEnd _ Hc).
Qed.

Lemma trimEnd_idem s : trimEnd (trimEnd s) = trimEnd s.
Proof.
  induction s as [|c s IH]; [done|]. simpl.
  destruct (trimEnd s) as [|e t] eqn:Ht.
  - destruct (is_white c) eqn:Hc; [done|]. simpl. by rewrite Hc.
  - change (trimEnd (String c (String e t)))
      with (match trimEnd (String e t) with
            | "" => if is_white c then "" else String c ""
            | u => String c u
            end).
    by rewrite IH.
Qed.

Lemma trimStart_trimEnd s : trimStart (trimEnd (trimStart s)) = trimEnd (trimStart s).
Proof.
  induction s as [|c s IH]; [done|]. simpl trimStart at 2 3.
  destruct (is_white c) eqn:Hc; [exact IH|].
  simpl. destruct (trimEnd s); rewrite ?Hc; simpl; by rewrite Hc.
Qed.

Lemma trim_idem s : trim (trim s) = trim s.
Proof. unfold trim. by rewrite trimStart_trimEnd, trimEnd_idem. Qed.

Lemma cleaned_of_idem s : cleaned_of (cleaned_of s) = cleaned_of s.
Proof.
  unfold cleaned_of at 1. rewrite remove_tags_tagless; [apply trim_idem|].
  apply tagless_trimEnd, tagless_trimStart, tagless_remove_tags.
Qed.

(** X3.  Cleaned text is clean: what [stripTags] returns holds no tag and no
    outer white space, so that cleaning it again changes nothing. *)
Theorem stripTags_idempotent (str : value) (t : string) :
  stripTags str = Ok t →
  stripTags (VStr t) = Ok t ∧ tagless t = true ∧ trim t = t.
Proof.
  intros H.
  assert (Ht : t = "" ∨ ∃ s, t = cleaned_of s).
  { unfold stripTags in H. destruct (truthy str); simpl in H; [|left; congruence].
    destruct str; try done. right. eexists. by injection H as <-. }
  destruct Ht as [->|[s ->]]; [done|]. split_and!.
  - rewrite stripTags_VStr. by rewrite cleaned_of_idem.
  - apply tagless_trimEnd, tagless_trimStart, tagless_remove_tags.
  - apply trim_idem.
Qed.

Lemma stripTags_idempotent_witness :
  stripTags (VStr "<b>bold</b> move ") = Ok "bold move"
  ∧ stripTags (VStr "bold move") = Ok "bold move".
Proof.
  assert (H : stripTags (VStr "<b>bold</b> move ") = Ok "bold move") by reflexivity.
  split; [exact H|]. exact (proj1 (stripTags_idempotent _ _ H)).
Defined.

Lemma remove_tags_sublist s : ∀ b, chars (remove_tags b s) `sublist_of` chars s.
Proof.
  induction s as [|c s IH]; intros b; simpl; [done|]. destruct b.
  - destruct (is_gt c); apply sublist_cons, IH.
  - case_match; [apply sublist_cons, IH|apply sublist_skip, IH].
Qed.

Lemma trimStart_sublist s : chars (trimStart s) `sublist_of` chars s.
Proof.
  induction s as [|c s IH]; simpl; [done|]. destruct (is_white c); [|done].
  by apply sublist_cons.
Qed.

Lemma trimEnd_sublist s : chars (trimEnd s) `sublist_of` chars s.
Proof.
  induction s as [|c s IH]; simpl; [done|].
  destruct (trimEnd s); [destruct (is_white c)|]; simpl.
  - apply sublist_nil_l.
  - apply sublist_skip, sublist_nil_l.
  - by apply sublist_skip.
Qed.

Lemma chars_length s : length (chars s) = String.length s.
Proof. induction s as [|c s IH]; simpl; [done|]. by rewrite IH. Qed.

(** X4.  Cleaning only deletes: the characters of the cleaned text are
    characters of the given text, in the same order, so the cleaned text is
    no longer than the given one. *)
Theorem stripTags_only_deletes (s t : string) :
  stripTags (VStr s) = Ok t →
  chars t `sublist_of` chars s ∧ String.length t ≤ String.length s.
Proof.
  rewrite stripTags_VStr. intros H.
  assert (Hsub : chars t `sublist_of` chars s).
  { assert (chars (cleaned_of s) `sublist_of` chars s) as Hc.
    { unfold cleaned_of, trim. etrans; [apply trimEnd_sublist|].
      etrans; [apply trimStart_sublist|]. apply remove_tags_sublist. }
    by injection H as <-. }
  split; [exact Hsub|]. rewrite <- !chars_length. by apply sublist_length.
Qed.

Lemma stripTags_only_deletes_witness :
  stripTags (VStr " a <i>b</i>") = Ok "a b" ∧ String.length "a b" ≤ String.length " a <i>b</i>".
Proof.
  assert (H : stripTags (VStr " a <i>b</i>") = Ok "a b") by reflexivity.
  split; [exact H|]. exact (proj2 (stripTags_only_deletes _ _ H)).
Defined.

(** ** [split], [extractProjectName] and [parseJSONLFile] *)

Lemma split_char_cons c s : ∃ h t, split_char c s = h :: t.
Proof.
  destruct s as [|d s]; simpl; [by eexists _, _|].
  destruct (Ascii.eqb d c); [by eexists _, _|].
  destruct (split_char c s); by eexists _, _.
Qed.

(** Splitting a text at a separator splits the two sides on their own. *)
Lemma split_char_app c a b :
  split_char c (a +:+ String c b) = split_char c a ++ split_char c b.
Proof.
  induction a as [|d a IH]; simpl.
  - by rewrite Ascii.eqb_refl.
  - destruct (Ascii.eqb d c); [by rewrite IH|].
    rewrite IH. by destruct (split_char_cons c a) as (h & t & ->).
Qed.

Lemma split_char_whole c s :
  has_char (λ d, Ascii.eqb d c) s = false → split_char c s = [s].
Proof.
  induction s as [|d s IH]; simpl; [done|].
  intros [-> Hs]%orb_false_iff. by rewrite (IH Hs).
Qed.

Lemma toLowerCase_dash s :
  has_char is_dash (toLowerCase s) = false → has_char is_dash s = false.
Proof.
  induction s as [|c s IH]; simpl; [done|].
  intros [Hc Hs]%orb_false_iff. rewrite (IH Hs), orb_false_r.
  unfold is_dash in *. destruct (Ascii.eqb_spec c "-") as [->|]; [|done]. by vm_compute in Hc.
Qed.

Lemma findIndex_first {A} (p : A → bool) l1 x l2 :
  Forall (λ y, p y = false) l1 → p x = true →
  findIndex p (l1 ++ x :: l2) = Z.of_nat (length l1).
Proof.
  intros Hl Hx. induction Hl as [|y l1 Hy Hl IH]; simpl; [by rewrite Hx|].
  rewrite Hy, IH. case_match; lia.
Qed.

Lemma append_empty_r s : s +:+ "" = s.
Proof. induction s as [|c s IH]; [done|]. change (String c (s +:+ "") = String c s). by rewrite IH. Qed.

Lemma segments_app a b : segments (a +:+ String "-" b) = segments a ++ segments b.
Proof. unfold segments. by rewrite split_char_app, filter_app. Qed.

Section ProjectNameProperties.

Variable upper_beyond : ascii → string.

(** X5.  For a directory name with a segment that reads Desktop, in any
    letter case, the label is built from what follows the first such segment
    only: its non-empty segments, each with its first letter in upper case,
    joined by spaces.  When no segment follows, the directory name is
    returned as it is. *)
Theorem extractProjectName_after_desktop (pre D after : string) :
  Forall (λ p, toLowerCase p ≠ "desktop") (split_char "-" pre) →
  toLowerCase D = "desktop" →
  after = "" ∨ (∃ rest, after = "-" +:+ rest) →
  extractProjectName upper_beyond (pre +:+ "-" +:+ D +:+ after) =
    match segments after with
    | [] => pre +:+ "-" +:+ D +:+ after
    | meaningful => join_with " " (capitalize upper_beyond <$> meaningful)
    end.
Proof.
  intros Hpre HD Hafter.
  assert (HDs : segments D = [D]).
  { unfold segments. rewrite split_char_whole.
    - rewrite filter_cons_True; [done|]. by destruct D.
    - apply (toLowerCase_dash D). by rewrite HD. }
  assert (Hparts : segments (pre +:+ "-" +:+ D +:+ after) = segments pre ++ D :: segments after).
  { change (pre +:+ "-" +:+ D +:+ after) with (pre +:+ String "-" (D +:+ after)).
    rewrite segments_app. f_equal. destruct Hafter as [->|[rest ->]].
    - by rewrite append_empty_r, HDs.
    - change (D +:+ "-" +:+ rest) with (D +:+ String "-" rest).
      change ("-" +:+ rest) with ("" +:+ String "-" rest).
      by rewrite !segments_app, HDs. }
  unfold extractProjectName. fold (segments (pre +:+ "-" +:+ D +:+ after)).
  rewrite Hparts, findIndex_first.
  - replace (0 <=? Z.of_nat (length (segments pre)))%Z with true by (symmetry; apply Z.leb_le; lia).
    replace (Z.to_nat (Z.of_nat (length (segments pre)) + 1)) with (length (segments pre) + 1) by lia.
    rewrite drop_app_add. simpl drop.
    destruct (segments after); [done|]. done.
  - apply Forall_forall. intros p [_ Hp]%list_elem_of_filter.
    rewrite Forall_forall in Hpre. apply String.eqb_neq. by apply Hpre.
  - by apply String.eqb_eq.
Qed.

End ProjectNameProperties.

Lemma extractProjectName_after_desktop_witness :
  extractProjectName no_upper_beyond "-Users-reehan-Desktop-ticket-summarizer"
  = "Ticket Summarizer".
Proof.
  apply (extractProjectName_after_desktop no_upper_beyond
           "-Users-reehan" "Desktop" "-ticket-summarizer").
  - simpl. repeat constructor; discriminate.
  - reflexivity.
  - right. by exists "ticket-summarizer".
Defined.

Section ReaderProperties.

Variable JSON_parse : string → option value.

Lemma parse_fold (lines : list string) : ∀ acc,
  foldl (λ parsed line,
           match JSON_parse line with
           | Some v => parsed ++ [v]
           | None => parsed
           end) acc lines
  = acc ++ omap JSON_parse lines.
Proof.
  induction lines as [|l lines IH]; intros acc; simpl; [by rewrite app_nil_r|].
  rewrite IH. destruct (JSON_parse l); simpl; [by rewrite <- app_assoc|done].
Qed.

Lemma parseJSONLFile_lines content :
  parseJSONLFile JSON_parse content
  = omap JSON_parse (filter (λ l, trim l ≠ "") (split_char "010" content)).
Proof. unfold parseJSONLFile. by rewrite parse_fold. Qed.

(** X6.  A file is read line by line: the records of two contents joined by
    a line feed are the records of the first followed by those of the second,
    and one line gives one record, or none when it is blank or no JSON. *)
Theorem parseJSONLFile_by_line :
  (∀ a b, parseJSONLFile JSON_parse (a +:+ String "010" b)
          = parseJSONLFile JSON_parse a ++ parseJSONLFile JSON_parse b)
  ∧ (∀ l, has_char is_newline l = false →
          parseJSONLFile JSON_parse l
          = if decide (trim l = "") then []
            else match JSON_parse l with Some v => [v] | None => [] end).
Proof.
  split.
  - intros a b. by rewrite !parseJSONLFile_lines, split_char_app, filter_app, omap_app.
  - intros l Hl. rewrite parseJSONLFile_lines, split_char_whole by exact Hl.
    destruct (decide (trim l = "")) as [Ht|Ht].
    + by rewrite filter_cons_False by (by intros ?).
    + rewrite filter_cons_True by done. simpl. by destruct (JSON_parse l).
Qed.

End ReaderProperties.

(** ** [extractSessionMeta] *)

Lemma first_truthy_Ok cur entry p v :
  first_truthy cur entry p = Ok v →
  v = if truthy cur then cur else if truthy (field entry p) then field entry p else cur.
Proof.
  unfold first_truthy. destruct (truthy cur); [congruence|].
  intros (x & [_ ->]%get_Ok_field & [= <-])%bind_Ok. done.
Qed.

Lemma acceptable_true c : acceptable c = Ok true → truthy c = true ∧ ∃ s, c = VStr s.
Proof.
  unfold acceptable. destruct (truthy c); simpl; [|done].
  destruct c; try done. eauto.
Qed.

(** One step of the scan, for each of the four variables: a variable that
    holds a truthy value keeps it, and the scan stops only when all do. *)
Lemma scan_entry_Ok st entry st' stop :
  scan_entry st entry = Ok (st', stop) →
  Scan.startTime st' = keep_first (Scan.startTime st) (field entry "timestamp")
  ∧ Scan.slug st' = keep_first (Scan.slug st) (field entry "slug")
  ∧ Scan.cwd st' = keep_first (Scan.cwd st) (field entry "cwd")
  ∧ Scan.firstUserMessage st' = keep_first (Scan.firstUserMessage st) (message_of entry)
  ∧ stop = truthy (Scan.slug st') && truthy (Scan.cwd st') && truthy (Scan.startTime st')
           && truthy (Scan.firstUserMessage st').
Proof.
  unfold scan_entry, keep_first.
  intros (startTime & ->%first_truthy_Ok & H)%bind_Ok.
  apply bind_Ok in H as (slug & ->%first_truthy_Ok & H).
  apply bind_Ok in H as (cwd & ->%first_truthy_Ok & H).
  apply bind_Ok in H as (fum & Hfum & [= <- <-]). simpl.
  split_and!; try done.
  destruct (truthy (Scan.firstUserMessage st)) eqn:Hcur; [congruence|].
  apply bind_Ok in Hfum as (type & [_ ->]%get_Ok_field & Hfum).
  unfold message_of. destruct (is_str (field entry "type") "user"); [|by injection Hfum as <-].
  apply bind_Ok in Hfum as (candidate & -> & Hfum).
  apply bind_Ok in Hfum as (ok & Hok & [= <-]). rewrite Hok.
  destruct ok; [|done]. by destruct (acceptable_true _ Hok) as [-> _].
Qed.

Lemma scan_first (proj : Scan.t → value) (pick : value → value) :
  (∀ st entry st' stop, scan_entry st entry = Ok (st', stop) →
     proj st' = keep_first (proj st) (pick entry) ∧ (stop = true → truthy (proj st') = true)) →
  ∀ lines st st',
    for_of_break scan_entry lines st = Ok st' →
    proj st = VStr "" ∨ truthy (proj st) = true →
    proj st' = if truthy (proj st) then proj st else first_by pick lines.
Proof.
  unfold keep_first.
  intros Hstep. induction lines as [|entry lines IH]; intros st st'; simpl.
  - intros [= <-] [Hst|Hst]; by rewrite Hst.
  - intros ([st1 stop] & Hscan & Hrest)%bind_Ok Hst.
    destruct (Hstep _ _ _ _ Hscan) as [Hnext Hstop]. destruct stop.
    + injection Hrest as <-. specialize (Hstop eq_refl). rewrite Hnext in *.
      destruct (truthy (proj st)); [done|]. destruct (truthy (pick entry)); [done|].
      destruct Hst as [Hst|Hst]; [by rewrite Hst in Hstop|done].
    + rewrite (IH _ _ Hrest).
      * rewrite Hnext. destruct (truthy (proj st)) eqn:Hcur; [by rewrite Hcur|].
        destruct (truthy (pick entry)) eqn:Hpick; [by rewrite Hpick|]. by rewrite Hcur.
      * rewrite Hnext. destruct (truthy (proj st)) eqn:Hcur; [by right|].
        destruct (truthy (pick entry)) eqn:Hpick; [by right|]. destruct Hst; [by left|congruence].
Qed.

Ltac scan_step :=
  let H := fresh "Hscan" in let Hall := fresh "Hall" in
  intros ? ? ? ? H; destruct (scan_entry_Ok _ _ _ _ H) as (? & ? & ? & ? & ->);
  split; [done|]; intros Hall; repeat (apply andb_true_iff in Hall as [Hall ?]); done.

Lemma scan_startTime lines st st' :
  for_of_break scan_entry lines st = Ok st' →
  Scan.startTime st = VStr "" ∨ truthy (Scan.startTime st) = true →
  Scan.startTime st' = if truthy (Scan.startTime st) then Scan.startTime st
                       else first_by (λ e, field e "timestamp") lines.
Proof. apply (scan_first Scan.startTime (λ e, field e "timestamp")). scan_step. Qed.

Lemma scan_slug lines st st' :
  for_of_break scan_entry lines st = Ok st' →
  Scan.slug st = VStr "" ∨ truthy (Scan.slug st) = true →
  Scan.slug st' = if truthy (Scan.slug st) then Scan.slug st
                  else first_by (λ e, field e "slug") lines.
Proof. apply (scan_first Scan.slug (λ e, field e "slug")). scan_step. Qed.

Lemma scan_cwd lines st st' :
  for_of_break scan_entry lines st = Ok st' →
  Scan.cwd st = VStr "" ∨ truthy (Scan.cwd st) = true →
  Scan.cwd st' = if truthy (Scan.cwd st) then Scan.cwd st
                 else first_by (λ e, field e "cwd") lines.
Proof. apply (scan_first Scan.cwd (λ e, field e "cwd")). scan_step. Qed.

Lemma scan_firstUserMessage lines st st' :
  for_of_break scan_entry lines st = Ok st' →
  Scan.firstUserMessage st = VStr "" ∨ truthy (Scan.firstUserMessage st) = true →
  Scan.firstUserMessage st' = if truthy (Scan.firstUserMessage st) then Scan.firstUserMessage st
                              else first_by message_of lines.
Proof. apply (scan_first Scan.firstUserMessage message_of). scan_step. Qed.

Lemma first_by_string pick lines :
  (∀ entry, truthy (pick entry) = true → ∃ s, pick entry = VStr s) →
  ∃ s, first_by pick lines = VStr s.
Proof.
  intros Hpick. induction lines as [|entry lines IH]; simpl; [by eexists|].
  destruct (truthy (pick entry)) eqn:H; [by apply Hpick|done].
Qed.

Lemma message_of_string entry : ∃ s, message_of entry = VStr s.
Proof.
  unfold message_of. destruct (is_str _ _); [|by eexists].
  destruct (candidate_of entry) as [c|]; [|by eexists].
  destruct (acceptable c) as [[]|] eqn:Hc; try by eexists.
  by destruct (acceptable_true _ Hc) as [_ ?].
Qed.

Section SessionMetaProperties.

Variable upper_beyond : ascii → string.

(** X7.  The early exit of the scan loses nothing: when [extractSessionMeta]
    returns, the start time, the working directory and the slug are the first
    truthy values of [timestamp], [cwd] and [slug] among all the records (the
    slug falling back to the first eight characters of the session id), and
    the preview is the first message of a user record that the test accepts,
    cleaned and cut to 300 characters. *)
Theorem extractSessionMeta_first_values (lines : list value) (fileInfo : FileInfo.t)
    (meta : Meta.t) :
  extractSessionMeta upper_beyond lines fileInfo = Ok meta →
  Meta.startTime meta = first_by (λ e, field e "timestamp") lines
  ∧ Meta.cwd meta = first_by (λ e, field e "cwd") lines
  ∧ Meta.slug meta = or_else (first_by (λ e, field e "slug") lines)
                       (VStr (slice0 (FileInfo.sessionId fileInfo) 8))
  ∧ (∃ s, first_by message_of lines = VStr s
          ∧ Meta.firstUserMessage meta = slice0 (cleaned_of s) 300)
  ∧ String.length (Meta.firstUserMessage meta) ≤ 300.
Proof.
  unfold extractSessionMeta.
  intros (st & Hscan & H)%bind_Ok. apply bind_Ok in H as (cleaned & Hclean & [= <-]). simpl.
  rewrite (scan_startTime _ _ _ Hscan), (scan_cwd _ _ _ Hscan), (scan_slug _ _ _ Hscan)
    by by left.
  rewrite (scan_firstUserMessage _ _ _ Hscan) in Hclean by by left. simpl in *.
  destruct (first_by_string message_of lines) as [s Hs]; [intros; apply message_of_string|].
  rewrite Hs, stripTags_VStr in Hclean. injection Hclean as <-.
  split_and!; try done; [by exists s|apply slice0_length].
Qed.

End SessionMetaProperties.

Lemma extractSessionMeta_first_values_witness :
  ∃ meta, extractSessionMeta no_upper_beyond meta_lines sample_file = Ok meta
          ∧ Meta.startTime meta = VStr "2025-01-01T10:00:00.000Z"
          ∧ Meta.firstUserMessage meta = "Fix the build".
Proof.
  destruct (extractSessionMeta no_upper_beyond meta_lines sample_file) as [meta|] eqn:H;
    [|vm_compute in H; discriminate H].
  exists meta. split; [done|].
  destruct (extractSessionMeta_first_values no_upper_beyond _ _ _ H)
    as (Htime & _ & _ & (s & Hs & Hmsg) & _).
  split; [exact Htime|]. vm_compute in Hs. injection Hs as <-. exact Hmsg.
Defined.

(** ** [buildViewModel] and the totals of [main] *)

Lemma total_pairs_filter (l : list Session.t) : ∀ sum,
  foldl (λ sum s, sum + length (Session.qaPairs s)) sum (filter (λ s, has_pairs s = true) l)
  = foldl (λ sum s, sum + length (Session.qaPairs s)) sum l.
Proof.
  induction l as [|s l IH]; intros sum; [done|]. rewrite filter_cons.
  destruct (decide (has_pairs s = true)) as [Hs|Hs]; simpl; [apply IH|].
  rewrite IH. f_equal. unfold has_pairs in Hs. apply not_true_is_false, Nat.ltb_ge in Hs. lia.
Qed.

Lemma total_pairs_count (l : list Session.t) : ∀ sum,
  Forall (λ s, has_pairs s = true) l →
  sum + length l ≤ foldl (λ sum s, sum + length (Session.qaPairs s)) sum l.
Proof.
  induction l as [|s l IH]; intros sum Hl; simpl; [lia|].
  apply Forall_cons in Hl as [Hs Hl]. specialize (IH (sum + length (Session.qaPairs s)) Hl).
  unfold has_pairs in Hs. apply Nat.ltb_lt in Hs. lia.
Qed.

Section AggregatorTotals.

Variable Date_getTime : value → option Z.

(** X8.  The header of the report and the log of [main] agree: the number of
    sessions with questions and the number of pairs that [buildViewModel]
    returns are the two totals [main] computes over all sessions.  The first
    is the length of the session list, and it exceeds neither the number of
    sessions nor the number of pairs. *)
Theorem buildViewModel_totals (allSessions : list Session.t) (vm : View.t) :
  buildViewModel Date_getTime allSessions = Ok vm →
  View.qaSessionCount vm = main_qaCount allSessions
  ∧ View.totalQA vm = main_totalQA allSessions
  ∧ View.qaSessionCount vm = length (View.sessions vm)
  ∧ View.qaSessionCount vm ≤ View.totalSessions vm
  ∧ View.qaSessionCount vm ≤ View.totalQA vm.
Proof.
  unfold buildViewModel. intros (withQA & Hsort & H)%bind_Ok.
  apply bind_Ok in H as (grouped & _ & [= <-]). simpl.
  unfold main_qaCount, main_totalQA. split_and!.
  - done.
  - apply total_pairs_filter.
  - by rewrite (Array_sort_perm _ _ _ Hsort).
  - apply length_filter.
  - pose proof (total_pairs_count (filter (λ s, has_pairs s = true) allSessions) 0) as H.
    simpl in H. apply H. apply Forall_forall. by intros s [? _]%list_elem_of_filter.
Qed.

(** X9.  [buildViewModel] fails exactly when a session with at least one
    pair has a project label that names a property every object inherits,
    or when at least two sessions have pairs and the start time of one of
    them cannot be converted to a primitive, so that [new Date] throws in
    the comparison: sessions without pairs never make it fail, and a single
    reported session is never compared. *)
Theorem buildViewModel_throws_iff (allSessions : list Session.t) :
  buildViewModel Date_getTime allSessions = Throw TypeError
  ↔ Exists (λ s, has_pairs s = true ∧ is_inherited (project_of s) = true) allSessions
    ∨ (2 ≤ length (filter (λ s, has_pairs s = true) allSessions)
       ∧ Exists (λ s, has_pairs s = true ∧ start_ok s = false) allSessions).
Proof. apply buildViewModel_fails. Qed.

End AggregatorTotals.

Lemma buildViewModel_totals_witness :
  ∃ vm, buildViewModel sample_time [older; silent] = Ok vm
        ∧ View.qaSessionCount vm = 1 ∧ View.totalQA vm = 1.
Proof.
  destruct (buildViewModel sample_time [older; silent]) as [vm|] eqn:H;
    [|vm_compute in H; discriminate H].
  exists vm. split; [done|].
  destruct (buildViewModel_totals sample_time _ _ H) as (-> & -> & _). by vm_compute.
Defined.

(** ** The timeline: order, and the entries of the requests *)

Lemma for_of_contains {A B} (body : list B → A → result (list B)) (xs : list A) :
  (∀ s x, body s x = (λ new, s ++ new) <$> body [] x) →
  ∀ new x, for_of body xs [] = Ok new → x ∈ xs →
  ∃ n, body [] x = Ok n ∧ ∀ e, e ∈ n → e ∈ new.
Proof.
  intros Hbody. induction xs as [|y xs IH]; intros new x; simpl.
  - by intros _ ?%elem_of_nil.
  - intros (n & Hy & Hrest)%bind_Ok Hx.
    rewrite for_of_appends in Hrest by done.
    destruct (for_of body xs []) as [new'|] eqn:Hxs; [|done]. injection Hrest as <-.
    apply elem_of_cons in Hx as [->|Hx].
    + exists n. split; [done|]. intros e He. apply elem_of_app. by left.
    + destruct (IH _ _ eq_refl Hx) as (n' & Hn' & Hin). exists n'. split; [done|].
      intros e He. apply elem_of_app. right. by apply Hin.
Qed.

Lemma for_index_contains {A B} (body : nat → A → list B → result (list B)) (xs : list A) :
  (∀ i x s, body i x s = (λ new, s ++ new) <$> body i x []) →
  ∀ i new k x, for_index body i xs [] = Ok new → xs !! k = Some x →
  ∃ n, body (i + k) x [] = Ok n ∧ ∀ e, e ∈ n → e ∈ new.
Proof.
  intros Hbody. induction xs as [|y xs IH]; intros i new k x; simpl; [done|].
  intros (n & Hy & Hrest)%bind_Ok Hk.
  rewrite for_index_appends in Hrest by done.
  destruct (for_index body (S i) xs []) as [new'|] eqn:Hxs; [|done]. injection Hrest as <-.
  destruct k as [|k]; simpl in Hk.
  - injection Hk as <-. exists n. rewrite Nat.add_0_r. split; [done|].
    intros e He. apply elem_of_app. by left.
  - destruct (IH _ _ _ _ Hxs Hk) as (n' & Hn' & Hin). exists n'.
    replace (i + S k) with (S i + k) by lia. split; [done|].
    intros e He. apply elem_of_app. right. by apply Hin.
Qed.

Section TimelineOrder.

Variable JSON_stringify : value → string.

(** X10.  The timeline follows the records of the file, whatever their
    timestamps say: the entries come in non-decreasing record position, and
    each position is one of the file. *)
Theorem buildSessionTimeline_in_record_order (lines : list value)
    (timeline : list timelineEntry) :
  buildSessionTimeline JSON_stringify lines = Ok timeline →
  StronglySorted (λ a b, lineIndex a ≤ lineIndex b) timeline
  ∧ Forall (λ e, lineIndex e < length lines) timeline.
Proof.
  unfold buildSessionTimeline. intros Htl.
  destruct (timeline_order JSON_stringify lines 0 timeline Htl) as [Hsorted Hbounds]. split; [done|].
  eapply Forall_impl; [exact Hbounds|]. simpl. intros. lia.
Qed.

Lemma assistant_block_request i entry block new :
  nullish entry = false → is_request block = true →
  assistant_block JSON_stringify i entry [] block = Ok new →
  new = [ask_user_question (field entry "timestamp") (field block "id")
           (Ask.questions (request_of i entry block)) i].
Proof.
  intros Hentry [Htype Hname]%andb_true_iff.
  pose proof (is_str_field_not_nullish _ _ _ Htype) as Hblock.
  apply is_str_true in Htype. apply is_str_true in Hname.
  unfold assistant_block. read_fields. rewrite Htype. simpl. read_fields.
  rewrite Hname. simpl. read_fields. by intros [= <-].
Qed.

Lemma request_entry_in_timeline lines timeline i entry block :
  buildSessionTimeline JSON_stringify lines = Ok timeline →
  lines !! i = Some entry → truthy (field entry "timestamp") = true →
  block ∈ blocks_of "assistant" entry → is_request block = true →
  ask_user_question (field entry "timestamp") (field block "id")
    (Ask.questions (request_of i entry block)) i ∈ timeline.
Proof.
  unfold buildSessionTimeline. intros Htl Hi Hts Hblock Hreq.
  destruct (for_index_contains _ _ (timeline_entry_appends JSON_stringify) _ _ _ _ Htl Hi)
    as (n & Hn & Hin). simpl in Hn.
  pose proof (timeline_entry_Ok _ _ _ _ _ Hn) as Hentry.
  rewrite timeline_entry_eq in Hn by done.
  assert (eligible entry = true) as Helig.
  { clear Hn. unfold eligible, blocks_of in *.
    destruct (is_str (field entry "type") "assistant") eqn:Hrole; [|by apply elem_of_nil in Hblock].
    apply is_str_true in Hrole. rewrite Hts, Hrole.
    destruct (field entry "message"); try (by apply elem_of_nil in Hblock). done. }
  rewrite Helig in Hn. apply bind_Ok in Hn as (n1 & Hn1 & Hn2).
  destruct (for_of_contains _ _ (assistant_block_appends JSON_stringify i entry) _ _ Hn1 Hblock)
    as (new & Hnew & Hin1).
  apply assistant_block_request in Hnew; [|done..]. subst new.
  apply Hin.
  apply bind_Ok in Hn2 as (n2 & Hn2 & [= <-]).
  rewrite for_of_appends in Hn2 by apply user_block_appends.
  destruct (for_of _ (blocks_of "user" entry) []) as [n2'|]; [|done]. injection Hn2 as <-.
  apply elem_of_app. left. apply elem_of_app. left. apply Hin1. by left.
Qed.

(** X11.  The timeline shows every request the Correlator knows: each
    request block of an assistant record with a timestamp has an entry that
    carries the id, the question list, the timestamp and the record position
    that the Correlator stores for the block; so every pair whose request has
    a timestamp finds the entry of its request in the timeline. *)
Theorem requests_have_timeline_entries (lines : list value) (timeline : list timelineEntry) :
  buildSessionTimeline JSON_stringify lines = Ok timeline →
  (∀ i entry block,
     lines !! i = Some entry → truthy (field entry "timestamp") = true →
     block ∈ blocks_of "assistant" entry → is_request block = true →
     let ask := request_of i entry block in
     ask_user_question (Ask.timestamp ask) (Ask.toolUseId ask) (Ask.questions ask)
       (Ask.lineIndex ask) ∈ timeline)
  ∧ (∀ pairs p,
       extractQAPairs lines = Ok pairs → p ∈ pairs → truthy (Pair.askTimestamp p) = true →
       ask_user_question (Pair.askTimestamp p) (Pair.toolUseId p) (Pair.questions p)
         (Pair.askLineIndex p) ∈ timeline).
Proof.
  intros Htl. split.
  - intros i entry block Hi Hts Hblock Hreq. simpl.
    by apply (request_entry_in_timeline lines).
  - intros pairs p (m & Hm & Hpairs)%extractQAPairs_responses Hp Hts.
    apply list_elem_of_lookup in Hp as [j Hj].
    destruct (Forall2_lookup_r _ _ _ _ _ Hpairs Hj) as (r & _ & Hr).
    destruct Hr as (askData & answers & Hresp & _ & ->). simpl in *.
    unfold responds in Hresp. case_match; [|done].
    unfold Map_get in Hresp. destruct (map_key _) as [k|]; [|done]. simpl in Hresp.
    destruct (build_toolUseMap_sound _ _ Hm _ _ Hresp)
      as (i & entry & block & Hi & Hblock & Hreq & _ & ->).
    simpl in *. by apply (request_entry_in_timeline lines).
Qed.

End TimelineOrder.

Lemma buildSessionTimeline_in_record_order_witness :
  ∃ timeline, buildSessionTimeline no_serializer sample_lines = Ok timeline
              ∧ StronglySorted (λ a b, lineIndex a ≤ lineIndex b) timeline.
Proof.
  destruct (buildSessionTimeline no_serializer sample_lines) as [timeline|] eqn:H;
    [|vm_compute in H; discriminate H].
  exists timeline. split; [done|].
  exact (proj1 (buildSessionTimeline_in_record_order no_serializer _ _ H)).
Defined.

Lemma requests_have_timeline_entries_witness :
  ∃ timeline, buildSessionTimeline no_serializer sample_lines = Ok timeline
              ∧ ask_user_question (VStr "2025-01-01T10:00:05.000Z") (VStr "Y")
                  (VArr [question "Color?"]) 1 ∈ timeline.
Proof.
  destruct (buildSessionTimeline no_serializer sample_lines) as [timeline|] eqn:H;
    [|vm_compute in H; discriminate H].
  exists timeline. split; [done|].
  refine (proj1 (requests_have_timeline_entries no_serializer _ _ H) 1 sample_ask_Y
            (ask_block "Y" [question "Color?"]) _ _ _ _).
  - reflexivity.
  - reflexivity.
  - vm_compute. by left.
  - reflexivity.
Defined.

(** ** The Correlator when an id is used more than once *)

Lemma last_request_app k l1 l2 :
  last_request k (l1 ++ l2) =
  match last_request k l2 with
  | Some ask => Some ask
  | None => last_request k l1
  end.
Proof.
  unfold last_request. rewrite filter_app, last_app.
  by destruct (last (filter _ l2)).
Qed.

Lemma last_request_cons k r l :
  last_request k (r :: l) =
  match last_request k l with
  | Some ask => Some ask
  | None => if decide (r.1 = k) then Some r.2 else None
  end.
Proof.
  change (r :: l) with ([r] ++ l). rewrite last_request_app.
  destruct (last_request k l); [done|].
  unfold last_request. rewrite filter_cons, filter_nil. by destruct (decide (r.1 = k)).
Qed.

Lemma omap_cons_eq {A B} (f : A → option B) x l :
  omap f (x :: l) = match f x with Some y => y :: omap f l | None => omap f l end.
Proof. done. Qed.

Lemma index_blocks_last i entry blocks : ∀ m m',
  nullish entry = false →
  for_of (index_block i entry) blocks m = Ok m' →
  ∀ k, m' !! k =
       match last_request k
               (omap (λ block,
                        if is_request block
                        then (λ k, (k, request_of i entry block)) <$> map_key (field block "id")
                        else None) blocks) with
       | Some ask => Some ask
       | None => m !! k
       end.
Proof.
  induction blocks as [|block blocks IH]; intros m m' Hentry H k; simpl in H.
  - by injection H as <-.
  - apply bind_Ok in H as (m1 & Hb & Hrest).
    apply index_block_Ok in Hb as [Hblock ->]; [|done].
    rewrite (IH _ _ Hentry Hrest k), omap_cons_eq. unfold register, Map_set.
    destruct (is_request block); [|done].
    destruct (map_key (field block "id")) as [k'|]; simpl; [|done].
    rewrite last_request_cons. destruct (last_request k (omap _ blocks)); [done|]. simpl.
    destruct (decide (k' = k)) as [->|Hne].
    + by rewrite lookup_insert_eq.
    + by rewrite lookup_insert_ne.
Qed.

Lemma index_entries_last lines : ∀ i m m',
  for_index index_entry i lines m = Ok m' →
  ∀ k, m' !! k = match last_request k (requests i lines) with
                 | Some ask => Some ask
                 | None => m !! k
                 end.
Proof.
  induction lines as [|entry lines IH]; intros i m m'; simpl.
  - by intros [= <-] k.
  - intros (m1 & [Hentry Hblocks]%index_entry_Ok_blocks & Hrest)%bind_Ok k.
    rewrite (IH _ _ _ Hrest k), last_request_app.
    destruct (last_request k (requests (S i) lines)); [done|].
    apply (index_blocks_last _ _ _ _ _ Hentry Hblocks).
Qed.

(** X12.  When an id is used by more than one request, every response with
    that id is paired with the last of them in the file, also when the
    response stands before it: the request side of each pair (questions,
    record position, timestamp and id) is the last request made under the
    key of the pair's id. *)
Theorem pair_asks_last_request (lines : list value) (pairs : list Pair.t) (p : Pair.t) :
  extractQAPairs lines = Ok pairs → p ∈ pairs →
  ∃ k, map_key (Pair.toolUseId p) = Some k
       ∧ last_request k (requests 0 lines) = Some (ask_of p).
Proof.
  intros (m & Hm & Hpairs)%extractQAPairs_responses Hp.
  apply list_elem_of_lookup in Hp as [j Hj].
  destruct (Forall2_lookup_r _ _ _ _ _ Hpairs Hj) as (r & _ & Hr).
  destruct Hr as (askData & answers & Hresp & _ & ->).
  unfold responds in Hresp. case_match; [|done].
  unfold Map_get in Hresp. destruct (map_key _) as [k|]; [|done]. simpl in Hresp.
  pose proof (index_entries_last _ _ _ _ Hm k) as Hlast.
  rewrite Hresp, lookup_empty in Hlast.
  destruct (last_request k (requests 0 lines)) as [ask|] eqn:Hask; [|done].
  injection Hlast as ->. exists k. split; [|by destruct ask].
  destruct (build_toolUseMap_sound _ _ Hm _ _ Hresp) as (i & entry & block & _ & _ & _ & Hk & ->).
  done.
Qed.

Lemma pair_asks_last_request_witness :
  ∃ p, extractQAPairs reused_id_lines = Ok [p]
       ∧ Pair.answerLineIndex p = 1
       ∧ last_request (KStr "X") (requests 0 reused_id_lines) = Some (ask_of p)
       ∧ Pair.askLineIndex p = 2.
Proof.
  destruct (extractQAPairs reused_id_lines) as [[|p [|]]|] eqn:H;
    try (vm_compute in H; discriminate H).
  exists p. split; [done|].
  destruct (pair_asks_last_request _ _ p H) as (k & Hk & Hlast); [by left|].
  assert (Hp : Pair.toolUseId p = VStr "X" ∧ Pair.answerLineIndex p = 1 ∧ Pair.askLineIndex p = 2).
  { vm_compute in H. injection H as <-. by vm_compute. }
  destruct Hp as (Hid & Hanswer & Hasked).
  rewrite Hid in Hk. injection Hk as <-. done.
Defined.

(** ** One file's session: when it is built, and when the file is skipped *)

Lemma for_index_each {A St} (P : A → Prop) (body : nat → A → St → result St) (xs : list A) :
  (∀ i x s s', body i x s = Ok s' → P x) →
  ∀ i s s', for_index body i xs s = Ok s' → Forall P xs.
Proof.
  intros Hbody. induction xs as [|x xs IH]; intros i s s'; simpl; [by constructor|].
  intros (s1 & Hx & Hrest)%bind_Ok. constructor; [by eapply Hbody|by eapply IH].
Qed.

Lemma extractQAPairs_no_null lines pairs :
  extractQAPairs lines = Ok pairs → Forall (λ entry, nullish entry = false) lines.
Proof.
  unfold extractQAPairs, build_toolUseMap. intros (m & Hm & _)%bind_Ok.
  eapply for_index_each; [|exact Hm]. intros i x s s'. apply index_entry_Ok.
Qed.

Lemma for_of_break_total {A St} (body : St → A → result (St * bool)) (xs : list A) :
  (∀ s x, x ∈ xs → ∃ r, body s x = Ok r) →
  ∀ s, ∃ s', for_of_break body xs s = Ok s'.
Proof.
  induction xs as [|x xs IH]; intros Hbody s; simpl; [eauto|].
  destruct (Hbody s x) as [[s1 stop] ->]; [by left|]. simpl.
  destruct stop; [eauto|]. apply IH. intros ???; apply Hbody. by right.
Qed.

Lemma find_text_total blocks :
  Forall (λ block, user_ok block = true) blocks →
  ∃ b, find_text blocks = Ok b ∧ (truthy b = false ∨ (nullish b = false ∧ text_ok (field b "text") = true)).
Proof.
  induction 1 as [|block blocks Hblock _ IH]; simpl; [exists VUndef; by split; [|left]|].
  unfold user_ok in Hblock. apply andb_true_iff in Hblock as [Hnull Htext].
  apply negb_true_iff in Hnull. read_fields.
  destruct (is_str (field block "type") "text"); [|done].
  exists block. split; [done|]. right. by split.
Qed.

Lemma candidate_of_total entry :
  timeline_shaped entry = true → is_str (field entry "type") "user" = true →
  ∃ s, candidate_of entry = Ok (VStr s).
Proof.
  unfold timeline_shaped, blocks_of. intros Hshape Huser. rewrite Huser in Hshape.
  apply andb_true_iff in Hshape as [Hshape Hblocks].
  apply andb_true_iff in Hshape as [Hentry%negb_true_iff _].
  unfold candidate_of. read_fields.
  destruct (field (field entry "message") "content") as [| | | |s|blocks|]; try (by eexists).
  rewrite forallb_forall in Hblocks.
  destruct (find_text_total blocks) as (b & -> & Hb).
  { apply Forall_forall. intros block Hin. apply Hblocks. by apply list_elem_of_In. }
  simpl. destruct Hb as [->|[Hnull Htext]]; [by eexists|].
  destruct (truthy b); [|by eexists]. read_fields.
  unfold or_else. destruct (field b "text"); try done; simpl; try (by eexists).
  destruct (negb _); by eexists.
Qed.

Lemma scan_entry_total st entry :
  timeline_shaped entry = true → ∃ r, scan_entry st entry = Ok r.
Proof.
  intros Hshape. assert (nullish entry = false) as Hentry.
  { unfold timeline_shaped in Hshape. apply andb_true_iff in Hshape as [Hshape _].
    apply andb_true_iff in Hshape as [?%negb_true_iff _]. done. }
  unfold scan_entry, first_truthy.
  repeat (match goal with |- context [truthy (?f st)] => destruct (truthy (f st)) end;
          read_fields); try (by eexists);
    destruct (is_str (field entry "type") "user") eqn:Huser; try (by eexists);
    destruct (candidate_of_total _ Hshape Huser) as [s ->]; simpl;
    unfold acceptable; destruct (negb (truthy (VStr s))); simpl; by eexists.
Qed.

Section FileSession.

Variable upper_beyond : ascii → string.
Variable JSON_stringify : value → string.

Lemma extractSessionMeta_total lines fileInfo :
  forallb timeline_shaped lines = true →
  ∃ meta, extractSessionMeta upper_beyond lines fileInfo = Ok meta.
Proof.
  rewrite forallb_forall. intros Hlines. unfold extractSessionMeta.
  destruct (for_of_break_total scan_entry lines) with
    (s := {| Scan.slug := VStr ""; Scan.cwd := VStr ""; Scan.startTime := VStr "";
             Scan.firstUserMessage := VStr "" |}) as [st Hst].
  { intros s x Hx. apply scan_entry_total. apply Hlines. by apply list_elem_of_In. }
  rewrite Hst. simpl.
  rewrite (scan_firstUserMessage _ _ _ Hst) by by left. simpl.
  destruct (first_by_string message_of lines) as [s ->]; [intros; apply message_of_string|].
  rewrite stripTags_VStr. simpl. by eexists.
Qed.

End FileSession.

Section TimelineTotal.

Variable JSON_stringify : value → string.

Lemma slice120_total v : sliceable v = true → truthy v = true → ∃ x, slice120 v = Ok x.
Proof.
  destruct v as [| |b|r|s|l|f]; simpl; intros H1 H2; try discriminate H2.
  - by rewrite H2 in H1.
  - by rewrite H2 in H1.
  - by exists (VStr (slice0 s 120)).
  - by exists (VArr (take 120 l)).
  - done.
Qed.

Lemma summarizeToolInput_total block :
  nullish block = false → summary_ok block = true →
  ∃ snippet, summarizeToolInput JSON_stringify block = Ok snippet.
Proof.
  intros Hblock Hok. unfold summarizeToolInput. read_fields.
  unfold summary_ok in Hok.
  destruct (truthy (field block "input")) eqn:Hinput; simpl in *; [|by eexists].
  pose proof (truthy_not_nullish _ Hinput) as Hnull.
  apply andb_true_iff in Hok as [Hok Hcontent]. apply andb_true_iff in Hok as [Hok Hquery].
  apply andb_true_iff in Hok as [Hcommand [text Hpattern]%convertible_Ok].
  read_fields.
  destruct (truthy (field (field block "input") "command")) eqn:H1; [by apply slice120_total|].
  read_fields. destruct (truthy (field (field block "input") "file_path")); [by eexists|].
  read_fields.
  destruct (truthy (field (field block "input") "pattern")); [rewrite Hpattern; by eexists|].
  read_fields.
  destruct (truthy (field (field block "input") "query")) eqn:H4; [by apply slice120_total|].
  read_fields. destruct (truthy (field (field block "input") "url")); [by eexists|].
  read_fields.
  destruct (truthy (field (field block "input") "content")) eqn:H6; [by apply slice120_total|].
  by eexists.
Qed.

Lemma assistant_block_total i entry timeline block :
  nullish entry = false → assistant_ok block = true →
  ∃ timeline', assistant_block JSON_stringify i entry timeline block = Ok timeline'.
Proof.
  intros Hentry Hok. unfold assistant_ok in Hok.
  apply andb_true_iff in Hok as [Hok Htool]. apply andb_true_iff in Hok as [Hblock%negb_true_iff Htext].
  unfold assistant_block. read_fields.
  destruct (is_str (field block "type") "thinking"); [by eexists|].
  destruct (is_str (field block "type") "text") eqn:Hkind; simpl in *.
  - read_fields. destruct (field block "text") as [| | | |s| |] eqn:Ht; try done; simpl.
    + apply is_str_true in Hkind. rewrite Hkind. simpl. by eexists.
    + apply is_str_true in Hkind. rewrite Hkind. simpl. by eexists.
    + apply is_str_true in Hkind. destruct (negb (trim s =? "")%string).
      * rewrite stripTags_VStr. simpl. destruct (String.length (cleaned_of s) <? 3); by eexists.
      * rewrite Hkind. simpl. by eexists.
  - destruct (is_str (field block "type") "tool_use"); simpl in *; [|by eexists].
    read_fields. destruct (is_str (field block "name") "AskUserQuestion"); simpl in *.
    + read_fields. by eexists.
    + destruct (summarizeToolInput_total block Hblock Htool) as [snippet ->]. simpl.
      read_fields. by eexists.
Qed.

Lemma user_block_total i entry timeline block :
  nullish entry = false → user_ok block = true →
  ∃ timeline', user_block i entry timeline block = Ok timeline'.
Proof.
  intros Hentry Hok. unfold user_ok in Hok.
  apply andb_true_iff in Hok as [Hblock%negb_true_iff Htext].
  unfold user_block. read_fields.
  destruct (is_str (field block "type") "text") eqn:Hkind; simpl in *.
  - read_fields.
    assert (∃ s, or_else (field block "text") (VStr "") = VStr s) as [s ->].
    { unfold or_else. destruct (field block "text"); try done; simpl; try (by eexists).
      destruct (negb _); by eexists. }
    rewrite stripTags_VStr. simpl.
    destruct (String.length (cleaned_of s) <? 3); [by eexists|].
    destruct (is_boilerplate (cleaned_of s)); [by eexists|]. read_fields. by eexists.
  - destruct (is_str (field block "type") "tool_result"); [|by eexists]. read_fields.
    destruct (truthy (field entry "toolUseResult")) eqn:Hres; [|by eexists].
    pose proof (truthy_not_nullish _ Hres). read_fields. by eexists.
Qed.

Lemma buildSessionTimeline_total lines :
  forallb timeline_shaped lines = true →
  ∃ timeline, buildSessionTimeline JSON_stringify lines = Ok timeline.
Proof.
  rewrite forallb_forall. intros Hshape. apply for_index_total.
  intros i entry timeline Hin%list_elem_of_In. specialize (Hshape _ Hin).
  unfold timeline_shaped in Hshape. apply andb_true_iff in Hshape as [Hshape Huser].
  apply andb_true_iff in Hshape as [Hentry%negb_true_iff Hassistant].
  rewrite forallb_forall in Huser, Hassistant.
  rewrite timeline_entry_eq by done. destruct (eligible entry); [|by eexists].
  destruct (for_of_total (assistant_block JSON_stringify i entry) (blocks_of "assistant" entry))
    with (s := timeline) as [t1 ->].
  { intros s block Hblock%list_elem_of_In. apply assistant_block_total; [done|by apply Hassistant]. }
  simpl.
  destruct (for_of_total (user_block i entry) (blocks_of "user" entry)) with (s := t1) as [t2 ->].
  { intros s block Hblock%list_elem_of_In. apply user_block_total; [done|by apply Huser]. }
  simpl. by eexists.
Qed.

End TimelineTotal.

Section FileSessionProperties.

Variable upper_beyond : ascii → string.
Variable JSON_stringify : value → string.

(** X13.  A file whose records have the expected shape is never skipped:
    when no record or block is [null], every [text] is a string or absent,
    the question list of a request is an array (or absent), and the
    arguments that a tool summary cuts are strings, the three extraction
    functions all return and [main] keeps the session. *)
Theorem session_of_file_total (parsed : list value) (fileInfo : FileInfo.t) :
  parsed ≠ [] → forallb record_shaped parsed = true →
  ∃ session, session_of_file upper_beyond JSON_stringify parsed fileInfo = Ok (Some session).
Proof.
  intros Hparsed Hshape.
  assert (forallb correlator_shaped parsed = true ∧ forallb timeline_shaped parsed = true)
    as [Hpairs Htimeline].
  { rewrite !forallb_forall in *. split; intros entry Hin; specialize (Hshape _ Hin);
      unfold record_shaped in Hshape; by apply andb_true_iff in Hshape as [? ?]. }
  unfold session_of_file. destruct parsed as [|entry rest]; [done|]. simpl length. simpl Nat.eqb.
  cbv iota.
  destruct (extractSessionMeta_total upper_beyond _ fileInfo Htimeline) as [meta ->].
  destruct (extractQAPairs_total _ Hpairs) as [pairs ->].
  destruct (buildSessionTimeline_total JSON_stringify _ Htimeline) as [timeline ->].
  simpl. by eexists.
Qed.

(** X14.  One [null] among the records of a file loses the whole file: the
    session is not built, whatever the other records hold, and [main] goes on
    to the next file. *)
Theorem session_of_file_null_record (parsed : list value) (fileInfo : FileInfo.t) :
  Exists (λ entry, nullish entry = true) parsed →
  session_of_file upper_beyond JSON_stringify parsed fileInfo = Throw TypeError.
Proof.
  intros Hnull. unfold session_of_file.
  destruct parsed as [|entry rest]; [by apply Exists_nil in Hnull|]. simpl length. simpl Nat.eqb.
  cbv iota.
  destruct (extractSessionMeta _ _ _) as [meta|[]]; [|done]. simpl.
  destruct (extractQAPairs (entry :: rest)) as [pairs|[]] eqn:Hpairs; [|done].
  apply extractQAPairs_no_null in Hpairs.
  apply Exists_exists in Hnull as (x & Hx & Hxnull).
  rewrite Forall_forall in Hpairs. specialize (Hpairs _ Hx). congruence.
Qed.

End FileSessionProperties.

Lemma session_of_file_total_witness :
  ∃ session, session_of_file no_upper_beyond no_serializer sample_lines sample_file
             = Ok (Some session).
Proof.
  apply session_of_file_total; [done|]. by vm_compute.
Defined.

Lemma session_of_file_null_record_witness :
  session_of_file no_upper_beyond no_serializer (sample_lines ++ [VNull]) sample_file
  = Throw TypeError.
Proof.
  apply session_of_file_null_record. apply Exists_app. right. by left.
Defined.

(** ** The start time of a session and its timeline *)

Lemma first_by_before pick lines : ∀ i entry,
  lines !! i = Some entry → truthy (pick entry) = true →
  ∃ k first, k ≤ i ∧ lines !! k = Some first ∧ first_by pick lines = pick first
             ∧ truthy (pick first) = true.
Proof.
  induction lines as [|x lines IH]; intros i entry Hi Hpick; [done|]. simpl.
  destruct (truthy (pick x)) eqn:Hx.
  - exists 0, x. split_and!; [lia|done..].
  - destruct i as [|i]; simpl in Hi; [injection Hi as ->; congruence|].
    destruct (IH _ _ Hi Hpick) as (k & first & Hk & Hfirst & Heq & Htruthy).
    exists (S k), first. split_and!; [lia|done..].
Qed.

Section StartTime.

Variable upper_beyond : ascii → string.
Variable JSON_stringify : value → string.

Lemma meta_startTime_first lines fileInfo meta :
  extractSessionMeta upper_beyond lines fileInfo = Ok meta →
  Meta.startTime meta = first_by (λ e, field e "timestamp") lines.
Proof.
  unfold extractSessionMeta.
  intros (st & Hscan & H)%bind_Ok. apply bind_Ok in H as (cleaned & _ & [= <-]). simpl.
  by rewrite (scan_startTime _ _ _ Hscan) by by left.
Qed.

(** X15.  A session with a timeline has a start time, and it is no later in
    the file than anything the timeline shows: for every timeline entry, the
    start time of the metadata is the timestamp of a record that stands at or
    before the record of the entry, and it is truthy. *)
Theorem start_time_precedes_timeline (lines : list value) (fileInfo : FileInfo.t)
    (meta : Meta.t) (timeline : list timelineEntry) (e : timelineEntry) :
  extractSessionMeta upper_beyond lines fileInfo = Ok meta →
  buildSessionTimeline JSON_stringify lines = Ok timeline →
  e ∈ timeline →
  truthy (Meta.startTime meta) = true
  ∧ ∃ k first, k ≤ lineIndex e ∧ lines !! k = Some first
               ∧ Meta.startTime meta = field first "timestamp".
Proof.
  intros Hmeta Htl He.
  pose proof (meta_startTime_first _ _ _ Hmeta) as Hstart.
  destruct (timeline_sources _ _ _ _ Htl He) as (entry & Hentry & _ & Helig & _).
  unfold eligible in Helig. apply andb_true_iff in Helig as [Helig _].
  apply andb_true_iff in Helig as [_ Hts].
  destruct (first_by_before (λ e, field e "timestamp") _ _ _ Hentry Hts)
    as (k & first & Hk & Hfirst & Heq & Htruthy).
  rewrite Hstart, Heq. split; [done|]. by exists k, first.
Qed.

End StartTime.

Lemma start_time_precedes_timeline_witness :
  ∃ meta timeline e,
    extractSessionMeta no_upper_beyond sample_lines sample_file = Ok meta
    ∧ buildSessionTimeline no_serializer sample_lines = Ok timeline
    ∧ e ∈ timeline ∧ truthy (Meta.startTime meta) = true.
Proof.
  destruct (extractSessionMeta no_upper_beyond sample_lines sample_file) as [meta|] eqn:Hmeta;
    [|vm_compute in Hmeta; discriminate Hmeta].
  destruct (buildSessionTimeline no_serializer sample_lines) as [[|e timeline]|] eqn:Htl;
    try (vm_compute in Htl; discriminate Htl).
  exists meta, (e :: timeline), e.
  assert (He : e ∈ e :: timeline) by by left.
  split_and!; [done..|].
  exact (proj1 (start_time_precedes_timeline no_upper_beyond no_serializer _ _ _ _ _ Hmeta Htl He)).
Defined.

(** ** The session data written into the page *)

Lemma find_first_cons p c s :
  find_first p (String c s)
  = if String.prefix p (String c s) then Some 0 else S <$> find_first p s.
Proof. done. Qed.

Lemma prefix_end_tag c s :
  String.prefix "</" (String c s) = true → c = "<"%char ∧ ∃ t, s = String "/" t.
Proof.
  unfold String.prefix. destruct (ascii_dec "<" c) as [<-|]; [|done].
  destruct s as [|d s]; [done|]. destruct (ascii_dec "/" d) as [<-|]; [|done].
  intros _. split; [done|]. by eexists.
Qed.

Lemma escape_closing_cons c d s :
  escape_closing (String c (String d s))
  = if Ascii.eqb c "<" && Ascii.eqb d "/" then "<\/" +:+ escape_closing s
    else String c (escape_closing (String d s)).
Proof. done. Qed.

Lemma escape_closing_safe (n : nat) : ∀ s,
  String.length s ≤ n →
  find_first "</" (escape_closing s) = None
  ∧ (∀ t, escape_closing s = String "/" t → ∃ t', s = String "/" t').
Proof.
  induction n as [n IH] using lt_wf_ind. intros [|c [|d s]] Hlen.
  - done.
  - simpl escape_closing. split; [|intros t [= -> _]; by eexists].
    rewrite find_first_cons.
    destruct (String.prefix "</" (String c "")) eqn:Hp; [|done].
    by destruct (prefix_end_tag _ _ Hp) as (_ & t & ?).
  - rewrite escape_closing_cons.
    destruct (Ascii.eqb c "<" && Ascii.eqb d "/") eqn:Hcd.
    + apply andb_true_iff in Hcd as [->%Ascii.eqb_eq ->%Ascii.eqb_eq].
      destruct (IH (String.length s)) with (s := s) as [Hnone _]; [simpl in Hlen; lia|done|].
      split; [|done].
      change ("<\/" +:+ escape_closing s)
        with (String "<" (String "\" (String "/" (escape_closing s)))).
      rewrite !find_first_cons, Hnone.
      repeat match goal with
             | |- context [String.prefix "</" (String ?a ?t)] =>
                 let Hp := fresh "Hp" in
                 destruct (String.prefix "</" (String a t)) eqn:Hp;
                 [by destruct (prefix_end_tag _ _ Hp) as (? & ? & ?)|]
             end.
      done.
    + destruct (IH (String.length (String d s))) with (s := String d s) as [Hnone Hhead];
        [simpl in *; lia|done|].
      split; [|intros t [= -> _]; by eexists].
      rewrite find_first_cons, Hnone.
      destruct (String.prefix "</" _) eqn:Hp; [|done].
      destruct (prefix_end_tag _ _ Hp) as (-> & t & Ht).
      destruct (Hhead _ Ht) as [t' [= -> _]]. done.
Qed.

(** X16.  The session data cannot end the [script] element it is written
    into: after the replacement no [<] is followed by [/], whatever the
    sessions hold. *)
Theorem escape_closing_no_end_tag (json : string) :
  includes (escape_closing json) "</" = false.
Proof.
  unfold includes.
  by destruct (escape_closing_safe (String.length json) json) as [-> _].
Qed.

(** ** The answers of the structured channel *)

(** X17.  The structured answers belong to the record, not to the block:
    every pair is made from the record at its answer position, and when that
    record carries truthy [toolUseResult.answers] the pair's answers are that
    very value, whichever request the response block names; two responses in
    one such record therefore get the same answers. *)
Theorem pair_answers_from_record (lines : list value) (pairs : list Pair.t) (p : Pair.t) :
  extractQAPairs lines = Ok pairs → p ∈ pairs →
  ∃ entry,
    lines !! Pair.answerLineIndex p = Some entry
    ∧ Pair.answerTimestamp p = field entry "timestamp"
    ∧ (truthy (field (field entry "toolUseResult") "answers") = true →
       Pair.answers p = field (field entry "toolUseResult") "answers").
Proof.
  intros (m & Hm & Hpairs)%extractQAPairs_responses Hp.
  apply list_elem_of_lookup in Hp as [j Hj].
  destruct (Forall2_lookup_r _ _ _ _ _ Hpairs Hj) as (r & Hr%list_elem_of_lookup_2 & Hpair).
  destruct (responses_index _ _ _ _ Hr) as (entry & Hentry & _ & Hrec & _).
  rewrite Nat.sub_0_r in Hentry.
  destruct Hpair as (askData & answers & _ & Hanswers & ->). rewrite Hrec in *. simpl.
  exists entry. split_and!; [done..|].
  intros Hstructured. unfold resolve_answers in Hanswers.
  apply bind_Ok in Hanswers as (toolUseResult & [_ ->]%get_Ok_field & Hanswers).
  rewrite get_opt_field in Hanswers. simpl in Hanswers. rewrite Hstructured in Hanswers.
  by injection Hanswers as <-.
Qed.

Lemma pair_answers_from_record_witness :
  ∃ p, extractQAPairs reused_id_lines = Ok [p]
       ∧ Pair.answers p = obj [("Proceed?", VStr "Yes")].
Proof.
  destruct (extractQAPairs reused_id_lines) as [[|p [|]]|] eqn:H;
    try (vm_compute in H; discriminate H).
  exists p. split; [done|].
  destruct (pair_answers_from_record _ _ p H) as (entry & Hentry & _ & Hanswers); [by left|].
  assert (Hp : Pair.answerLineIndex p = 1).
  { vm_compute in H. injection H as <-. by vm_compute. }
  rewrite Hp in Hentry. injection Hentry as <-. by apply Hanswers.
Defined.

Lemma parseJSONLFile_by_line_witness :
  has_char is_newline "{}" = false ∧ parseJSONLFile sample_parse "{}" = [VObj ∅].
Proof.
  split; [reflexivity|].
  exact (proj2 (parseJSONLFile_by_line sample_parse) "{}" eq_refl).
Defined.

(** ** Project labels that cannot make the report fail *)

Lemma inherited_cases name :
  is_inherited name = true → In name inherited_names.
Proof.
  unfold is_inherited. intros (n & Hn & ->%String.eqb_eq)%existsb_exists. done.
Qed.

Lemma inherited_head c t :
  is_inherited (String c t) = true →
  c = "_"%char ∨ (97 ≤ nat_of_ascii c ∧ nat_of_ascii c ≤ 122).
Proof.
  intros H%inherited_cases. simpl in H.
  repeat (destruct H as [H|H]; [injection H as <- _; first [by left|right; vm_compute; lia]|]).
  done.
Qed.

Lemma inherited_no_space name : is_inherited name = true → has_char is_space name = false.
Proof.
  intros H%inherited_cases. simpl in H.
  repeat (destruct H as [<-|H]; [by vm_compute|]). done.
Qed.

Lemma join_with_space w1 w2 rest :
  has_char is_space (join_with " " (w1 :: w2 :: rest)) = true.
Proof.
  change (join_with " " (w1 :: w2 :: rest))
    with (w1 +:+ " " +:+ join_with " " (w2 :: rest)).
  rewrite has_char_app.
  change (" " +:+ join_with " " (w2 :: rest)) with (String " " (join_with " " (w2 :: rest))).
  simpl. by rewrite orb_true_r.
Qed.

Section PlainNames.

Variable upper_beyond : ascii → string.
Variable Date_getTime : value → option Z.

Lemma capitalize_not_inherited w :
  w ≠ "" → plain_segment w = true → is_inherited (capitalize upper_beyond w) = false.
Proof.
  destruct w as [|c w]; [done|]. intros _ Hplain. simpl in Hplain.
  apply andb_true_iff in Hplain as [Hplain H255]. apply andb_true_iff in Hplain as [Hc H181].
  apply negb_true_iff in Hc, H181, H255. apply Ascii.eqb_neq in Hc.
  unfold capitalize, toUpperCase1. rewrite H181, H255. simpl orb. cbv iota.
  pose proof (nat_ascii_bounded c) as Hbound.
  assert (∀ n t, n < 256 → (n < 97 ∨ 122 < n) → n ≠ 95 →
                 is_inherited (String (ascii_of_nat n) t) = false) as Hupper.
  { intros n t Hn Hout Hne. destruct (is_inherited _) eqn:Hin; [|done].
    apply inherited_head in Hin as [Hin|Hin].
    - apply (f_equal nat_of_ascii) in Hin. rewrite nat_ascii_embedding in Hin by done.
      by vm_compute in Hin.
    - rewrite nat_ascii_embedding in Hin by done. lia. }
  destruct ((97 <=? nat_of_ascii c) && (nat_of_ascii c <=? 122)) eqn:Hlower.
  - apply andb_true_iff in Hlower as [?%Nat.leb_le ?%Nat.leb_le].
    apply Hupper; lia.
  - destruct (nat_of_ascii c =? 223) eqn:H223; [done|].
    destruct ((224 <=? nat_of_ascii c) && (nat_of_ascii c <=? 254)
              && negb (nat_of_ascii c =? 247)) eqn:Hlatin.
    + apply andb_true_iff in Hlatin as [Hlatin _].
      apply andb_true_iff in Hlatin as [?%Nat.leb_le ?%Nat.leb_le].
      apply Hupper; lia.
    + change (String c "" +:+ w) with (String c w).
      destruct (is_inherited (String c w)) eqn:Hin; [|done].
      apply inherited_head in Hin as [?|[? ?]]; [done|].
      apply andb_false_iff in Hlower as [?%Nat.leb_gt|?%Nat.leb_gt]; lia.
Qed.

Lemma plain_label_not_inherited dirName :
  plain_name dirName = true → is_inherited (extractProjectName upper_beyond dirName) = false.
Proof.
  unfold plain_name. rewrite forallb_forall. intros Hplain.
  unfold extractProjectName. fold (segments dirName).
  set (meaningful := if (0 <=? _)%Z then drop _ (segments dirName) else segments dirName).
  assert (∀ w, w ∈ meaningful → w ≠ "" ∧ plain_segment w = true) as Hm.
  { assert (∀ w, w ∈ segments dirName → w ≠ "" ∧ plain_segment w = true) as Hall.
    { intros w Hw. split; [|by apply Hplain, list_elem_of_In].
      unfold segments in Hw. by apply list_elem_of_filter in Hw as [? _]. }
    intros w Hw. apply Hall. subst meaningful. destruct (0 <=? _)%Z; [|done].
    by eapply subseteq_drop. }
  destruct meaningful as [|w1 [|w2 rest]] eqn:Hmeaningful; simpl.
  - destruct (is_inherited dirName) eqn:Hin; [|done].
    apply inherited_cases in Hin. subst meaningful. simpl in Hin.
    repeat (destruct Hin as [<-|Hin]; [by vm_compute in Hmeaningful|]). done.
  - destruct (Hm w1) as [Hne Hw1]; [by left|]. by apply capitalize_not_inherited.
  - destruct (is_inherited _) eqn:Hin; [|done].
    apply inherited_no_space in Hin.
    pose proof (join_with_space (capitalize upper_beyond w1) (capitalize upper_beyond w2)
                  (capitalize upper_beyond <$> rest)) as Hspace.
    etrans; [symmetry; exact Hspace|exact Hin].
Qed.

(** X18.  Ordinary directory names cannot make the report fail: when the
    label of every session is what [extractProjectName] gives for a
    directory name none of whose segments starts with an underscore (nor with
    a letter whose upper case lies beyond the code units below 256),
    no label names an inherited property; and when, in addition, the start
    time of every session with pairs converts to a primitive (as every
    string, number and boolean does), [buildViewModel] returns. *)
Theorem plain_names_never_fail (allSessions : list Session.t) :
  Forall (λ s, ∃ dirName, project_of s = extractProjectName upper_beyond dirName
                          ∧ plain_name dirName = true) allSessions →
  Forall (λ s, is_inherited (project_of s) = false) allSessions
  ∧ (Forall (λ s, has_pairs s = true → start_ok s = true) allSessions →
     ∃ vm, buildViewModel Date_getTime allSessions = Ok vm).
Proof.
  intros Hnames.
  assert (Forall (λ s, is_inherited (project_of s) = false) allSessions) as Hplain.
  { eapply Forall_impl; [exact Hnames|]. simpl. intros s (dirName & -> & Hdir).
    by apply plain_label_not_inherited. }
  split; [done|]. intros Hstart. apply buildViewModel_returns.
  apply Forall_forall. intros s Hs Hpairs. split.
  - eapply Forall_forall in Hstart; [|exact Hs]. by apply Hstart.
  - by eapply Forall_forall in Hplain.
Qed.

End PlainNames.

Lemma plain_names_never_fail_witness :
  ∃ vm, buildViewModel sample_time [older; newer] = Ok vm.
Proof.
  refine (proj2 (plain_names_never_fail no_upper_beyond sample_time [older; newer] _) _).
  - repeat constructor; exists "-Users-dev-Desktop-Viewer"; by vm_compute.
  - by repeat constructor.
Defined.
